(** * Invoice tax breakdown of the GST billing application

    A shallow embedding of the computation carried out by [invoice_viewer]
    in [gstbillingapp/views.py]: buyer and seller classification, the per
    line tax engine on Python [Decimal] values, the HSN digit check and the
    invoice totals.  The Python run-time pieces the view relies on (string
    predicates, truthiness, [str], the [decimal] module under its default
    context) are modelled first, the view itself afterwards, the theorems
    last.  The default invoice number that [invoice_create] proposes is
    modelled as well. *)

From Stdlib Require Import ZArith NArith List String Ascii Bool Lia.
From Stdlib Require Import QArith Qround Qabs Qpower Lqa.
Import ListNotations.

Local Open Scope Z_scope.

(** ** Exceptions and results *)

(** The exceptions the view can let escape. *)
Inductive exn : Type :=
| AttributeError
| TypeError
| InvalidOperation
| DivisionByZero
| Overflow.

Inductive result (A : Type) : Type :=
| Ok (a : A)
| Raise (e : exn).

Arguments Ok {A} a.
Arguments Raise {A} e.

Definition bind {A B : Type} (m : result A) (k : A -> result B) : result B :=
  match m with
  | Ok a => k a
  | Raise e => Raise e
  end.

Notation "x <- m ;; k" := (bind m (fun x => k))
  (at level 61, m at next level, right associativity).

Definition returns {A : Type} (m : result A) : Prop := exists a, m = Ok a.

(** ** Python strings *)

(** A Python [str] is a sequence of Unicode code points. *)
Definition pystr : Type := list N.

(** An ASCII literal of the source as a [pystr]. *)
Definition ustr (s : string) : pystr :=
  map N_of_ascii (list_ascii_of_string s).

Definition in_ranges (tbl : list (N * N)) (c : N) : bool :=
  existsb (fun r => (fst r <=? c)%N && (c <=? snd r)%N) tbl.

(** Code points for which [str.isspace] holds (Unicode 14, the table of
    CPython 3.11); these are what [str.strip] removes. *)
Definition space_ranges : list (N * N) :=
  [
   (9, 13); (28, 32); (133, 133); (160, 160); (5760, 5760); (8192, 8202);
   (8232, 8233); (8239, 8239); (8287, 8287); (12288, 12288)
  ]%N.

(** Code points with a decimal digit value (category Nd).  Every block
    starts at a zero digit and runs through whole decades. *)
Definition decimal_ranges : list (N * N) :=
  [
   (48, 57); (1632, 1641); (1776, 1785); (1984, 1993); (2406, 2415);
   (2534, 2543); (2662, 2671); (2790, 2799); (2918, 2927); (3046, 3055);
   (3174, 3183); (3302, 3311); (3430, 3439); (3558, 3567); (3664, 3673);
   (3792, 3801); (3872, 3881); (4160, 4169); (4240, 4249); (6112, 6121);
   (6160, 6169); (6470, 6479); (6608, 6617); (6784, 6793); (6800, 6809);
   (6992, 7001); (7088, 7097); (7232, 7241); (7248, 7257); (42528, 42537);
   (43216, 43225); (43264, 43273); (43472, 43481); (43504, 43513);
   (43600, 43609); (44016, 44025); (65296, 65305); (66720, 66729);
   (68912, 68921); (69734, 69743); (69872, 69881); (69942, 69951);
   (70096, 70105); (70384, 70393); (70736, 70745); (70864, 70873);
   (71248, 71257); (71360, 71369); (71472, 71481); (71904, 71913);
   (72016, 72025); (72784, 72793); (73040, 73049); (73120, 73129);
   (92768, 92777); (92864, 92873); (93008, 93017); (120782, 120831);
   (123200, 123209); (123632, 123641); (125264, 125273); (130032, 130041)
  ]%N.

(** Code points whose numeric type is Digit without being decimal digits
    (superscripts, circled digits and the like). *)
Definition other_digit_ranges : list (N * N) :=
  [
   (178, 179); (185, 185); (4969, 4977); (6618, 6618); (8304, 8304);
   (8308, 8313); (8320, 8329); (9312, 9320); (9332, 9340); (9352, 9360);
   (9450, 9450); (9461, 9469); (9471, 9471); (10102, 10110); (10112, 10120);
   (10122, 10130); (68160, 68163); (69216, 69224); (69714, 69722);
   (127232, 127242)
  ]%N.

Definition char_isspace (c : N) : bool := in_ranges space_ranges c.
Definition char_isdecimal (c : N) : bool := in_ranges decimal_ranges c.
Definition char_isdigit (c : N) : bool :=
  char_isdecimal c || in_ranges other_digit_ranges c.

(** The ten ASCII digits, as the specification speaks of them. *)
Definition ascii_digit (c : N) : bool := ((48 <=? c) && (c <=? 57))%N.

(** [Py_UNICODE_TODECIMAL]: the digit value of a decimal digit. *)
Fixpoint decimal_value_in (tbl : list (N * N)) (c : N) : option N :=
  match tbl with
  | [] => None
  | (lo, hi) :: tbl' =>
      if ((lo <=? c) && (c <=? hi))%N then Some ((c - lo) mod 10)%N
      else decimal_value_in tbl' c
  end.

Definition char_todecimal (c : N) : option N :=
  decimal_value_in decimal_ranges c.

Fixpoint dropwhile {A : Type} (p : A -> bool) (l : list A) : list A :=
  match l with
  | [] => []
  | x :: l' => if p x then dropwhile p l' else l
  end.

Definition lstrip (s : pystr) : pystr := dropwhile char_isspace s.
Definition rstrip (s : pystr) : pystr := rev (dropwhile char_isspace (rev s)).

(** [s.strip()] *)
Definition strip (s : pystr) : pystr := rstrip (lstrip s).

(** [s.isdigit()]: non-empty and every character a digit. *)
Definition isdigit (s : pystr) : bool :=
  match s with
  | [] => false
  | _ => forallb char_isdigit s
  end.

(** [s[:n]] *)
Definition prefix (n : nat) (s : pystr) : pystr := firstn n s.

Definition pystr_eqb (a b : pystr) : bool :=
  if list_eq_dec N.eq_dec a b then true else false.

(** ** The [decimal] module under its default context

    [Decimal] values are a sign, a coefficient and an exponent, or one of
    the special values.  The view never changes the context, so every
    operation runs with [prec = 28], [ROUND_HALF_EVEN], [Emax = 999999],
    [Emin = -999999] and the traps [InvalidOperation], [DivisionByZero] and
    [Overflow]: a trapped signal is raised, the others only set flags that
    the view never reads. *)

Inductive Decimal : Type :=
| Fin (sign : bool) (coeff : N) (exp : Z)
| Inf (sign : bool)
| NaN (sign : bool) (payload : N) (signaling : bool).

Inductive rounding : Type :=
| ROUND_HALF_UP
| ROUND_HALF_EVEN.

Definition prec : Z := 28.
Definition Emax : Z := 999999.
Definition Emin : Z := -999999.
Definition Etiny : Z := Emin - prec + 1.
Definition Etop : Z := Emax - prec + 1.

Definition pow10 (k : Z) : N := (10 ^ Z.to_N k)%N.

Arguments pow10 : simpl never.

(** Counting digits by repeated division; the binary size of the number
    is fuel enough (see [ndigits_spec]). *)
Fixpoint ndigits_fuel (fuel : nat) (c : N) : Z :=
  match fuel with
  | O => 1
  | S fuel' => if (c <? 10)%N then 1 else 1 + ndigits_fuel fuel' (c / 10)%N
  end.

(** [len(str(c))]: the number of decimal digits of a coefficient. *)
Definition ndigits (c : N) : Z := ndigits_fuel (N.to_nat (N.size c)) c.

(** [self.adjusted()] of a finite value. *)
Definition adjusted (c : N) (e : Z) : Z := e + ndigits c - 1.

(** The rounding functions of the module look at the digits to be dropped
    and answer whether the kept digits are incremented.  [drop] is the
    number of trailing digits of [c] that go away (at least one). *)
Definition round_up (r : rounding) (c : N) (drop : Z) : bool :=
  let kept := (c / pow10 drop)%N in
  let rest := (c mod pow10 drop)%N in
  let half := (5 * pow10 (drop - 1))%N in
  match r with
  | ROUND_HALF_UP => (half <=? rest)%N
  | ROUND_HALF_EVEN =>
      if (rest =? half)%N && N.even kept then false else (half <=? rest)%N
  end.

(** Keep the leading [digits] digits of [c], which has more: the kept
    digits and whether rounding increments them.  With [digits < 0] the
    module first replaces the coefficient by a single digit 1. *)
Definition round_coeff (r : rounding) (c : N) (digits : Z) : N * bool :=
  let c' := if digits <? 0 then 1%N else c in
  let digits' := if digits <? 0 then 0 else digits in
  let drop := ndigits c' - digits' in
  ((c' / pow10 drop)%N, round_up r c' drop).

(** [_fix]: round to the context precision and check the exponent.  Of
    the NaNs only quiet ones get here; their payload is cut to the
    precision. *)
Definition fix_ (d : Decimal) : result Decimal :=
  match d with
  | NaN s p _ => Ok (NaN s (p mod pow10 prec)%N false)
  | Inf _ => Ok d
  | Fin s c e =>
      if (c =? 0)%N then Ok (Fin s 0 (Z.min (Z.max e Etiny) Emax))
      else
        let exp_min := ndigits c + e - prec in
        if Etop <? exp_min then Raise Overflow
        else
          let exp_min := if exp_min <? Etiny then Etiny else exp_min in
          if e <? exp_min then
            let (kept, changed) :=
              round_coeff ROUND_HALF_EVEN c (ndigits c + e - exp_min) in
            if changed then
              let coeff := (kept + 1)%N in
              if prec <? ndigits coeff then
                if Etop <? exp_min + 1 then Raise Overflow
                else Ok (Fin s (coeff / 10)%N (exp_min + 1))
              else Ok (Fin s coeff exp_min)
            else Ok (Fin s kept exp_min)
          else Ok d
  end.

(** [_check_nans]: [Some] outcome when an operand is a NaN. *)
Definition check_nans (a b : Decimal) : option (result Decimal) :=
  match a, b with
  | NaN _ _ true, _ => Some (Raise InvalidOperation)
  | _, NaN _ _ true => Some (Raise InvalidOperation)
  | NaN _ _ false, _ => Some (fix_ a)
  | _, NaN _ _ false => Some (fix_ b)
  | _, _ => None
  end.

(** [a * b] *)
Definition mul (a b : Decimal) : result Decimal :=
  match check_nans a b with
  | Some r => r
  | None =>
      match a, b with
      | Fin sa ca ea, Fin sb cb eb => fix_ (Fin (xorb sa sb) (ca * cb)%N (ea + eb))
      | Inf sa, Fin sb cb _ =>
          if (cb =? 0)%N then Raise InvalidOperation else Ok (Inf (xorb sa sb))
      | Fin sa ca _, Inf sb =>
          if (ca =? 0)%N then Raise InvalidOperation else Ok (Inf (xorb sa sb))
      | Inf sa, Inf sb => Ok (Inf (xorb sa sb))
      | _, _ => Raise InvalidOperation
      end
  end.

(** The loop of [__truediv__] that brings an exact quotient as close to
    the ideal exponent as its trailing zeros allow; [n] is the distance
    [ideal_exp - exp], which bounds the number of rounds. *)
Fixpoint strip_zeros (n : nat) (coeff : N) (exp : Z) : N * Z :=
  match n with
  | O => (coeff, exp)
  | S n' =>
      if (coeff mod 10 =? 0)%N then strip_zeros n' (coeff / 10)%N (exp + 1)
      else (coeff, exp)
  end.

(** [a / b] *)
Definition truediv (a b : Decimal) : result Decimal :=
  match check_nans a b with
  | Some r => r
  | None =>
      match a, b with
      | Inf _, Inf _ => Raise InvalidOperation
      | Inf sa, Fin sb _ _ => Ok (Inf (xorb sa sb))
      | Fin sa _ _, Inf sb => Ok (Fin (xorb sa sb) 0 Etiny)
      | Fin sa ca ea, Fin sb cb eb =>
          let sign := xorb sa sb in
          if (cb =? 0)%N then
            if (ca =? 0)%N then Raise InvalidOperation else Raise DivisionByZero
          else if (ca =? 0)%N then fix_ (Fin sign 0 (ea - eb))
          else
            let shift := ndigits cb - ndigits ca + prec + 1 in
            let exp := ea - eb - shift in
            let num := if 0 <=? shift then (ca * pow10 shift)%N else ca in
            let den := if 0 <=? shift then cb else (cb * pow10 (- shift))%N in
            let coeff := (num / den)%N in
            let remainder := (num mod den)%N in
            if (remainder =? 0)%N then
              let (coeff', exp') :=
                strip_zeros (Z.to_nat (ea - eb - exp)) coeff exp in
              fix_ (Fin sign coeff' exp')
            else
              fix_ (Fin sign
                      (if (coeff mod 5 =? 0)%N then coeff + 1 else coeff)%N exp)
      | _, _ => Raise InvalidOperation
      end
  end.

(** [a + b]: the exact sum at the smaller exponent, then [_fix].  (The
    module shortens a far smaller operand before adding; that shortcut
    leaves the rounded result unchanged.) *)
Definition add (a b : Decimal) : result Decimal :=
  match check_nans a b with
  | Some r => r
  | None =>
      match a, b with
      | Inf sa, Inf sb =>
          if Bool.eqb sa sb then Ok a else Raise InvalidOperation
      | Inf _, _ => Ok a
      | _, Inf _ => Ok b
      | Fin sa ca ea, Fin sb cb eb =>
          let exp := Z.min ea eb in
          let za := Z.of_N (ca * pow10 (ea - exp)) in
          let zb := Z.of_N (cb * pow10 (eb - exp)) in
          let sum := (if sa then - za else za) + (if sb then - zb else zb) in
          let sign :=
            if sum =? 0 then
              if (ca =? 0)%N && (cb =? 0)%N then sa && sb else false
            else sum <? 0 in
          fix_ (Fin sign (Z.to_N (Z.abs sum)) exp)
      | _, _ => Raise InvalidOperation
      end
  end.

(** [_rescale]: the coefficient of a finite value [c * 10^x] brought to
    the exponent [ex]. *)
Definition rescale (c : N) (x : Z) (ex : Z) (r : rounding) : N :=
  if (c =? 0)%N then 0%N
  else if ex <=? x then (c * pow10 (x - ex))%N
  else
    let (kept, changed) := round_coeff r c (ndigits c + x - ex) in
    if changed then (kept + 1)%N else kept.

(** [self.quantize(e, rounding)] *)
Definition quantize (self e : Decimal) (r : rounding) : result Decimal :=
  match check_nans self e with
  | Some res => res
  | None =>
      match self, e with
      | Inf _, Inf _ => Ok self
      | Fin s c x, Fin _ _ ex =>
          if negb ((Etiny <=? ex) && (ex <=? Emax)) then Raise InvalidOperation
          else if (c =? 0)%N then fix_ (Fin s 0 ex)
          else if Emax <? adjusted c x then Raise InvalidOperation
          else if prec <? adjusted c x - ex + 1 then Raise InvalidOperation
          else
            let c' := rescale c x ex r in
            if Emax <? adjusted c' ex then Raise InvalidOperation
            else if prec <? ndigits c' then Raise InvalidOperation
            else fix_ (Fin s c' ex)
      | _, _ => Raise InvalidOperation
      end
  end.

(** [int(d)]: truncation towards zero; fails on the special values (with
    [ValueError] or [OverflowError], both swallowed by the caller). *)
Definition int_of_Decimal (d : Decimal) : option Z :=
  match d with
  | Fin s c e =>
      let m := if 0 <=? e then (c * pow10 e)%N else (c / pow10 (- e))%N in
      Some (if s then - Z.of_N m else Z.of_N m)
  | _ => None
  end.

(** [Decimal(n)] for a Python [int]. *)
Definition Decimal_of_int (n : Z) : Decimal := Fin (n <? 0) (Z.to_N (Z.abs n)) 0.

(** *** [Decimal(s)] for a string

    The constructor strips white space, drops underscores, maps every
    decimal digit of Unicode to its ASCII digit and parses what is left
    with the grammar of the decimal specification.  The conversion is
    exact: it fails where the value does not fit the largest context of
    the library. *)

Fixpoint numeric_as_ascii (s : pystr) : option (list N) :=
  match s with
  | [] => Some []
  | c :: s' =>
      if (c =? 95)%N then numeric_as_ascii s'
      else if ((0 <? c) && (c <=? 127))%N then
        option_map (cons c) (numeric_as_ascii s')
      else if char_isspace c then option_map (cons 32%N) (numeric_as_ascii s')
      else
        match char_todecimal c with
        | Some d => option_map (cons (48 + d)%N) (numeric_as_ascii s')
        | None => None
        end
  end.

Definition lower (c : N) : N :=
  if ((65 <=? c) && (c <=? 90))%N then (c + 32)%N else c.

Fixpoint span_digits (s : list N) : list N * list N :=
  match s with
  | [] => ([], [])
  | c :: s' =>
      if ascii_digit c then
        let (ds, rest) := span_digits s' in (c :: ds, rest)
      else ([], s)
  end.

Definition digits_value (ds : list N) : N :=
  fold_left (fun acc c => (acc * 10 + (c - 48))%N) ds 0%N.

(** An optional sign, as at the head of a number or of an exponent. *)
Definition split_sign (s : list N) : bool * list N :=
  match s with
  | 43%N :: rest => (false, rest)
  | 45%N :: rest => (true, rest)
  | _ => (false, s)
  end.

(** The exponent part after the indicator: a sign and at least one digit,
    up to the end of the string. *)
Definition parse_exponent (s : list N) : option Z :=
  let (neg, rest) := split_sign s in
  match span_digits rest with
  | (d :: ds, []) =>
      let v := Z.of_N (digits_value (d :: ds)) in
      Some (if neg then - v else v)
  | _ => None
  end.

(** Coefficient and exponent of [digits [. digits] [E exponent]] with at
    least one digit before the indicator. *)
Definition parse_number (s : list N) : option (N * Z) :=
  let (int_part, rest) := span_digits s in
  let (frac_part, rest') :=
    match rest with
    | 46%N :: r => span_digits r
    | _ => ([], rest)
    end in
  match int_part ++ frac_part with
  | [] => None
  | ds =>
      let frac_len := Z.of_nat (List.length frac_part) in
      match rest' with
      | [] => Some (digits_value ds, - frac_len)
      | c :: r =>
          if (lower c =? 101)%N then
            match parse_exponent r with
            | Some e => Some (digits_value ds, e - frac_len)
            | None => None
            end
          else None
      end
  end.

(** The payload of a NaN: digits up to the end of the string. *)
Definition parse_payload (s : list N) : option N :=
  match span_digits s with
  | (ds, []) => Some (digits_value ds)
  | _ => None
  end.

(** Bounds of the largest context, which the exact conversion works in. *)
Definition MAX_EMAX : Z := 999999999999999999.
Definition MAX_ETINY : Z := -1999999999999999997.

Definition fits_exactly (c : N) (e : Z) : bool :=
  (MAX_ETINY <=? e) &&
  (if (c =? 0)%N then e <=? MAX_EMAX else adjusted c e <=? MAX_EMAX).

Definition Decimal_of_ascii (s : list N) : result Decimal :=
  let (sign, body) := split_sign s in
  match map lower body with
  | 110 :: 97 :: 110 :: _ =>
      match parse_payload (skipn 3 body) with
      | Some p => Ok (NaN sign p false)
      | None => Raise InvalidOperation
      end
  | 115 :: 110 :: 97 :: 110 :: _ =>
      match parse_payload (skipn 4 body) with
      | Some p => Ok (NaN sign p true)
      | None => Raise InvalidOperation
      end
  | [105; 110; 102] => Ok (Inf sign)
  | [105; 110; 102; 105; 110; 105; 116; 121] => Ok (Inf sign)
  | _ =>
      match parse_number body with
      | Some (c, e) =>
          if fits_exactly c e then Ok (Fin sign c e) else Raise InvalidOperation
      | None => Raise InvalidOperation
      end
  end%N.

(** [Decimal(s)] *)
Definition Decimal_of_string (s : pystr) : result Decimal :=
  match numeric_as_ascii (strip s) with
  | Some a => Decimal_of_ascii a
  | None => Raise InvalidOperation
  end.

(** ** Values decoded from the stored JSON *)

(** A [float] is seen by the view only through its truth value and through
    [str]; it is represented by what [repr] prints: the shortest digit
    string that reads back as the same float ([digits], without trailing
    zeros) and the position [decpt] of the decimal point, the value being
    [0.digits * 10^decpt]. *)
Inductive pyfloat : Type :=
| FFinite (neg : bool) (digits : N) (decpt : Z)
| FInf (neg : bool)
| FNan.

#[warning="-register-all"]
Inductive pyval : Type :=
| VNone
| VBool (b : bool)
| VInt (n : Z)
| VFloat (f : pyfloat)
| VStr (s : pystr)
| VList (l : list pyval)
| VDict (d : list (pystr * pyval)).

(** [bool(v)] *)
Definition truthy (v : pyval) : bool :=
  match v with
  | VNone => false
  | VBool b => b
  | VInt n => negb (n =? 0)
  | VFloat (FFinite _ digits _) => negb (digits =? 0)%N
  | VFloat _ => true
  | VStr s => match s with [] => false | _ => true end
  | VList l => match l with [] => false | _ => true end
  | VDict d => match d with [] => false | _ => true end
  end.

(** [a or b] *)
Definition py_or (a b : pyval) : pyval := if truthy a then a else b.

Fixpoint lookup (k : pystr) (d : list (pystr * pyval)) : option pyval :=
  match d with
  | [] => None
  | (k', v) :: d' => if pystr_eqb k k' then Some v else lookup k d'
  end.

(** [v.get(k, default)]; only a [dict] has the method. *)
Definition get_default (v : pyval) (k : string) (default : pyval)
  : result pyval :=
  match v with
  | VDict d =>
      match lookup (ustr k) d with
      | Some x => Ok x
      | None => Ok default
      end
  | _ => Raise AttributeError
  end.

(** [v.get(k)] *)
Definition get (v : pyval) (k : string) : result pyval :=
  get_default v k VNone.

(** [v.strip()]; only a [str] has the method. *)
Definition strip_method (v : pyval) : result pystr :=
  match v with
  | VStr s => Ok (strip s)
  | _ => Raise AttributeError
  end.

(** The elements a [for] loop or a generator draws from a value. *)
Definition iterate (v : pyval) : result (list pyval) :=
  match v with
  | VList l => Ok l
  | VDict d => Ok (map (fun kv => VStr (fst kv)) d)
  | VStr s => Ok (map (fun c => VStr [c]) s)
  | _ => Raise TypeError
  end.

(** *** [str(v)] *)

(** The decimal digits of a number, written in front of [acc]; the binary
    size of the number is fuel enough (see [str_N_spec]). *)
Fixpoint str_N_fuel (fuel : nat) (n : N) (acc : pystr) : pystr :=
  let acc' := ((48 + n mod 10) :: acc)%N in
  match fuel with
  | O => acc'
  | S fuel' => if (n <? 10)%N then acc' else str_N_fuel fuel' (n / 10)%N acc'
  end.

Definition str_N (n : N) : pystr := str_N_fuel (N.to_nat (N.size n)) n [].

(** [str(n)] for an [int]. *)
Definition str_int (n : Z) : pystr :=
  if n <? 0 then 45%N :: str_N (Z.to_N (- n)) else str_N (Z.to_N n).

Definition zeros (k : Z) : pystr := repeat 48%N (Z.to_nat k).

(** [repr] of a [float]: positional between [1e-4] and [1e16], scientific
    with an exponent of two digits at least elsewhere. *)
Definition repr_float (f : pyfloat) : pystr :=
  match f with
  | FNan => ustr "nan"
  | FInf neg => ustr (if neg then "-inf" else "inf")
  | FFinite neg digits decpt =>
      let ds := str_N digits in
      let n := Z.of_nat (List.length ds) in
      let body :=
        if (decpt <=? -4) || (16 <? decpt) then
          let e := decpt - 1 in
          let mant :=
            match ds with
            | d :: ((_ :: _) as rest) => d :: 46%N :: rest
            | _ => ds
            end in
          let es := str_N (Z.to_N (Z.abs e)) in
          mant ++ [101%N; if e <? 0 then 45%N else 43%N]
               ++ (if Z.abs e <? 10 then 48%N :: es else es)
        else if decpt <=? 0 then
          ustr "0." ++ zeros (- decpt) ++ ds
        else if decpt <? n then
          firstn (Z.to_nat decpt) ds ++ 46%N :: skipn (Z.to_nat decpt) ds
        else ds ++ zeros (decpt - n) ++ ustr ".0" in
      if neg then 45%N :: body else body
  end.

(** [Decimal(str(v))].  The text of a list or of a dict opens with a
    bracket, which no numeric string does. *)
Definition Decimal_of_value (v : pyval) : result Decimal :=
  match v with
  | VNone => Decimal_of_string (ustr "None")
  | VBool b => Decimal_of_string (ustr (if b then "True" else "False"))
  | VInt n => Decimal_of_string (str_int n)
  | VFloat f => Decimal_of_string (repr_float f)
  | VStr s => Decimal_of_string s
  | VList _ => Raise InvalidOperation
  | VDict _ => Raise InvalidOperation
  end.

(** ** The invoice viewer *)

Inductive invoice_type_t : Type := B2B | B2C.
Inductive tax_mode_t : Type := INTRA | INTER.

(** One entry of [breakdown]. *)
Record LineBreakdown : Type := {
  description : pyval;
  qty : Decimal;
  rate : Decimal;
  tax_percent : Decimal;
  taxable_value : Decimal;
  tax_value : Decimal;
  cgst : Decimal;
  sgst : Decimal;
  igst : Decimal;
  hsn : pyval;
  hsn_warning : bool;
  hsn_recommended : Z
}.

(** The running totals of the loop. *)
Record Totals : Type := {
  total_taxable : Decimal;
  total_tax : Decimal;
  total_cgst : Decimal;
  total_sgst : Decimal;
  total_igst : Decimal
}.

(** What the view hands to the template. *)
Record Context : Type := {
  breakdown : list LineBreakdown;
  totals : Totals;
  grand_total : Decimal;
  seller_gst : pystr;
  buyer_gst : pystr;
  invoice_type : invoice_type_t;
  tax_mode : tax_mode_t;
  (** the integer given to [num2words]; [None] when [int] fails, which
      the view turns into empty words. *)
  words_of : option Z
}.

(** The records the view loads: the seller's profile, the customer linked
    to the invoice (if any) with its GSTIN (if any), and the decoded
    [invoice_json] ([None] when [json.loads] fails). *)
Record Stored : Type := {
  business_gst : option pystr;
  invoice_customer : option (option pystr);
  invoice_json : option pyval
}.

Definition zero_00 : Decimal := Fin false 0 (-2).   (* Decimal("0.00") *)
Definition cent : Decimal := Fin false 1 (-2).      (* Decimal("0.01") *)
Definition hundred : Decimal := Fin false 100 0.    (* Decimal("100") *)

Definition zero_totals : Totals :=
  {| total_taxable := zero_00; total_tax := zero_00; total_cgst := zero_00;
     total_sgst := zero_00; total_igst := zero_00 |}.

(** [invoice_data]: the decoded JSON, or [{}]. *)
Definition load_invoice_data (st : Stored) : pyval :=
  match invoice_json st with
  | Some v => v
  | None => VDict []
  end.

(** [(user_profile.business_gst or "").strip()] *)
Definition seller_gst_of (st : Stored) : pystr :=
  match business_gst st with
  | Some s => strip s
  | None => strip []
  end.

(** The buyer GSTIN: the customer's when there is a customer with a
    non-empty one, else the [customer_gst] entry of the stored JSON. *)
Definition buyer_gst_of (st : Stored) (invoice_data : pyval) : result pystr :=
  match invoice_customer st with
  | Some (Some (c :: g)) => Ok (strip (c :: g))
  | _ =>
      v <- get_default invoice_data "customer_gst" (VStr []) ;;
      strip_method v
  end.

Definition invoice_type_of (buyer : pystr) : invoice_type_t :=
  match buyer with
  | [] => B2C
  | _ => B2B
  end.

Definition gst_state (gstin : pystr) : option pystr :=
  match gstin with
  | [] => None
  | _ =>
      if (2 <=? List.length gstin)%nat && isdigit (prefix 2 gstin)
      then Some (prefix 2 gstin)
      else None
  end.

(** [s_state and b_state and s_state == b_state] *)
Definition tax_mode_of (seller buyer : pystr) : tax_mode_t :=
  match gst_state seller, gst_state buyer with
  | Some ((_ :: _) as s), Some ((_ :: _) as b) =>
      if pystr_eqb s b then INTRA else INTER
  | _, _ => INTER
  end.

(** [invoice_data.get("invoice_items") or invoice_data.get("items") or []] *)
Definition extract_items (invoice_data : pyval) : result pyval :=
  a <- get invoice_data "invoice_items" ;;
  if truthy a then Ok a
  else
    b <- get invoice_data "items" ;;
    Ok (py_or b (VList [])).

(** [Decimal(str(it.get(key) or default))] *)
Definition field (it : pyval) (key : string) (default : Z) : result Decimal :=
  v <- get it key ;;
  Decimal_of_value (py_or v (VInt default)).

(** [ch.isdigit()] on what the generator draws from [hsn]. *)
Definition isdigit_method (ch : pyval) : result bool :=
  match ch with
  | VStr s => Ok (isdigit s)
  | _ => Raise AttributeError
  end.

(** [len("".join(ch for ch in hsn if ch.isdigit()))] over the elements
    drawn from [hsn]. *)
Fixpoint hsn_digits_len (chs : list pyval) : result nat :=
  match chs with
  | [] => Ok O
  | ch :: chs' =>
      b <- isdigit_method ch ;;
      n <- hsn_digits_len chs' ;;
      Ok (if b
          then (match ch with VStr s => List.length s | _ => O end + n)%nat
          else n)
  end.

Definition recommended_digits (ty : invoice_type_t) : Z :=
  match ty with
  | B2B => 6
  | B2C => 4
  end.

(** The amounts of a line: [taxable_value] and [tax_value]. *)
Definition line_amounts (qty rate tax_percent : Decimal)
  : result (Decimal * Decimal) :=
  p <- mul qty rate ;;
  taxable_value <- quantize p cent ROUND_HALF_UP ;;
  p' <- mul taxable_value tax_percent ;;
  p'' <- truediv p' hundred ;;
  tax_value <- quantize p'' cent ROUND_HALF_UP ;;
  Ok (taxable_value, tax_value).

(** The split of the tax of a line, [(cgst, sgst, igst)], and the three
    totals it is added to. *)
Definition line_split (mode : tax_mode_t) (tot : Totals) (tax_value : Decimal)
  : result (Decimal * Decimal * Decimal * (Decimal * Decimal * Decimal)) :=
  match mode with
  | INTRA =>
      h1 <- truediv tax_value (Decimal_of_int 2) ;;
      cgst <- quantize h1 cent ROUND_HALF_UP ;;
      h2 <- truediv tax_value (Decimal_of_int 2) ;;
      sgst <- quantize h2 cent ROUND_HALF_UP ;;
      tc <- add (total_cgst tot) cgst ;;
      ts <- add (total_sgst tot) sgst ;;
      Ok (cgst, sgst, zero_00, (tc, ts, total_igst tot))
  | INTER =>
      ti <- add (total_igst tot) tax_value ;;
      Ok (zero_00, zero_00, tax_value, (total_cgst tot, total_sgst tot, ti))
  end.

(** The HSN digit check: the warning flag and the recommended length. *)
Definition hsn_check (ty : invoice_type_t) (hsn : pyval) : result (bool * Z) :=
  chs <- iterate hsn ;;
  n <- hsn_digits_len chs ;;
  let recommended := recommended_digits ty in
  Ok (Z.of_nat n <? recommended, recommended).

(** The body of the loop over the items: the breakdown entry of one item
    and the totals after it. *)
Definition line (ty : invoice_type_t) (mode : tax_mode_t) (tot : Totals)
    (it : pyval) : result (LineBreakdown * Totals) :=
  d <- get it "description" ;;
  let desc := py_or d (VStr []) in
  qty <- field it "qty" 1 ;;
  rate <- field it "rate" 0 ;;
  tax_percent <- field it "tax_rate" 0 ;;
  h <- get it "hsn" ;;
  let hsn := py_or h (VStr []) in
  am <- line_amounts qty rate tax_percent ;;
  let (taxable_value, tax_value) := am in
  sp <- line_split mode tot tax_value ;;
  let '(cgst, sgst, igst, (tc, ts, ti)) := sp in
  tt <- add (total_taxable tot) taxable_value ;;
  tx <- add (total_tax tot) tax_value ;;
  w <- hsn_check ty hsn ;;
  let (warning, recommended) := w in
  Ok ({| description := desc; qty := qty; rate := rate;
         tax_percent := tax_percent; taxable_value := taxable_value;
         tax_value := tax_value; cgst := cgst; sgst := sgst; igst := igst;
         hsn := hsn; hsn_warning := warning;
         hsn_recommended := recommended |},
      {| total_taxable := tt; total_tax := tx; total_cgst := tc;
         total_sgst := ts; total_igst := ti |}).

(** The loop: entries are appended in the order of the items. *)
Fixpoint lines (ty : invoice_type_t) (mode : tax_mode_t) (tot : Totals)
    (items : list pyval) : result (list LineBreakdown * Totals) :=
  match items with
  | [] => Ok ([], tot)
  | it :: items' =>
      r <- line ty mode tot it ;;
      let (b, tot') := r in
      rs <- lines ty mode tot' items' ;;
      let (bs, tot'') := rs in
      Ok (b :: bs, tot'')
  end.

(** The computation of [invoice_viewer] between the loading of the
    records and the rendering of the template. *)
Definition invoice_viewer (st : Stored) : result Context :=
  let invoice_data := load_invoice_data st in
  let seller := seller_gst_of st in
  buyer <- buyer_gst_of st invoice_data ;;
  let ty := invoice_type_of buyer in
  let mode := tax_mode_of seller buyer in
  items <- extract_items invoice_data ;;
  its <- iterate items ;;
  r <- lines ty mode zero_totals its ;;
  let (bd, tot) := r in
  s <- add (total_taxable tot) (total_tax tot) ;;
  gt <- quantize s cent ROUND_HALF_EVEN ;;
  Ok {| breakdown := bd; totals := tot; grand_total := gt;
        seller_gst := seller; buyer_gst := buyer; invoice_type := ty;
        tax_mode := mode; words_of := int_of_Decimal gt |}.

(** * Amounts, numbers and sums

    What the statements below speak about: the number a decimal denotes,
    rounding as the specification words it, amounts of money and their
    sums over a breakdown. *)

(** The integer nearest to [c * 10^(x+2)], halves going up: the
    coefficient of [c * 10^x] brought to two decimals. *)
Definition half_up_cents (c : N) (x : Z) : N :=
  if -2 <=? x then (c * pow10 (x + 2))%N
  else ((2 * c + pow10 (-2 - x)) / (2 * pow10 (-2 - x)))%N.

(** An amount: finite, two decimals, within the precision. *)
Definition money (d : Decimal) : Prop :=
  match d with
  | Fin _ c e => e = -2 /\ (c < pow10 28)%N
  | _ => False
  end.

(** The signed coefficient: for an amount, its number of cents
    (hundredths of a rupee). *)
Definition cents (d : Decimal) : Z :=
  match d with
  | Fin s c _ => if s then - Z.of_N c else Z.of_N c
  | _ => 0
  end.

(** The coefficient of a finite decimal. *)
Definition coeff (d : Decimal) : N :=
  match d with
  | Fin _ c _ => c
  | _ => 0%N
  end.

Definition exponent (d : Decimal) : Z :=
  match d with
  | Fin _ _ e => e
  | _ => 0
  end.

Definition finite (d : Decimal) : Prop :=
  match d with
  | Fin _ _ _ => True
  | _ => False
  end.

(** Exponents that keep every product of the view inside the context. *)
Definition modest (e : Z) : Prop := -400000 <= e <= 400000.

Local Open Scope Q_scope.

(** The rational a finite decimal stands for. *)
Definition value (d : Decimal) : Q :=
  match d with
  | Fin s c e =>
      (if s then - (1) else 1) * inject_Z (Z.of_N c) * (10 ^ e)
  | _ => 0
  end.

(** [round_half_up(q, 2 decimals)]: the nearest multiple of [0.01], a
    half going away from zero. *)
Definition round_half_up_2 (q : Q) : Q :=
  let n := Qfloor (Qabs q * 100 + (1 # 2)) in
  inject_Z (match (q ?= 0)%Q with Lt => (- n)%Z | _ => n end) / 100.

Local Close Scope Q_scope.

(** The exact sum, in cents, of one field over the breakdown. *)
Fixpoint sum_cents (f : LineBreakdown -> Decimal) (bd : list LineBreakdown)
  : Z :=
  match bd with
  | [] => 0
  | b :: bd' => cents (f b) + sum_cents f bd'
  end.

(** The volume of an invoice: the absolute taxable values and tax values
    of its lines added up, in cents. *)
Fixpoint volume (bd : list LineBreakdown) : Z :=
  match bd with
  | [] => 0
  | b :: bd' =>
      Z.abs (cents (taxable_value b)) + Z.abs (cents (tax_value b))
      + volume bd'
  end.

Local Open Scope Q_scope.

(** The exact sum of one field over the breakdown, as a number. *)
Fixpoint sum_value (f : LineBreakdown -> Decimal) (bd : list LineBreakdown)
  : Q :=
  match bd with
  | [] => 0
  | b :: bd' => value (f b) + sum_value f bd'
  end.

Local Close Scope Q_scope.

Definition finite_inputs (b : LineBreakdown) : Prop :=
  finite (qty b) /\ finite (rate b) /\ finite (tax_percent b).

Definition amount_within (B : Z) (d : Decimal) : Prop :=
  money d /\ Z.abs (cents d) <= B.

Definition totals_within (B : Z) (tot : Totals) : Prop :=
  amount_within B (total_taxable tot) /\ amount_within B (total_tax tot) /\
  amount_within B (total_cgst tot) /\ amount_within B (total_sgst tot) /\
  amount_within B (total_igst tot).

(** Every amount of the entry is an amount of money. *)
Definition line_money (b : LineBreakdown) : Prop :=
  money (taxable_value b) /\ money (tax_value b) /\ money (cgst b) /\
  money (sgst b) /\ money (igst b).

(** * Classification as the specification words it *)

(** Following the specification's words: [state_of] resolves a GSTIN
    whose first two characters are ASCII digits, and the tax mode compares
    the resolved states. *)
Definition spec_state_of (gstin : pystr) : option pystr :=
  if (2 <=? List.length gstin)%nat && forallb ascii_digit (firstn 2 gstin)
  then Some (firstn 2 gstin)
  else None.

Definition spec_tax_mode (seller buyer : pystr) : tax_mode_t :=
  match spec_state_of seller, spec_state_of buyer with
  | Some a, Some b => if pystr_eqb a b then INTRA else INTER
  | _, _ => INTER
  end.

Definition is_ascii (s : pystr) : Prop := Forall (fun c => (c < 128)%N) s.

(** The raw buyer GSTIN the view reads: the customer's when the invoice
    has a customer with a non-empty one, else the [customer_gst] string of
    the stored JSON (the empty string when the key is missing). *)
Definition buyer_source (st : Stored) (raw : pystr) : Prop :=
  (invoice_customer st = Some (Some raw) /\ raw <> []) \/
  ((invoice_customer st = None \/ invoice_customer st = Some None \/
    invoice_customer st = Some (Some [])) /\
   get_default (load_invoice_data st) "customer_gst" (VStr [])
   = Ok (VStr raw)).

(** * Items the view can work with *)

(** The dict without the key. *)
Definition remove_key (k : pystr) (d : list (pystr * pyval))
  : list (pystr * pyval) :=
  filter (fun kv => negb (pystr_eqb k (fst kv))) d.

(** A plain number: at most seven significant digits and at most seven
    decimals. *)
Definition plain (x : Decimal) : Prop :=
  match x with
  | Fin _ c e => (c < pow10 7)%N /\ -7 <= e <= 0
  | _ => False
  end.

(** A stored value is usable in a numeric field when it is falsy (and so
    replaced by the default) or when [Decimal(str(v))] is a plain
    number. *)
Definition usable (v : pyval) : Prop :=
  truthy v = false \/ exists x, Decimal_of_value v = Ok x /\ plain x.

Definition field_ok (d : list (pystr * pyval)) (key : string) : Prop :=
  match lookup (ustr key) d with
  | None => True
  | Some v => usable v
  end.

(** The HSN code is missing, falsy or a string. *)
Definition hsn_ok (d : list (pystr * pyval)) : Prop :=
  match lookup (ustr "hsn") d with
  | None => True
  | Some v => truthy v = false \/ exists s, v = VStr s
  end.

(** What one plain line adds to the volume at most, in cents. *)
Definition line_cap : Z := 2 * 10 ^ 23.

(** The field is missing from the object or holds null. *)
Definition missing_or_null (d : list (pystr * pyval)) (key : string) : Prop :=
  lookup (ustr key) d = None \/ lookup (ustr key) d = Some VNone.

(** * Items within the reach of the precision *)

Local Open Scope Q_scope.

(** What a line can come to, tax included, in rupees: the product of
    quantity and rate and the tax on it, in absolute value, with two
    paise of room for each of the two roundings to cents. *)
Definition gross (q r p : Decimal) : Q :=
  (Qabs (value q * value r) + (1 # 50)) * (1 + Qabs (value p) / 100)
  + (1 # 50).

Local Close Scope Q_scope.

(** A stored value can be read as a number when it is falsy (and so
    replaced by the default) or when [Decimal(str(v))] is a finite
    decimal with a modest exponent. *)
Definition numeric (v : pyval) : Prop :=
  truthy v = false \/
  exists x, Decimal_of_value v = Ok x /\ finite x /\ modest (exponent x).

Definition field_numeric (d : list (pystr * pyval)) (key : string) : Prop :=
  match lookup (ustr key) d with
  | None => True
  | Some v => numeric v
  end.

(** Values the generator of the HSN check can go through: a string, an
    object (it gives its keys) or a list of strings. *)
Definition iterable_of_strings (v : pyval) : Prop :=
  match v with
  | VStr _ => True
  | VDict _ => True
  | VList l => Forall (fun x => exists s, x = VStr s) l
  | _ => False
  end.

(** The HSN code is missing, falsy, or something the digit check can go
    through. *)
Definition hsn_checkable (d : list (pystr * pyval)) : Prop :=
  match lookup (ustr "hsn") d with
  | None => True
  | Some v => truthy v = false \/ iterable_of_strings v
  end.

(** An item the view can work with: an object whose quantity, rate and
    tax rate can be read as numbers and whose HSN code can be checked. *)
Definition workable (it : pyval) : Prop :=
  exists d, it = VDict d /\ field_numeric d "qty" /\ field_numeric d "rate" /\
            field_numeric d "tax_rate" /\ hsn_checkable d.

Local Open Scope Q_scope.

(** What the line of an item can come to, from the numbers the view
    reads in it. *)
Definition item_gross (it : pyval) : Q :=
  match field it "qty" 1, field it "rate" 0, field it "tax_rate" 0 with
  | Ok q, Ok r, Ok p => gross q r p
  | _, _, _ => 0
  end.

Fixpoint items_gross (its : list pyval) : Q :=
  match its with
  | [] => 0
  | it :: its' => item_gross it + items_gross its'
  end.

Local Close Scope Q_scope.

(** The exponent at which magnitudes are compared as natural numbers:
    every exponent the view meets on modest inputs is above [- scale]. *)
Definition scale : Z := 1000000.

(** * Stored invoices and items used as examples *)

(** The Arabic-Indic digits two and seven, a state prefix that
    [str.isdigit] accepts. *)
Definition arabic_27 : pystr := [1634; 1639]%N.

(** Four Arabic-Indic digits. *)
Definition arabic_1234 : pystr := [1633; 1634; 1635; 1636]%N.

(** A stored invoice without customer, whose JSON carries a buyer GSTIN
    surrounded by blanks and no items. *)
Definition stored_b2b : Stored :=
  {| business_gst := Some (ustr "27AAAA0000A1Z5");
     invoice_customer := None;
     invoice_json :=
       Some (VDict [(ustr "customer_gst", VStr (ustr " 27BBBB1111B1Z6 "))]) |}.

(** The line of the specification's example: two units at 100 with 18
    percent tax and a four digit HSN code. *)
Definition item_example : pyval :=
  VDict [(ustr "qty", VInt 2); (ustr "rate", VInt 100);
         (ustr "tax_rate", VInt 18); (ustr "hsn", VStr (ustr "1234"))].

Definition line_example : LineBreakdown :=
  {| description := VStr []; qty := Fin false 2 0; rate := Fin false 100 0;
     tax_percent := Fin false 18 0; taxable_value := Fin false 20000 (-2);
     tax_value := Fin false 3600 (-2); cgst := Fin false 1800 (-2);
     sgst := Fin false 1800 (-2); igst := zero_00;
     hsn := VStr (ustr "1234"); hsn_warning := true; hsn_recommended := 6 |}.

Definition totals_example : Totals :=
  {| total_taxable := Fin false 20000 (-2); total_tax := Fin false 3600 (-2);
     total_cgst := Fin false 1800 (-2); total_sgst := Fin false 1800 (-2);
     total_igst := zero_00 |}.

(** The stored invoice of the specification's example. *)
Definition stored_example : Stored :=
  {| business_gst := Some (ustr "27AAAA0000A1Z5");
     invoice_customer := Some (Some (ustr "27BBBB1111B1Z6"));
     invoice_json := Some (VDict [(ustr "invoice_items", VList [item_example])])
  |}.

Definition context_example : Context :=
  {| breakdown := [line_example]; totals := totals_example;
     grand_total := Fin false 23600 (-2);
     seller_gst := ustr "27AAAA0000A1Z5"; buyer_gst := ustr "27BBBB1111B1Z6";
     invoice_type := B2B; tax_mode := INTRA; words_of := Some 236%Z |}.

(** An item without quantity (hence 1) and with a rate of thirty
    significant digits just below 1.005. *)
Definition item_long_rate : pyval :=
  VDict [(ustr "rate", VStr (ustr "1.00499999999999999999999999996"))].

(** An item taxed at 100 percent on an amount of twenty-eight digits
    with an odd number of cents. *)
Definition item_huge_tax : pyval :=
  VDict [(ustr "rate", VStr (ustr "20000000000000000000000000.01"));
         (ustr "tax_rate", VInt 100)].

(** An item of almost [10^26] with a tax of minus 100 percent, and a
    stored invoice with two of them. *)
Definition item_max : pyval :=
  VDict [(ustr "rate", VStr (ustr "99999999999999999999999999.99"));
         (ustr "tax_rate", VInt (-100))].

Definition stored_two_max : Stored :=
  {| business_gst := None;
     invoice_customer := None;
     invoice_json := Some (VDict [(ustr "items", VList [item_max; item_max])])
  |}.

(** A stored quantity of 0 at a rate of 100. *)
Definition fields_qty_zero : list (pystr * pyval) :=
  [(ustr "qty", VInt 0); (ustr "rate", VInt 100)].

(** A stored quantity of 0 at a rate of thirty digits, just below
    1.005. *)
Definition fields_qty_zero_long_rate : list (pystr * pyval) :=
  [(ustr "qty", VInt 0);
   (ustr "rate", VStr (ustr "1.00499999999999999999999999996"))].

(** A line whose quantity is a string that is not a number. *)
Definition item_bad_qty : pyval :=
  VDict [(ustr "qty", VStr (ustr "abc")); (ustr "rate", VInt 100)].

(** An item with a null quantity, no tax rate and a rate given as a
    string with decimals. *)
Definition fields_null_qty : list (pystr * pyval) :=
  [(ustr "qty", VNone); (ustr "rate", VStr (ustr "99.50"));
   (ustr "hsn", VStr (ustr "8471"))].

(** A stored invoice whose only line writes the rate with a decimal
    comma. *)
Definition stored_decimal_comma : Stored :=
  {| business_gst := Some (ustr "27AAAA0000A1Z5");
     invoice_customer := Some (Some (ustr "27BBBB1111B1Z6"));
     invoice_json :=
       Some (VDict [(ustr "items",
                     VList [VDict [(ustr "qty", VInt 2);
                                   (ustr "rate", VStr (ustr "12,50"))]])]) |}.

(** An item whose quantity is written with an exponent and whose rate has
    eight digits. *)
Definition fields_large : list (pystr * pyval) :=
  [(ustr "description", VStr (ustr "Server rack"));
   (ustr "qty", VStr (ustr "1e3"));
   (ustr "rate", VStr (ustr "150000.00"));
   (ustr "tax_rate", VInt 18);
   (ustr "hsn", VStr (ustr "847330"))].

(** A stored invoice with that item and one with a null quantity. *)
Definition stored_large : Stored :=
  {| business_gst := Some (ustr "27AAAA0000A1Z5");
     invoice_customer := Some (Some (ustr "29BBBB1111B1Z6"));
     invoice_json :=
       Some (VDict [(ustr "items",
                     VList [VDict fields_large; VDict fields_null_qty])]) |}.

(** An item of [10^26] rupees. *)
Definition item_beyond_reach : pyval :=
  VDict [(ustr "qty", VStr (ustr "1e26")); (ustr "rate", VInt 1)].

(** * The default invoice number

    [invoice_create] proposes a number for the next invoice from the
    largest number among the user's invoices. *)

(** [aggregate(Max('invoice_number'))['invoice_number__max']] over the
    invoice numbers of the user: the largest one, [None] when the user has
    no invoice. *)
Definition invoice_number_max (numbers : list Z) : option Z :=
  match numbers with
  | [] => None
  | n :: numbers' => Some (fold_left Z.max numbers' n)
  end.

(** [(last_no + 1) if last_no else 1] *)
Definition default_invoice_number (last_no : option Z) : Z :=
  match last_no with
  | Some n => if n =? 0 then 1 else n + 1
  | None => 1
  end.

(** * What an entry of the breakdown was read from *)

(** The entry [b] carries what the loop body reads from the item [it]:
    the description and the HSN code (or the empty string), the three
    numbers, and the recommended length of the invoice type. *)
Definition entry_of (ty : invoice_type_t) (it : pyval) (b : LineBreakdown)
  : Prop :=
  (exists d, it = VDict d) /\
  (exists v, get it "description" = Ok v /\ description b = py_or v (VStr [])) /\
  field it "qty" 1 = Ok (qty b) /\
  field it "rate" 0 = Ok (rate b) /\
  field it "tax_rate" 0 = Ok (tax_percent b) /\
  (exists h, get it "hsn" = Ok h /\ hsn b = py_or h (VStr [])) /\
  hsn_recommended b = recommended_digits ty.

(** An amount with two decimals, or a quiet NaN. *)
Definition money_or_nan (d : Decimal) : Prop :=
  money d \/ exists s p, d = NaN s p false.

Definition is_zero (d : Decimal) : Prop :=
  match d with
  | Fin _ c _ => c = 0%N
  | _ => False
  end.

Definition is_dict (v : pyval) : bool :=
  match v with
  | VDict _ => true
  | _ => false
  end.

(** The sign of a decimal. *)
Definition sign_of (d : Decimal) : bool :=
  match d with
  | Fin s _ _ => s
  | Inf s => s
  | NaN s _ _ => s
  end.

(** * Invoices without lines *)

(** What the view returns when there is no item to go through. *)
Definition empty_context (seller buyer : pystr) : Context :=
  {| breakdown := []; totals := zero_totals; grand_total := zero_00;
     seller_gst := seller; buyer_gst := buyer;
     invoice_type := invoice_type_of buyer;
     tax_mode := tax_mode_of seller buyer; words_of := Some 0 |}.

(** The buyer GSTIN when the stored JSON holds none. *)
Definition customer_gst_of (st : Stored) : pystr :=
  match invoice_customer st with
  | Some (Some (c :: g)) => strip (c :: g)
  | _ => []
  end.

(** What goes wrong when the loop is given something else than a list:
    a scalar cannot be iterated over; a string gives its characters and an
    object its keys, none of which has a [get] method. *)
Definition items_failure (items : pyval) : option exn :=
  match items with
  | VList _ => None
  | VStr [] => None
  | VDict [] => None
  | VStr _ => Some AttributeError
  | VDict _ => Some AttributeError
  | _ => Some TypeError
  end.

(** * Special values *)

Definition is_inf (d : Decimal) : Prop :=
  match d with
  | Inf _ => True
  | _ => False
  end.

Definition is_nan (d : Decimal) : Prop :=
  match d with
  | NaN _ _ _ => True
  | _ => False
  end.

Definition signaling (d : Decimal) : Prop :=
  match d with
  | NaN _ _ true => True
  | _ => False
  end.

Definition quiet_nan (d : Decimal) : Prop :=
  match d with
  | NaN _ _ false => True
  | _ => False
  end.

(** A number or a boolean: a JSON value that is neither null, nor a
    string, nor a container. *)
Definition scalar (v : pyval) : bool :=
  match v with
  | VBool _ => true
  | VInt _ => true
  | VFloat _ => true
  | _ => false
  end.

(** * Floats *)

(** Characters that [Decimal] takes as they are: ASCII, not white space,
    not an underscore. *)
Definition plain_char (c : N) : bool :=
  ((0 <? c) && (c <=? 127) && negb (c =? 95))%N && negb (char_isspace c).

(** The decimal that [repr] of a float writes: its digits at the exponent
    that puts the decimal point where it belongs, or, for a whole number
    written with [.0], the whole number in tenths. *)
Definition float_decimal (neg : bool) (digits : N) (decpt : Z) : Decimal :=
  let n := Z.of_nat (List.length (str_N digits)) in
  if (n <=? decpt) && (decpt <=? 16)
  then Fin neg (digits * pow10 (decpt - n + 1)) (-1)
  else Fin neg digits (decpt - n).

(** * A B2C invoice used as an example *)

(** A stored invoice whose customer has a GSTIN of two blanks, while the
    JSON carries a buyer GSTIN; one line, that of the specification's
    example. *)
Definition stored_blank_customer : Stored :=
  {| business_gst := Some (ustr "27AAAA0000A1Z5");
     invoice_customer := Some (Some (ustr "  "));
     invoice_json :=
       Some (VDict [(ustr "customer_gst", VStr (ustr "27BBBB1111B1Z6"));
                    (ustr "items", VList [item_example])]) |}.

Definition line_inter_example : LineBreakdown :=
  {| description := VStr []; qty := Fin false 2 0; rate := Fin false 100 0;
     tax_percent := Fin false 18 0; taxable_value := Fin false 20000 (-2);
     tax_value := Fin false 3600 (-2); cgst := zero_00; sgst := zero_00;
     igst := Fin false 3600 (-2);
     hsn := VStr (ustr "1234"); hsn_warning := false; hsn_recommended := 4 |}.

Definition context_blank_customer : Context :=
  {| breakdown := [line_inter_example];
     totals := {| total_taxable := Fin false 20000 (-2);
                  total_tax := Fin false 3600 (-2);
                  total_cgst := zero_00; total_sgst := zero_00;
                  total_igst := Fin false 3600 (-2) |};
     grand_total := Fin false 23600 (-2);
     seller_gst := ustr "27AAAA0000A1Z5"; buyer_gst := [];
     invoice_type := B2C; tax_mode := INTER; words_of := Some 236%Z |}.

(** * Exceptions *)

(** The exceptions that get out of the view. *)
Definition escapes (e : exn) : Prop :=
  e = AttributeError \/ e = TypeError \/ e = InvalidOperation \/ e = Overflow.

(** A stored invoice with a line whose amount is beyond the largest
    exponent of the context. *)
Definition stored_overflow : Stored :=
  {| business_gst := None; invoice_customer := None;
     invoice_json :=
       Some (VDict [(ustr "items",
                     VList [VDict [(ustr "qty", VStr (ustr "1e999999"));
                                   (ustr "rate", VInt 10)]])]) |}.

(** * Properties *)

(** ** Powers of ten and digit counts *)

Lemma pow10_pos (k : Z) : (0 < pow10 k)%N.
Proof.
  unfold pow10. apply N.neq_0_lt_0, N.pow_nonzero. discriminate.
Qed.

Lemma pow10_0 : pow10 0 = 1%N.
Proof. reflexivity. Qed.

Lemma pow10_neg (k : Z) : k <= 0 -> pow10 k = 1%N.
Proof.
  intros H. unfold pow10. replace (Z.to_N k) with 0%N by lia. reflexivity.
Qed.

Lemma pow10_add (a b : Z) :
  0 <= a -> 0 <= b -> pow10 (a + b) = (pow10 a * pow10 b)%N.
Proof.
  intros Ha Hb. unfold pow10. rewrite Z2N.inj_add by assumption.
  apply N.pow_add_r.
Qed.

Lemma pow10_succ (k : Z) : 0 <= k -> pow10 (k + 1) = (10 * pow10 k)%N.
Proof.
  intros Hk. rewrite pow10_add by lia. change (pow10 1) with 10%N. lia.
Qed.

Lemma pow10_le (a b : Z) : a <= b -> (pow10 a <= pow10 b)%N.
Proof.
  intros H. unfold pow10. apply N.pow_le_mono_r; [discriminate | lia].
Qed.

Lemma pow10_lt (a b : Z) : 0 <= a -> a < b -> (pow10 a < pow10 b)%N.
Proof.
  intros Ha H. unfold pow10. apply N.pow_lt_mono_r; lia.
Qed.

Lemma pow10_lt_inv (a b : Z) : (pow10 a < pow10 b)%N -> a < b.
Proof.
  intros H. destruct (Z_lt_le_dec a b) as [|Hle]; [assumption|].
  apply pow10_le in Hle. lia.
Qed.

Lemma ndigits_fuel_spec (fuel : nat) :
  forall c : N, (c < 2 ^ N.of_nat fuel)%N -> c <> 0%N ->
    1 <= ndigits_fuel fuel c /\
    (pow10 (ndigits_fuel fuel c - 1) <= c < pow10 (ndigits_fuel fuel c))%N.
Proof.
  induction fuel as [|fuel IH]; intros c Hc Hnz.
  - simpl in Hc. lia.
  - cbn [ndigits_fuel]. destruct (N.ltb_spec c 10) as [Hlt|Hge].
    + split; [lia|]. change (pow10 (1 - 1)) with 1%N.
      change (pow10 1) with 10%N. lia.
    + assert (Hdiv : (c / 10 < 2 ^ N.of_nat fuel)%N).
      { rewrite Nat2N.inj_succ, N.pow_succ_r' in Hc.
        apply N.Div0.div_lt_upper_bound. lia. }
      assert (Hnz' : (c / 10 <> 0)%N).
      { intros E. apply N.div_small_iff in E; lia. }
      destruct (IH _ Hdiv Hnz') as [H1 [Hlo Hhi]].
      set (n := ndigits_fuel fuel (c / 10)) in *. clearbody n.
      split; [lia|].
      replace (1 + n - 1) with ((n - 1) + 1) by lia.
      replace (1 + n) with (n + 1) by lia.
      rewrite !pow10_succ by lia.
      pose proof (N.Div0.div_mod c 10) as E.
      pose proof (N.mod_upper_bound c 10 ltac:(discriminate)).
      generalize dependent (c mod 10)%N. generalize dependent (c / 10)%N.
      generalize (pow10 (n - 1)) (pow10 n). intros; lia.
Qed.

Lemma ndigits_spec (c : N) :
  c <> 0%N ->
  1 <= ndigits c /\ (pow10 (ndigits c - 1) <= c < pow10 (ndigits c))%N.
Proof.
  intros Hnz. apply ndigits_fuel_spec; [|assumption].
  rewrite N2Nat.id. apply N.size_gt.
Qed.

Lemma ndigits_zero : ndigits 0 = 1.
Proof. reflexivity. Qed.

Lemma ndigits_pos (c : N) : 1 <= ndigits c.
Proof.
  destruct (N.eq_dec c 0) as [->|Hnz]; [rewrite ndigits_zero; lia|].
  apply ndigits_spec; assumption.
Qed.

(** A coefficient below [10^k] has at most [k] digits. *)
Lemma ndigits_le (c : N) (k : Z) :
  1 <= k -> (c < pow10 k)%N -> ndigits c <= k.
Proof.
  intros Hk Hc. destruct (N.eq_dec c 0) as [->|Hnz].
  - rewrite ndigits_zero. lia.
  - destruct (ndigits_spec c Hnz) as [H1 [Hlo _]].
    assert (pow10 (ndigits c - 1) < pow10 k)%N by lia.
    apply pow10_lt_inv in H. lia.
Qed.

(** A coefficient with at most [k] digits is below [10^k]. *)
Lemma ndigits_bound (c : N) (k : Z) : ndigits c <= k -> (c < pow10 k)%N.
Proof.
  intros H. destruct (N.eq_dec c 0) as [->|Hnz]; [apply pow10_pos|].
  destruct (ndigits_spec c Hnz) as [_ [_ Hhi]].
  pose proof (pow10_le _ _ H). lia.
Qed.

(** ** Operations that stay within the precision *)

Ltac unfold_ctx := unfold adjusted, Etop, Etiny, Emax, Emin, prec in *.

(** A coefficient of at most 28 digits with an exponent inside the
    context is left alone by [_fix]. *)
Lemma fix_id (s : bool) (c : N) (e : Z) :
  (c < pow10 28)%N -> Etiny <= e <= Etop ->
  fix_ (Fin s c e) = Ok (Fin s c e).
Proof.
  intros Hc He. unfold fix_.
  destruct (N.eqb_spec c 0) as [->|Hnz].
  - unfold_ctx. f_equal. f_equal. lia.
  - pose proof (ndigits_le c 28 ltac:(lia) Hc) as Hn.
    unfold_ctx.
    destruct (Z.ltb_spec (999999 - 28 + 1) (ndigits c + e - 28)); [lia|].
    destruct (Z.ltb_spec (ndigits c + e - 28) (-999999 - 28 + 1)).
    + destruct (Z.ltb_spec e (-999999 - 28 + 1)); [lia|reflexivity].
    + destruct (Z.ltb_spec e (ndigits c + e - 28)); [lia|reflexivity].
Qed.

Lemma mul_Fin (sa sb : bool) (ca cb : N) (ea eb : Z) :
  mul (Fin sa ca ea) (Fin sb cb eb)
  = fix_ (Fin (xorb sa sb) (ca * cb)%N (ea + eb)).
Proof. reflexivity. Qed.

Lemma round_half_up_coeff (c : N) (k : Z) :
  1 <= k ->
  (c / pow10 k + (if round_up ROUND_HALF_UP c k then 1 else 0)
   = (2 * c + pow10 k) / (2 * pow10 k))%N.
Proof.
  intros Hk.
  assert (E10 : pow10 k = (10 * pow10 (k - 1))%N).
  { replace k with ((k - 1) + 1) at 1 by lia. apply pow10_succ. lia. }
  unfold round_up. rewrite E10.
  pose proof (pow10_pos (k - 1)) as Hp.
  set (h := pow10 (k - 1)) in *. clearbody h.
  pose proof (N.Div0.div_mod c (10 * h)) as E.
  pose proof (N.mod_upper_bound c (10 * h) ltac:(lia)) as Hr.
  set (q := (c / (10 * h))%N) in *. set (r := (c mod (10 * h))%N) in *.
  clearbody q r.
  destruct (N.leb_spec (5 * h) r) as [Hup|Hdown].
  - apply N.div_unique with (r := (2 * r - 10 * h)%N); nia.
  - apply N.div_unique with (r := (2 * r + 10 * h)%N); nia.
Qed.

Lemma rescale_half_up (c : N) (x : Z) :
  rescale c x (-2) ROUND_HALF_UP = half_up_cents c x.
Proof.
  unfold rescale, half_up_cents.
  destruct (N.eqb_spec c 0) as [->|Hnz].
  - destruct (Z.leb_spec (-2) x); [reflexivity|].
    symmetry. apply N.div_small. pose proof (pow10_pos (-2 - x)). lia.
  - destruct (Z.leb_spec (-2) x) as [Hx|Hx].
    + replace (x - -2) with (x + 2) by lia. reflexivity.
    + unfold round_coeff.
      destruct (ndigits_spec c Hnz) as [Hn1 [Hlo Hhi]].
      destruct (Z.ltb_spec (ndigits c + x - -2) 0) as [Hd|Hd].
      * change (ndigits 1 - 0) with 1. cbn [round_up].
        change ((1 / pow10 1)%N) with 0%N.
        change ((1 mod pow10 1)%N) with 1%N.
        change ((5 * pow10 (1 - 1) <=? 1)%N) with false. cbv beta iota zeta.
        symmetry. apply N.div_small.
        assert (Hle : (pow10 (ndigits c) <= pow10 (-2 - x - 1))%N)
          by (apply pow10_le; lia).
        replace (-2 - x) with ((-2 - x - 1) + 1) by lia.
        rewrite pow10_succ by lia. lia.
      * replace (ndigits c - (ndigits c + x - -2)) with (-2 - x) by lia.
        destruct (round_up ROUND_HALF_UP c (-2 - x)) eqn:Hr;
          rewrite <- round_half_up_coeff by lia; rewrite Hr; lia.
Qed.

(** Bringing a finite value to two decimals succeeds whenever the result
    has at most 28 digits. *)
Lemma quantize_cent (s : bool) (c : N) (x : Z) :
  x <= Emax ->
  (half_up_cents c x < pow10 28)%N ->
  quantize (Fin s c x) cent ROUND_HALF_UP
  = Ok (Fin s (half_up_cents c x) (-2)).
Proof.
  intros Hx Hb. unfold quantize, cent. cbn [check_nans].
  change (negb ((Etiny <=? -2) && (-2 <=? Emax))) with false. cbv iota.
  destruct (N.eqb_spec c 0) as [->|Hnz].
  - replace (half_up_cents 0 x) with 0%N.
    + apply fix_id; [apply pow10_pos | unfold_ctx; lia].
    + unfold half_up_cents. destruct (-2 <=? x); [reflexivity|].
      symmetry. apply N.div_small. pose proof (pow10_pos (-2 - x)). lia.
  - destruct (ndigits_spec c Hnz) as [Hn1 [Hlo Hhi]].
    assert (Hfit : ndigits c + x + 2 <= 28).
    { unfold half_up_cents in Hb.
      destruct (Z.leb_spec (-2) x) as [Hx2|Hx2].
      - assert (Hlt : (pow10 (ndigits c - 1 + (x + 2)) < pow10 28)%N).
        { rewrite pow10_add by lia.
          pose proof (pow10_pos (x + 2)). nia. }
        apply pow10_lt_inv in Hlt. lia.
      - pose proof (pow10_pos (-2 - x)) as Hp.
        assert (Hc : (c < pow10 28 * pow10 (-2 - x))%N).
        { pose proof (N.Div0.div_mod (2 * c + pow10 (-2 - x))
                        (2 * pow10 (-2 - x))) as E.
          pose proof (N.mod_upper_bound (2 * c + pow10 (-2 - x))
                        (2 * pow10 (-2 - x)) ltac:(lia)) as Hr.
          generalize dependent ((2 * c + pow10 (-2 - x))
                                  mod (2 * pow10 (-2 - x)))%N.
          generalize dependent ((2 * c + pow10 (-2 - x))
                                  / (2 * pow10 (-2 - x)))%N.
          intros; nia. }
        rewrite <- pow10_add in Hc by lia.
        assert (Hlt : (pow10 (ndigits c - 1) < pow10 (28 + (-2 - x)))%N) by lia.
        apply pow10_lt_inv in Hlt. lia. }
    rewrite rescale_half_up.
    pose proof (ndigits_le _ 28 ltac:(lia) Hb) as Hn'.
    pose proof (ndigits_pos (half_up_cents c x)) as Hn''.
    unfold_ctx.
    destruct (Z.ltb_spec 999999 (x + ndigits c - 1)); [lia|].
    destruct (Z.ltb_spec 28 (x + ndigits c - 1 - -2 + 1)); [lia|].
    destruct (Z.ltb_spec 999999 (-2 + ndigits (half_up_cents c x) - 1)); [lia|].
    destruct (Z.ltb_spec 28 (ndigits (half_up_cents c x))); [lia|].
    apply fix_id; [assumption | unfold_ctx; lia].
Qed.

(** ** Exact quotients *)

Lemma strip_zeros_pow (m : nat) :
  forall (n : nat) (c : N) (x : Z),
    (m <= n)%nat ->
    strip_zeros n (c * pow10 (Z.of_nat m))%N x
    = strip_zeros (n - m) c (x + Z.of_nat m).
Proof.
  induction m as [|m IH]; intros n c x Hle.
  - change (Z.of_nat 0) with 0.
    rewrite pow10_0, N.mul_1_r, Nat.sub_0_r, Z.add_0_r. reflexivity.
  - destruct n as [|n]; [lia|].
    rewrite Nat2Z.inj_succ. unfold Z.succ. rewrite pow10_succ by lia.
    cbn [strip_zeros].
    replace (c * (10 * pow10 (Z.of_nat m)))%N
      with (c * pow10 (Z.of_nat m) * 10)%N by lia.
    rewrite N.Div0.mod_mul, N.div_mul by discriminate.
    cbn [N.eqb]. rewrite IH by lia.
    replace (S n - S m)%nat with (n - m)%nat by lia.
    f_equal. lia.
Qed.

(** What the loop returns denotes the same number, with a coefficient
    that is no larger and an exponent no further than [n] away. *)
Lemma strip_zeros_spec (n : nat) :
  forall (c : N) (x : Z),
    let (c', x') := strip_zeros n c x in
    c = (c' * pow10 (x' - x))%N /\ x <= x' <= x + Z.of_nat n.
Proof.
  induction n as [|n IH]; intros c x.
  - cbn [strip_zeros]. rewrite Z.sub_diag, pow10_0. lia.
  - cbn [strip_zeros]. destruct (N.eqb_spec (c mod 10) 0) as [Hz|Hnz].
    + specialize (IH (c / 10)%N (x + 1)).
      destruct (strip_zeros n (c / 10)%N (x + 1)) as [c' x'].
      destruct IH as [E Hx]. split; [|lia].
      replace (x' - x) with ((x' - (x + 1)) + 1) by lia.
      rewrite pow10_succ by lia.
      pose proof (N.Div0.div_mod c 10) as D. rewrite Hz in D. lia.
    + rewrite Z.sub_diag, pow10_0. lia.
Qed.

Lemma strip_zeros_le (n : nat) (c : N) (x : Z) :
  (fst (strip_zeros n c x) <= c)%N.
Proof.
  pose proof (strip_zeros_spec n c x) as H.
  destruct (strip_zeros n c x) as [c' x']. destruct H as [E _]. cbn [fst].
  pose proof (pow10_pos (x' - x)). nia.
Qed.

Lemma ndigits_hundred : ndigits 100 = 3.
Proof. reflexivity. Qed.

Lemma ndigits_two : ndigits 2 = 1.
Proof. reflexivity. Qed.

(** Dividing by [Decimal("100")] moves the exponent by two, as far as
    the trailing zeros of the coefficient go; nothing is rounded. *)
Lemma truediv_hundred (s : bool) (c : N) (e : Z) :
  (c < pow10 28)%N -> Etiny + 2 <= e <= Etop ->
  truediv (Fin s c e) hundred
  = Ok (Fin s (fst (strip_zeros 2 c (e - 2))) (snd (strip_zeros 2 c (e - 2)))).
Proof.
  intros Hc He. unfold truediv, hundred. cbn [check_nans]. cbn [N.eqb].
  rewrite xorb_false_r.
  destruct (N.eqb_spec c 0) as [->|Hnz].
  - cbn [strip_zeros]. change ((0 mod 10 =? 0)%N) with true. cbv iota.
    change ((0 / 10)%N) with 0%N. change ((0 mod 10 =? 0)%N) with true.
    cbv iota. cbn [fst snd].
    replace (e - 2 + 1 + 1) with (e - 0) by lia.
    apply fix_id; [apply pow10_pos | unfold_ctx; lia].
  - rewrite ndigits_hundred.
    pose proof (ndigits_le c 28 ltac:(lia) Hc) as Hn.
    pose proof (ndigits_pos c) as Hn1.
    set (shift := 3 - ndigits c + prec + 1).
    assert (Hs : 4 <= shift) by (unfold shift, prec; lia).
    destruct (Z.leb_spec 0 shift) as [_|]; [|lia].
    assert (Ep : pow10 shift = (pow10 (shift - 2) * 100)%N).
    { replace shift with ((shift - 2) + 2) at 1 by lia.
      rewrite pow10_add by lia. reflexivity. }
    rewrite Ep, N.mul_assoc, N.Div0.mod_mul, N.div_mul by discriminate.
    cbn [N.eqb].
    replace (Z.to_nat (e - 0 - (e - 0 - shift))) with (Z.to_nat shift) by lia.
    replace (pow10 (shift - 2)) with (pow10 (Z.of_nat (Z.to_nat (shift - 2))))
      by (f_equal; lia).
    rewrite strip_zeros_pow by lia.
    replace (Z.to_nat shift - Z.to_nat (shift - 2))%nat with 2%nat by lia.
    replace (e - 0 - shift + Z.of_nat (Z.to_nat (shift - 2))) with (e - 2)
      by lia.
    pose proof (strip_zeros_spec 2 c (e - 2)) as Hsp.
    pose proof (strip_zeros_le 2 c (e - 2)) as Hle.
    destruct (strip_zeros 2 c (e - 2)) as [c' e']. cbn [fst snd] in *.
    apply fix_id; [lia | unfold_ctx; lia].
Qed.

(** Halving multiplies the coefficient by five one decimal further out,
    or halves it in place when it is even. *)
Lemma truediv_two (s : bool) (c : N) (e : Z) :
  (5 * c < pow10 28)%N -> Etiny + 1 <= e <= Etop ->
  truediv (Fin s c e) (Decimal_of_int 2)
  = Ok (Fin s (fst (strip_zeros 1 (5 * c) (e - 1)))
              (snd (strip_zeros 1 (5 * c) (e - 1)))).
Proof.
  intros Hc He. unfold truediv, Decimal_of_int.
  change (2 <? 0) with false. change (Z.to_N (Z.abs 2)) with 2%N.
  cbn [check_nans]. cbn [N.eqb]. rewrite xorb_false_r.
  destruct (N.eqb_spec c 0) as [->|Hnz].
  - cbn [strip_zeros]. change ((5 * 0)%N) with 0%N.
    change ((0 mod 10 =? 0)%N) with true. cbv iota. cbn [fst snd].
    replace (e - 1 + 1) with (e - 0) by lia.
    apply fix_id; [apply pow10_pos | unfold_ctx; lia].
  - rewrite ndigits_two.
    assert (Hc' : (c < pow10 28)%N) by lia.
    pose proof (ndigits_le c 28 ltac:(lia) Hc') as Hn.
    pose proof (ndigits_pos c) as Hn1.
    set (shift := 1 - ndigits c + prec + 1).
    assert (Hs : 2 <= shift) by (unfold shift, prec; lia).
    destruct (Z.leb_spec 0 shift) as [_|]; [|lia].
    assert (Ep : (c * pow10 shift = 5 * c * pow10 (shift - 1) * 2)%N).
    { replace shift with ((shift - 1) + 1) at 1 by lia.
      rewrite pow10_succ by lia. lia. }
    rewrite Ep, N.Div0.mod_mul, N.div_mul by discriminate.
    cbn [N.eqb].
    replace (Z.to_nat (e - 0 - (e - 0 - shift))) with (Z.to_nat shift) by lia.
    replace (pow10 (shift - 1)) with (pow10 (Z.of_nat (Z.to_nat (shift - 1))))
      by (f_equal; lia).
    rewrite strip_zeros_pow by lia.
    replace (Z.to_nat shift - Z.to_nat (shift - 1))%nat with 1%nat by lia.
    replace (e - 0 - shift + Z.of_nat (Z.to_nat (shift - 1))) with (e - 1)
      by lia.
    pose proof (strip_zeros_spec 1 (5 * c) (e - 1)) as Hsp.
    pose proof (strip_zeros_le 1 (5 * c) (e - 1)) as Hle.
    destruct (strip_zeros 1 (5 * c)%N (e - 1)) as [c' e']. cbn [fst snd] in *.
    apply fix_id; [lia | unfold_ctx; lia].
Qed.

(** ** Amounts of money *)

Lemma pow10_28 : pow10 28 = 10000000000000000000000000000%N.
Proof. reflexivity. Qed.

Lemma money_zero_00 : money zero_00.
Proof. split; [reflexivity | apply pow10_pos]. Qed.

Lemma cents_bound (d : Decimal) : money d -> Z.abs (cents d) < 10 ^ 28.
Proof.
  destruct d as [s c e| |]; cbn [money cents]; try tauto. intros [_ Hc].
  rewrite pow10_28 in Hc. destruct s; lia.
Qed.

(** Adding two amounts is exact as long as the sum keeps 28 digits. *)
Lemma add_money (a b : Decimal) :
  money a -> money b -> Z.abs (cents a + cents b) < 10 ^ 28 ->
  exists d, add a b = Ok d /\ money d /\ cents d = cents a + cents b.
Proof.
  destruct a as [sa ca ea| |], b as [sb cb eb| |]; cbn [money]; try tauto.
  intros [-> Ha] [-> Hb] Hsum. cbn [cents] in Hsum.
  unfold add. cbn [check_nans].
  change (Z.min (-2) (-2)) with (-2). change (pow10 (-2 - -2)) with 1%N.
  rewrite !N.mul_1_r.
  set (sum := (if sa then - Z.of_N ca else Z.of_N ca)
              + (if sb then - Z.of_N cb else Z.of_N cb)) in *.
  set (sign := if sum =? 0
               then if (ca =? 0)%N && (cb =? 0)%N then sa && sb else false
               else sum <? 0).
  exists (Fin sign (Z.to_N (Z.abs sum)) (-2)).
  assert (Hlt : (Z.to_N (Z.abs sum) < pow10 28)%N) by (rewrite pow10_28; lia).
  split; [apply fix_id; [assumption | unfold_ctx; lia]|].
  split; [split; [reflexivity | assumption]|].
  cbn [cents]. subst sign.
  destruct (Z.eqb_spec sum 0) as [E|E].
  - destruct (if (ca =? 0)%N && (cb =? 0)%N then sa && sb else false); lia.
  - destruct (Z.ltb_spec sum 0); lia.
Qed.

(** ** The numbers that decimals denote *)

Local Open Scope Q_scope.

#[export] Instance round_half_up_2_comp : Proper (Qeq ==> Qeq) round_half_up_2.
Proof.
  intros q q' E. unfold round_half_up_2.
  assert (Ef : Qfloor (Qabs q * 100 + (1 # 2))
               = Qfloor (Qabs q' * 100 + (1 # 2))) by (rewrite E; reflexivity).
  assert (Ec : (q ?= 0) = (q' ?= 0)) by (rewrite E; reflexivity).
  cbv zeta. rewrite Ef, Ec. reflexivity.
Qed.

Lemma ten_nonzero : ~ 10 == 0.
Proof. discriminate. Qed.

Lemma pow10_inject (k : Z) :
  (0 <= k)%Z -> inject_Z (Z.of_N (pow10 k)) == 10 ^ k.
Proof.
  intros Hk. unfold pow10. rewrite N2Z.inj_pow, Z2N.id by assumption.
  apply (Zpower_Qpower 10 k Hk).
Qed.

Lemma Qpow10_pos (e : Z) : 0 < 10 ^ e.
Proof. apply Qpower_0_lt. reflexivity. Qed.

Lemma value_mul (sa sb : bool) (ca cb : N) (ea eb : Z) :
  value (Fin (xorb sa sb) (ca * cb)%N (ea + eb))
  == value (Fin sa ca ea) * value (Fin sb cb eb).
Proof.
  cbn [value]. rewrite N2Z.inj_mul, inject_Z_mult.
  rewrite Qpower_plus by apply ten_nonzero.
  destruct sa, sb; cbn [xorb]; ring.
Qed.

(** A coefficient and its sign give the size and the direction. *)
Lemma value_abs (s : bool) (c : N) (e : Z) :
  Qabs (value (Fin s c e)) == inject_Z (Z.of_N c) * 10 ^ e.
Proof.
  cbn [value]. rewrite !Qabs_Qmult.
  rewrite (Qabs_pos (10 ^ e)) by (apply Qlt_le_weak, Qpow10_pos).
  rewrite (Qabs_pos (inject_Z (Z.of_N c)))
    by (change 0 with (inject_Z 0); rewrite <- Zle_Qle; lia).
  destruct s; [rewrite Qabs_opp|]; rewrite (Qabs_pos 1) by discriminate; ring.
Qed.

Lemma Qfloor_unique (z : Z) (q : Q) :
  inject_Z z <= q -> q < inject_Z (z + 1) -> Qfloor q = z.
Proof.
  intros Hlo Hhi.
  pose proof (Qfloor_le q) as H1. pose proof (Qlt_floor q) as H2.
  assert (A : (Qfloor q < z + 1)%Z).
  { rewrite Zlt_Qlt. eapply Qle_lt_trans; eassumption. }
  assert (B : (z < Qfloor q + 1)%Z).
  { rewrite Zlt_Qlt. eapply Qle_lt_trans; eassumption. }
  lia.
Qed.

Lemma Qpow10_neg (k : Z) :
  (0 <= k)%Z -> 10 ^ (- k) == / inject_Z (Z.of_N (pow10 k)).
Proof.
  intros Hk. rewrite Qpower_opp, pow10_inject by assumption. reflexivity.
Qed.

Lemma inject_pow10_pos (k : Z) : 0 < inject_Z (Z.of_N (pow10 k)).
Proof.
  change 0 with (inject_Z 0). rewrite <- Zlt_Qlt.
  pose proof (pow10_pos k). lia.
Qed.

(** The arithmetic of [half_up_cents] is rounding to the nearest cent. *)
Lemma floor_half_up (c : N) (x : Z) :
  Qfloor (inject_Z (Z.of_N c) * 10 ^ x * 100 + (1 # 2))
  = Z.of_N (half_up_cents c x).
Proof.
  unfold half_up_cents. destruct (Z.leb_spec (-2) x) as [Hx|Hx].
  - assert (E : inject_Z (Z.of_N c) * 10 ^ x * 100
                == inject_Z (Z.of_N (c * pow10 (x + 2)))).
    { rewrite N2Z.inj_mul, inject_Z_mult, pow10_inject by lia.
      rewrite Qpower_plus by apply ten_nonzero.
      change (10 ^ 2) with 100. ring. }
    rewrite E. apply Qfloor_unique.
    + rewrite <- (Qplus_0_r (inject_Z _)) at 1.
      apply Qplus_le_r. discriminate.
    + rewrite inject_Z_plus. apply Qplus_lt_r. reflexivity.
  - set (k := (-2 - x)%Z).
    assert (Hk : (1 <= k)%Z) by (unfold k; lia).
    pose proof (pow10_pos k) as Hp.
    pose proof (inject_pow10_pos k) as HpQ.
    assert (E : inject_Z (Z.of_N c) * 10 ^ x * 100 + (1 # 2)
                == inject_Z (Z.of_N (2 * c + pow10 k))
                   / inject_Z (Z.of_N (2 * pow10 k))).
    { replace x with (- (k + 2))%Z by (unfold k; lia).
      rewrite Qpow10_neg by lia. rewrite pow10_add by lia.
      change (pow10 2) with 100%N.
      rewrite N2Z.inj_add, !N2Z.inj_mul, inject_Z_plus, !inject_Z_mult.
      change (inject_Z (Z.of_N 100)) with 100.
      change (inject_Z (Z.of_N 2)) with 2.
      field. intros H. rewrite H in HpQ. discriminate. }
    rewrite E, N2Z.inj_div.
    set (a := Z.of_N (2 * c + pow10 k)). set (b := Z.of_N (2 * pow10 k)).
    assert (Hb : (0 < b)%Z) by (unfold b; lia).
    assert (HbQ : 0 < inject_Z b)
      by (change 0 with (inject_Z 0); rewrite <- Zlt_Qlt; assumption).
    pose proof (Z.div_mod a b ltac:(lia)) as D.
    pose proof (Z.mod_pos_bound a b Hb) as M.
    apply Qfloor_unique.
    + apply Qle_shift_div_l; [assumption|].
      rewrite <- inject_Z_mult, <- Zle_Qle. nia.
    + apply Qlt_shift_div_r; [assumption|].
      rewrite <- inject_Z_mult, <- Zlt_Qlt. nia.
Qed.

Lemma value_zero (s : bool) (e : Z) : value (Fin s 0 e) == 0.
Proof. cbn [value]. change (inject_Z (Z.of_N 0)) with 0. ring. Qed.

(** Rounding the number a decimal denotes, as the specification words it,
    gives the number denoted by its coefficient brought to two decimals. *)
Lemma round_half_up_value (s : bool) (c : N) (x : Z) :
  round_half_up_2 (value (Fin s c x))
  == value (Fin s (half_up_cents c x) (-2)).
Proof.
  unfold round_half_up_2. cbv zeta.
  assert (Ef : Qfloor (Qabs (value (Fin s c x)) * 100 + (1 # 2))
               = Z.of_N (half_up_cents c x))
    by (rewrite value_abs; apply floor_half_up).
  rewrite Ef. clear Ef.
  destruct (N.eq_dec c 0) as [->|Hnz].
  - assert (E0 : half_up_cents 0 x = 0%N).
    { unfold half_up_cents. destruct (-2 <=? x)%Z; [reflexivity|].
      apply N.div_small. pose proof (pow10_pos (-2 - x)). lia. }
    rewrite E0, (value_zero s x), (value_zero s (-2)). reflexivity.
  - assert (Hc : 0 < inject_Z (Z.of_N c) * 10 ^ x).
    { apply Qmult_lt_0_compat; [|apply Qpow10_pos].
      change 0 with (inject_Z 0). rewrite <- Zlt_Qlt. lia. }
    destruct s.
    + assert (Hcmp : (value (Fin true c x) ?= 0) = Lt).
      { apply Qlt_alt. cbn [value].
        setoid_replace (- (1) * inject_Z (Z.of_N c) * 10 ^ x)
          with (- (inject_Z (Z.of_N c) * 10 ^ x)) by ring.
        rewrite <- (Qopp_involutive 0).
        apply Qopp_lt_compat. exact Hc. }
      rewrite Hcmp. cbn [value]. change (10 ^ (-2)) with (/ 100).
      rewrite inject_Z_opp. field.
    + assert (Hcmp : (value (Fin false c x) ?= 0) = Gt).
      { apply Qgt_alt. cbn [value].
        setoid_replace (1 * inject_Z (Z.of_N c) * 10 ^ x)
          with (inject_Z (Z.of_N c) * 10 ^ x) by ring.
        exact Hc. }
      rewrite Hcmp. cbn [value]. change (10 ^ (-2)) with (/ 100). field.
Qed.

(** A decimal and one with trailing zeros moved into the exponent denote
    the same number. *)
Lemma value_shift (s : bool) (c c' : N) (e e' : Z) :
  (e <= e')%Z -> c = (c' * pow10 (e' - e))%N ->
  value (Fin s c' e') == value (Fin s c e).
Proof.
  intros He ->. cbn [value].
  rewrite N2Z.inj_mul, inject_Z_mult, pow10_inject by lia.
  replace e' with (e + (e' - e))%Z at 1 by lia.
  rewrite Qpower_plus by apply ten_nonzero. ring.
Qed.

Lemma value_money (d : Decimal) :
  money d -> value d == inject_Z (cents d) / 100.
Proof.
  destruct d as [s c e| |]; cbn [money]; try tauto. intros [-> _].
  cbn [value cents]. change (10 ^ (-2)) with (/ 100).
  destruct s; [rewrite inject_Z_opp|]; field.
Qed.

Local Close Scope Q_scope.

(** ** Bringing amounts to two decimals *)

(** Whatever the operand, quantizing a finite value to cents either
    raises [InvalidOperation] or returns the rounded coefficient. *)
Lemma quantize_cent_cases (s : bool) (c : N) (x : Z) :
  quantize (Fin s c x) cent ROUND_HALF_UP = Raise InvalidOperation \/
  (quantize (Fin s c x) cent ROUND_HALF_UP
   = Ok (Fin s (half_up_cents c x) (-2)) /\
   (half_up_cents c x < pow10 28)%N).
Proof.
  unfold quantize, cent. cbn [check_nans].
  change (negb ((Etiny <=? -2) && (-2 <=? Emax))) with false. cbv iota.
  destruct (N.eqb_spec c 0) as [->|Hnz].
  - right. assert (E0 : half_up_cents 0 x = 0%N).
    { unfold half_up_cents. destruct (-2 <=? x); [reflexivity|].
      apply N.div_small. pose proof (pow10_pos (-2 - x)). lia. }
    rewrite E0. split; [|apply pow10_pos].
    apply fix_id; [apply pow10_pos | unfold_ctx; lia].
  - destruct (Emax <? adjusted c x); [left; reflexivity|].
    destruct (prec <? adjusted c x - -2 + 1); [left; reflexivity|].
    rewrite rescale_half_up.
    destruct (Emax <? adjusted (half_up_cents c x) (-2));
      [left; reflexivity|].
    destruct (Z.ltb_spec prec (ndigits (half_up_cents c x))) as [|Hn];
      [left; reflexivity|].
    right. apply ndigits_bound in Hn.
    split; [|exact Hn].
    apply fix_id; [exact Hn | unfold_ctx; lia].
Qed.

(** An amount is already at two decimals: quantizing it to cents changes
    nothing, whatever the rounding. *)
Lemma quantize_money (d : Decimal) (r : rounding) :
  money d -> quantize d cent r = Ok d.
Proof.
  destruct d as [s c e| |]; cbn [money]; try tauto. intros [-> Hc].
  unfold quantize, cent. cbn [check_nans].
  change (negb ((Etiny <=? -2) && (-2 <=? Emax))) with false. cbv iota.
  destruct (N.eqb_spec c 0) as [->|Hnz].
  - apply fix_id; [apply pow10_pos | unfold_ctx; lia].
  - pose proof (ndigits_le c 28 ltac:(lia) Hc) as Hn.
    pose proof (ndigits_pos c) as Hn1.
    assert (Er : rescale c (-2) (-2) r = c).
    { unfold rescale. destruct (N.eqb_spec c 0); [contradiction|].
      change (-2 <=? -2) with true. cbv iota.
      change (pow10 (-2 - -2)) with 1%N. lia. }
    rewrite Er. unfold_ctx.
    destruct (Z.ltb_spec 999999 (-2 + ndigits c - 1)); [lia|].
    destruct (Z.ltb_spec 28 (-2 + ndigits c - 1 - -2 + 1)); [lia|].
    destruct (Z.ltb_spec 28 (ndigits c)); [lia|].
    apply fix_id; [assumption | unfold_ctx; lia].
Qed.

Lemma half_up_cents_zero (x : Z) : half_up_cents 0 x = 0%N.
Proof.
  unfold half_up_cents. destruct (-2 <=? x); [reflexivity|].
  apply N.div_small. pose proof (pow10_pos (-2 - x)). lia.
Qed.

(** Rounding to cents never exceeds a hundred times the coefficient when
    there are decimals only, nor the coefficient itself when there are two
    decimals or more. *)
Lemma half_up_cents_le (c : N) (x : Z) :
  x <= -2 -> (half_up_cents c x <= c)%N.
Proof.
  intros Hx. unfold half_up_cents.
  destruct (Z.leb_spec (-2) x) as [H|H].
  - replace (x + 2) with 0 by lia. rewrite pow10_0. lia.
  - pose proof (pow10_pos (-2 - x)) as Hp.
    assert (H10 : (10 <= pow10 (-2 - x))%N).
    { change 10%N with (pow10 1). apply pow10_le. lia. }
    destruct (N.eq_dec c 0) as [->|Hnz].
    + rewrite N.div_small; lia.
    + apply N.lt_succ_r. apply N.Div0.div_lt_upper_bound. nia.
Qed.

Lemma half_up_cents_le_100 (c : N) (x : Z) :
  x <= 0 -> (half_up_cents c x <= 100 * c)%N.
Proof.
  intros Hx. destruct (Z_le_gt_dec x (-2)) as [H|H].
  - pose proof (half_up_cents_le c x H). lia.
  - unfold half_up_cents. destruct (Z.leb_spec (-2) x); [|lia].
    assert (Hp : (pow10 (x + 2) <= pow10 2)%N) by (apply pow10_le; lia).
    change (pow10 2) with 100%N in Hp. nia.
Qed.

(** ** The stages of a line *)

Lemma bind_Ok {A B : Type} (m : result A) (k : A -> result B) (b : B) :
  bind m k = Ok b -> exists a, m = Ok a /\ k a = Ok b.
Proof.
  destruct m as [a|e]; cbn [bind]; [eauto | discriminate].
Qed.

Ltac inv_bind H :=
  let a := fresh "a" in
  let E := fresh "E" in
  apply bind_Ok in H; destruct H as [a [E H]].

(** A product whose coefficient fits the precision is exact. *)
Lemma mul_exact (sa sb : bool) (ca cb : N) (ea eb : Z) :
  (ca * cb < pow10 28)%N -> Etiny <= ea + eb <= Etop ->
  mul (Fin sa ca ea) (Fin sb cb eb)
  = Ok (Fin (xorb sa sb) (ca * cb)%N (ea + eb)).
Proof.
  intros Hc He. rewrite mul_Fin. apply fix_id; assumption.
Qed.

(** [taxable_value]: the first half of [line_amounts]. *)
Lemma taxable_value_exact (sq sr : bool) (cq cr : N) (eq er : Z) (tv : Decimal) :
  modest eq -> modest er -> (cq * cr < pow10 28)%N ->
  (p <- mul (Fin sq cq eq) (Fin sr cr er) ;; quantize p cent ROUND_HALF_UP)
  = Ok tv ->
  tv = Fin (xorb sq sr) (half_up_cents (cq * cr) (eq + er)) (-2) /\
  (half_up_cents (cq * cr) (eq + er) < pow10 28)%N.
Proof.
  unfold modest. intros Hq Hr Hc H.
  rewrite mul_exact in H by (try assumption; unfold_ctx; lia).
  cbn [bind] in H.
  destruct (quantize_cent_cases (xorb sq sr) (cq * cr) (eq + er))
    as [E|[E Hb]]; rewrite E in H; [discriminate|].
  injection H as <-. split; [reflexivity | assumption].
Qed.

(** [tax_value]: the second half of [line_amounts], from an amount. *)
Lemma tax_value_exact (st sp : bool) (t cp : N) (ep : Z) (xv : Decimal) :
  modest ep -> (t * cp < pow10 28)%N ->
  (p' <- mul (Fin st t (-2)) (Fin sp cp ep) ;;
   p'' <- truediv p' hundred ;;
   quantize p'' cent ROUND_HALF_UP) = Ok xv ->
  let ce := strip_zeros 2 (t * cp) (ep - 4) in
  xv = Fin (xorb st sp) (half_up_cents (fst ce) (snd ce)) (-2) /\
  (half_up_cents (fst ce) (snd ce) < pow10 28)%N.
Proof.
  unfold modest. intros Hp Hc H.
  rewrite mul_exact in H by (try assumption; unfold_ctx; lia).
  cbn [bind] in H.
  rewrite truediv_hundred in H by (try assumption; unfold_ctx; lia).
  cbn [bind] in H.
  replace (-2 + ep - 2) with (ep - 4) in H by lia.
  cbv zeta.
  destruct (quantize_cent_cases (xorb st sp)
              (fst (strip_zeros 2 (t * cp) (ep - 4)))
              (snd (strip_zeros 2 (t * cp) (ep - 4))))
    as [E|[E Hb]]; rewrite E in H; [discriminate|].
  injection H as <-. split; [reflexivity | assumption].
Qed.

Lemma line_amounts_unfold (q r p : Decimal) :
  line_amounts q r p
  = (tv <- (m <- mul q r ;; quantize m cent ROUND_HALF_UP) ;;
     xv <- (p' <- mul tv p ;;
            p'' <- truediv p' hundred ;;
            quantize p'' cent ROUND_HALF_UP) ;;
     Ok (tv, xv)).
Proof.
  unfold line_amounts.
  destruct (mul q r) as [m|]; cbn [bind]; [|reflexivity].
  destruct (quantize m cent ROUND_HALF_UP) as [tv|]; cbn [bind]; [|reflexivity].
  destruct (mul tv p) as [p'|]; cbn [bind]; [|reflexivity].
  destruct (truediv p' hundred) as [p''|]; cbn [bind]; [|reflexivity].
  destruct (quantize p'' cent ROUND_HALF_UP); reflexivity.
Qed.

(** The cents of half an amount, rounded half up. *)
Lemma half_cents (t : N) :
  let ce := strip_zeros 1 (5 * t) (-3) in
  half_up_cents (fst ce) (snd ce) = ((t + 1) / 2)%N.
Proof.
  cbv zeta. cbn [strip_zeros].
  pose proof (N.Div0.div_mod t 2) as D.
  pose proof (N.mod_upper_bound t 2 ltac:(discriminate)) as M.
  pose proof (N.Div0.div_mod (5 * t) 10) as D5.
  pose proof (N.mod_upper_bound (5 * t) 10 ltac:(discriminate)) as M5.
  set (q2 := (t / 2)%N) in *. set (r2 := (t mod 2)%N) in *.
  set (q5 := ((5 * t) / 10)%N) in *. set (r5 := ((5 * t) mod 10)%N) in *.
  clearbody q2 r2 q5 r5.
  destruct (N.eqb_spec r5 0) as [Hz|Hnz]; cbn [fst snd].
  - change (-3 + 1) with (-2). unfold half_up_cents.
    change (-2 <=? -2) with true. cbv iota. change (pow10 (-2 + 2)) with 1%N.
    rewrite N.mul_1_r.
    apply N.div_unique with (r := 1%N); lia.
  - unfold half_up_cents. change (-2 <=? -3) with false. cbv iota.
    change (pow10 (-2 - -3)) with 10%N.
    transitivity (q2 + 1)%N.
    + symmetry. apply N.div_unique with (r := 0%N); lia.
    + apply N.div_unique with (r := 0%N); lia.
Qed.

(** The split of an amount of tax within a state. *)
Lemma line_split_intra (tot : Totals) (s : bool) (t : N)
    (c g i tc ts ti : Decimal) :
  (5 * t < pow10 28)%N ->
  line_split INTRA tot (Fin s t (-2)) = Ok (c, g, i, (tc, ts, ti)) ->
  c = Fin s ((t + 1) / 2)%N (-2) /\ g = c /\ i = zero_00 /\
  add (total_cgst tot) c = Ok tc /\ add (total_sgst tot) g = Ok ts /\
  ti = total_igst tot.
Proof.
  intros Ht H. unfold line_split in H.
  rewrite truediv_two in H by (try assumption; unfold_ctx; lia).
  cbn [bind] in H. change (-2 - 1) with (-3) in H.
  assert (Hq : quantize
           (Fin s (fst (strip_zeros 1 (5 * t) (-3)))
                  (snd (strip_zeros 1 (5 * t) (-3)))) cent ROUND_HALF_UP
           = Ok (Fin s ((t + 1) / 2)%N (-2))).
  { rewrite <- half_cents. apply quantize_cent.
    - pose proof (strip_zeros_spec 1 (5 * t) (-3)) as Hs.
      destruct (strip_zeros 1 (5 * t) (-3)) as [c' e']. cbn [snd].
      unfold_ctx. lia.
    - rewrite half_cents. rewrite pow10_28 in *.
      apply N.Div0.div_lt_upper_bound. lia. }
  rewrite Hq in H. cbn [bind] in H.
  inv_bind H. inv_bind H. injection H as <- <- <- <- <- <-.
  repeat split; assumption.
Qed.

(** The split of an amount of tax between states. *)
Lemma line_split_inter (tot : Totals) (xv c g i tc ts ti : Decimal) :
  line_split INTER tot xv = Ok (c, g, i, (tc, ts, ti)) ->
  c = zero_00 /\ g = zero_00 /\ i = xv /\
  tc = total_cgst tot /\ ts = total_sgst tot /\
  add (total_igst tot) xv = Ok ti.
Proof.
  intros H. unfold line_split in H. inv_bind H.
  injection H as <- <- <- <- <- <-. repeat split; assumption.
Qed.

(** ** Finite operands *)

Lemma fix_finite (s : bool) (c : N) (e : Z) (d : Decimal) :
  fix_ (Fin s c e) = Ok d -> finite d.
Proof.
  unfold fix_. intros H.
  repeat match type of H with
         | (if ?b then _ else _) = _ => destruct b
         | (let (_, _) := ?p in _) = _ => destruct p
         end;
    try discriminate; injection H as <-; exact I.
Qed.

Lemma mul_finite (a b d : Decimal) :
  finite a -> finite b -> mul a b = Ok d -> finite d.
Proof.
  destruct a as [sa ca ea| |], b as [sb cb eb| |]; cbn [finite]; try tauto.
  intros _ _. rewrite mul_Fin. apply fix_finite.
Qed.

Lemma truediv_finite (a b d : Decimal) :
  finite a -> finite b -> truediv a b = Ok d -> finite d.
Proof.
  destruct a as [sa ca ea| |], b as [sb cb eb| |]; cbn [finite]; try tauto.
  intros _ _. unfold truediv. cbn [check_nans]. intros H.
  repeat match type of H with
         | (if ?b then _ else _) = _ => destruct b
         | (let (_, _) := ?p in _) = _ => destruct p
         end;
    try discriminate; eapply fix_finite; eassumption.
Qed.

(** Whatever finite value is brought to cents, the result is an amount. *)
Lemma quantize_finite_money (d d' : Decimal) :
  finite d -> quantize d cent ROUND_HALF_UP = Ok d' -> money d'.
Proof.
  destruct d as [s c x| |]; cbn [finite]; try tauto. intros _ H.
  destruct (quantize_cent_cases s c x) as [E|[E Hb]]; rewrite E in H;
    [discriminate|].
  injection H as <-. split; [reflexivity | assumption].
Qed.

Lemma money_finite (d : Decimal) : money d -> finite d.
Proof. destruct d; cbn [money finite]; tauto. Qed.

Lemma finite_hundred : finite hundred.
Proof. exact I. Qed.

(** With finite operands, both amounts of a line are amounts of money. *)
Lemma line_amounts_money (q r p tv xv : Decimal) :
  finite q -> finite r -> finite p ->
  line_amounts q r p = Ok (tv, xv) -> money tv /\ money xv.
Proof.
  intros Hq Hr Hp H. unfold line_amounts in H.
  inv_bind H. inv_bind H. inv_bind H. inv_bind H. inv_bind H.
  injection H as <- <-.
  assert (Htv : money a0).
  { eapply quantize_finite_money; [|eassumption].
    eapply (mul_finite q r); eassumption. }
  split; [assumption|].
  eapply quantize_finite_money; [|eassumption].
  eapply (truediv_finite _ hundred); [| apply finite_hundred | eassumption].
  eapply (mul_finite a0 p); [apply money_finite | |]; eassumption.
Qed.

(** ** What a line that was produced went through *)

Lemma line_inv (ty : invoice_type_t) (mode : tax_mode_t) (tot tot' : Totals)
    (it : pyval) (b : LineBreakdown) :
  line ty mode tot it = Ok (b, tot') ->
  field it "qty" 1 = Ok (qty b) /\
  field it "rate" 0 = Ok (rate b) /\
  field it "tax_rate" 0 = Ok (tax_percent b) /\
  line_amounts (qty b) (rate b) (tax_percent b)
  = Ok (taxable_value b, tax_value b) /\
  line_split mode tot (tax_value b)
  = Ok (cgst b, sgst b, igst b,
        (total_cgst tot', total_sgst tot', total_igst tot')) /\
  add (total_taxable tot) (taxable_value b) = Ok (total_taxable tot') /\
  add (total_tax tot) (tax_value b) = Ok (total_tax tot') /\
  (exists h, get it "hsn" = Ok h /\ hsn b = py_or h (VStr [])) /\
  hsn_check ty (hsn b) = Ok (hsn_warning b, hsn_recommended b).
Proof.
  intros H. unfold line in H.
  inv_bind H. inv_bind H. inv_bind H. inv_bind H. inv_bind H. inv_bind H.
  destruct a4 as [tv xv]. inv_bind H.
  destruct a4 as [[[c g] i] [[tc ts] ti]].
  inv_bind H. inv_bind H. inv_bind H. destruct a6 as [w rec].
  injection H as <- <-. cbn.
  repeat split; try assumption. exists a3. split; [assumption | reflexivity].
Qed.

(** ** The HSN digit check on a string *)

Lemma hsn_digits_len_str (s : pystr) :
  hsn_digits_len (map (fun c => VStr [c]) s)
  = Ok (List.length (filter char_isdigit s)).
Proof.
  induction s as [|c s IH]; [reflexivity|].
  cbn [map hsn_digits_len isdigit_method bind]. rewrite IH. cbn [bind].
  cbn [isdigit forallb filter]. rewrite andb_true_r.
  destruct (char_isdigit c); reflexivity.
Qed.

Lemma hsn_check_str (ty : invoice_type_t) (s : pystr) :
  hsn_check ty (VStr s)
  = Ok (Z.of_nat (List.length (filter char_isdigit s)) <? recommended_digits ty,
        recommended_digits ty).
Proof.
  unfold hsn_check. cbn [iterate bind]. rewrite hsn_digits_len_str.
  reflexivity.
Qed.

(** On ASCII characters [str.isdigit] accepts the ten digits only. *)
Lemma char_isdigit_ascii (c : N) :
  (c < 128)%N -> char_isdigit c = ascii_digit c.
Proof.
  intros Hc.
  assert (H : forallb (fun n => Bool.eqb (char_isdigit (N.of_nat n))
                                  (ascii_digit (N.of_nat n)))
                      (seq 0 128) = true) by (vm_compute; reflexivity).
  rewrite forallb_forall in H.
  specialize (H (N.to_nat c)). rewrite N2Nat.id in H.
  apply eqb_prop, H, in_seq. lia.
Qed.

Lemma filter_isdigit_ascii (s : pystr) :
  Forall (fun c => (c < 128)%N) s ->
  filter char_isdigit s = filter ascii_digit s.
Proof.
  induction 1 as [|c s Hc _ IH]; [reflexivity|].
  cbn [filter]. rewrite IH, (char_isdigit_ascii c Hc). reflexivity.
Qed.

(** ** Classification *)

Lemma dropwhile_nil_iff {A : Type} (p : A -> bool) (l : list A) :
  dropwhile p l = [] <-> forallb p l = true.
Proof.
  induction l as [|x l IH]; cbn [dropwhile forallb]; [tauto|].
  destruct (p x); cbn [andb]; [exact IH|]. split; discriminate.
Qed.

Lemma forallb_false_ex {A : Type} (p : A -> bool) (l : list A) :
  forallb p l = false -> exists x, In x l /\ p x = false.
Proof.
  induction l as [|x l IH]; cbn [forallb]; [discriminate|].
  destruct (p x) eqn:Hx; cbn [andb].
  - intros H. destruct (IH H) as [y [Hin Hy]]. exists y. split;
      [right; assumption | assumption].
  - intros _. exists x. split; [left; reflexivity | assumption].
Qed.

(** Stripping leaves something exactly when some character is not white
    space. *)
Lemma strip_nonempty_iff (s : pystr) :
  strip s <> [] <-> exists c, In c s /\ char_isspace c = false.
Proof.
  assert (E : strip s = [] <-> forallb char_isspace s = true).
  { unfold strip, rstrip, lstrip. split.
    - intros H. apply (f_equal (@rev N)) in H. rewrite rev_involutive in H.
      cbn [rev] in H. apply dropwhile_nil_iff in H.
      rewrite forallb_forall in H.
      destruct (dropwhile char_isspace s) as [|x l] eqn:D.
      + apply dropwhile_nil_iff. exact D.
      + exfalso.
        assert (Hx : char_isspace x = false).
        { clear H. revert D. induction s as [|y s IH]; cbn [dropwhile];
            [discriminate|].
          destruct (char_isspace y) eqn:Hy; [exact IH|].
          intros D. injection D as -> _. exact Hy. }
        rewrite H in Hx; [discriminate|].
        apply in_rev. rewrite rev_involutive. left. reflexivity.
    - intros H. apply dropwhile_nil_iff in H. rewrite H. reflexivity. }
  split.
  - intros Hne. destruct (forallb char_isspace s) eqn:F.
    + exfalso. apply Hne, E. reflexivity.
    + apply forallb_false_ex in F. exact F.
  - intros [c [Hin Hc]] H. apply E in H. rewrite forallb_forall in H.
    rewrite (H c Hin) in Hc. discriminate.
Qed.

Lemma pystr_eqb_eq (a b : pystr) : pystr_eqb a b = true <-> a = b.
Proof.
  unfold pystr_eqb. destruct (list_eq_dec N.eq_dec a b); split;
    congruence.
Qed.

Lemma gst_state_Some (g p : pystr) :
  gst_state g = Some p <->
  (2 <= List.length g)%nat /\ forallb char_isdigit (prefix 2 g) = true /\
  p = prefix 2 g.
Proof.
  unfold gst_state, isdigit, prefix.
  destruct g as [|a [|b g]]; cbn [List.length firstn Nat.leb].
  - split; [discriminate | intros [H _]; lia].
  - split; [discriminate | intros [H _]; lia].
  - cbn [andb]. destruct (forallb char_isdigit [a; b]).
    + split; [intros H; injection H as <-; auto with arith
             | intros [_ [_ ->]]; reflexivity].
    + split; [discriminate | intros [_ [H _]]; discriminate].
Qed.

Lemma gst_state_ascii (g : pystr) :
  is_ascii g -> gst_state g = spec_state_of g.
Proof.
  intros H. unfold gst_state, spec_state_of, isdigit, prefix.
  destruct g as [|a [|b g]]; try reflexivity.
  cbn [List.length firstn Nat.leb andb forallb].
  inversion H as [|? ? Ha H']; subst. inversion H' as [|? ? Hb _]; subst.
  rewrite (char_isdigit_ascii a Ha), (char_isdigit_ascii b Hb).
  reflexivity.
Qed.

Lemma tax_mode_of_INTRA (seller buyer : pystr) :
  tax_mode_of seller buyer = INTRA <->
  (2 <= List.length seller)%nat /\ (2 <= List.length buyer)%nat /\
  forallb char_isdigit (prefix 2 seller) = true /\
  forallb char_isdigit (prefix 2 buyer) = true /\
  prefix 2 seller = prefix 2 buyer.
Proof.
  unfold tax_mode_of.
  destruct (gst_state seller) as [ps|] eqn:Es.
  - apply gst_state_Some in Es. destruct Es as [Ls [Ds ->]].
    destruct (gst_state buyer) as [pb|] eqn:Eb.
    + apply gst_state_Some in Eb. destruct Eb as [Lb [Db ->]].
      destruct (prefix 2 seller) as [|x xs] eqn:Ps;
        [destruct seller as [|? [|? ?]]; cbn in Ls, Ps; try lia; discriminate|].
      destruct (prefix 2 buyer) as [|y ys] eqn:Pb;
        [destruct buyer as [|? [|? ?]]; cbn in Lb, Pb; try lia; discriminate|].
      destruct (pystr_eqb (x :: xs) (y :: ys)) eqn:Q.
      * apply pystr_eqb_eq in Q.
        split; [intros _; repeat split; assumption | reflexivity].
      * split; [discriminate|]. intros [_ [_ [_ [_ H]]]].
        apply pystr_eqb_eq in H. congruence.
    + destruct (prefix 2 seller); (split; [discriminate|]);
        intros [_ [Lb [_ [Db _]]]];
        assert (gst_state buyer = Some (prefix 2 buyer))
          by (apply gst_state_Some; auto); congruence.
  - split; [discriminate|]. intros [Ls [_ [Ds _]]].
    assert (gst_state seller = Some (prefix 2 seller))
      by (apply gst_state_Some; auto). congruence.
Qed.

(** C3, as stated, fails: a seller and a buyer whose GSTINs both start
    with the Arabic-Indic digits of 27 are classified INTRA, although
    their first two characters are not ASCII digits, so that the
    specification's [state_of] resolves neither and gives INTER. *)
Lemma C3_counterexample :
  let seller := arabic_27 ++ ustr "AAAA0000A1Z5" in
  let buyer := arabic_27 ++ ustr "BBBB1111B1Z6" in
  tax_mode_of seller buyer = INTRA /\
  forallb ascii_digit (prefix 2 seller) = false /\
  spec_tax_mode seller buyer = INTER.
Proof. vm_compute. repeat split. Qed.

(** C3 (amended): the tax mode is INTRA exactly when both GSTINs have at
    least two characters, the first two of each are digits in the sense of
    [str.isdigit] (the ASCII digits and the other Unicode digits), and the
    two prefixes are equal; it is INTER in every other case.  On GSTINs
    made of ASCII characters this is the classification of the
    specification. *)
Theorem C3_tax_mode (seller buyer : pystr) :
  let same_state :=
    (2 <= List.length seller)%nat /\ (2 <= List.length buyer)%nat /\
    forallb char_isdigit (prefix 2 seller) = true /\
    forallb char_isdigit (prefix 2 buyer) = true /\
    prefix 2 seller = prefix 2 buyer in
  (tax_mode_of seller buyer = INTRA <-> same_state) /\
  (tax_mode_of seller buyer = INTER <-> ~ same_state) /\
  (is_ascii seller -> is_ascii buyer ->
   tax_mode_of seller buyer = spec_tax_mode seller buyer).
Proof.
  cbv zeta. pose proof (tax_mode_of_INTRA seller buyer) as H.
  split; [exact H|]. split.
  - destruct (tax_mode_of seller buyer).
    + split; [discriminate|]. intros Hn. exfalso. apply Hn, H. reflexivity.
    + split; [|reflexivity]. intros _ Hs. apply H in Hs. discriminate.
  - intros Hs Hb. unfold tax_mode_of, spec_tax_mode.
    rewrite (gst_state_ascii seller Hs), (gst_state_ascii buyer Hb).
    unfold spec_state_of.
    destruct seller as [|a [|b s]], buyer as [|c [|d t]];
      cbn [List.length Nat.leb firstn andb];
      repeat match goal with
             | |- context [forallb ascii_digit ?l] =>
                 destruct (forallb ascii_digit l)
             end;
      reflexivity.
Qed.

Lemma C3_tax_mode_witness :
  is_ascii (ustr "27AAAA0000A1Z5") /\ is_ascii (ustr "09BBBB1111B1Z6") /\
  tax_mode_of (ustr "27AAAA0000A1Z5") (ustr "09BBBB1111B1Z6")
  = spec_tax_mode (ustr "27AAAA0000A1Z5") (ustr "09BBBB1111B1Z6").
Proof.
  assert (Ha : is_ascii (ustr "27AAAA0000A1Z5"))
    by (repeat constructor).
  assert (Hb : is_ascii (ustr "09BBBB1111B1Z6"))
    by (repeat constructor).
  split; [exact Ha|]. split; [exact Hb|].
  exact (proj2 (proj2 (C3_tax_mode _ _)) Ha Hb).
Defined.

(** ** The HSN digit check *)

(** C7, as stated, fails: an HSN code of four Arabic-Indic digits on a
    B2C invoice has no ASCII digit at all, fewer than the recommended
    four, and yet raises no warning. *)
Lemma C7_counterexample :
  let it := VDict [(ustr "hsn", VStr arabic_1234)] in
  exists b tot',
    line B2C INTER zero_totals it = Ok (b, tot') /\
    hsn b = VStr arabic_1234 /\
    hsn_recommended b = 4 /\
    (Z.of_nat (List.length (filter ascii_digit arabic_1234)) <? 4) = true /\
    hsn_warning b = false.
Proof. vm_compute. eexists. eexists. repeat split. Qed.

(** C7 (amended): the recommended length is 6 on a B2B invoice and 4 on a
    B2C one, and the warning is raised exactly when the HSN string holds
    fewer characters that [str.isdigit] accepts (ASCII digits and the
    other Unicode digits alike; everything else is ignored) than
    recommended.  For an HSN string of ASCII characters these are its
    ASCII digits. *)
Theorem C7_hsn_warning (ty : invoice_type_t) (mode : tax_mode_t)
    (tot tot' : Totals) (it : pyval) (b : LineBreakdown) (s : pystr) :
  line ty mode tot it = Ok (b, tot') ->
  hsn b = VStr s ->
  hsn_recommended b = match ty with B2B => 6 | B2C => 4 end /\
  (hsn_warning b = true <->
   Z.of_nat (List.length (filter char_isdigit s)) < hsn_recommended b) /\
  (is_ascii s ->
   (hsn_warning b = true <->
    Z.of_nat (List.length (filter ascii_digit s)) < hsn_recommended b)).
Proof.
  intros H Hs. apply line_inv in H.
  destruct H as [_ [_ [_ [_ [_ [_ [_ [_ H]]]]]]]].
  rewrite Hs, hsn_check_str in H. injection H as Hw Hr.
  rewrite <- Hw, <- Hr.
  split; [destruct ty; reflexivity|]. split.
  - apply Z.ltb_lt.
  - intros Ha. rewrite <- (filter_isdigit_ascii s Ha). apply Z.ltb_lt.
Qed.

Lemma C7_hsn_warning_witness :
  exists b tot',
    line B2B INTRA zero_totals
      (VDict [(ustr "qty", VInt 2); (ustr "rate", VInt 100);
              (ustr "tax_rate", VInt 18); (ustr "hsn", VStr (ustr "1234"))])
    = Ok (b, tot') /\
    hsn_recommended b = 6 /\ hsn_warning b = true.
Proof.
  eexists. eexists. split; [vm_compute; reflexivity|].
  match goal with
  | |- hsn_recommended ?b = _ /\ _ =>
      destruct (C7_hsn_warning B2B INTRA zero_totals
                  {| total_taxable := Fin false 20000 (-2);
                     total_tax := Fin false 3600 (-2);
                     total_cgst := Fin false 1800 (-2);
                     total_sgst := Fin false 1800 (-2);
                     total_igst := zero_00 |}
                  (VDict [(ustr "qty", VInt 2); (ustr "rate", VInt 100);
                          (ustr "tax_rate", VInt 18);
                          (ustr "hsn", VStr (ustr "1234"))])
                  b (ustr "1234"))
        as [Hr [Hw _]]; [vm_compute; reflexivity | reflexivity |]
  end.
  split; [exact Hr|]. apply Hw. vm_compute. reflexivity.
Defined.

(** ** Invoice type *)

Lemma buyer_gst_of_source (st : Stored) (raw : pystr) :
  buyer_source st raw ->
  buyer_gst_of st (load_invoice_data st) = Ok (strip raw).
Proof.
  unfold buyer_source, buyer_gst_of.
  intros [[E Hne]|[[E|[E|E]] G]]; rewrite E.
  - destruct raw; [contradiction | reflexivity].
  - rewrite G. reflexivity.
  - rewrite G. reflexivity.
  - rewrite G. reflexivity.
Qed.

Lemma invoice_viewer_classification (st : Stored) (ctx : Context) :
  invoice_viewer st = Ok ctx ->
  buyer_gst_of st (load_invoice_data st) = Ok (buyer_gst ctx) /\
  seller_gst ctx = seller_gst_of st /\
  invoice_type ctx = invoice_type_of (buyer_gst ctx) /\
  tax_mode ctx = tax_mode_of (seller_gst ctx) (buyer_gst ctx).
Proof.
  intros H. unfold invoice_viewer in H.
  inv_bind H. inv_bind H. inv_bind H. inv_bind H. destruct a2 as [bd tot].
  inv_bind H. inv_bind H. injection H as <-. cbn. auto.
Qed.

(** C8: the invoice is B2B exactly when the buyer GSTIN, stripped of
    leading and trailing white space, is a non-empty string, that is when
    it holds a character that is not white space; otherwise it is B2C.
    The buyer GSTIN is the customer's, or the string stored in the JSON
    when there is no customer GSTIN. *)
Theorem C8_invoice_type (st : Stored) (raw : pystr) :
  buyer_source st raw ->
  buyer_gst_of st (load_invoice_data st) = Ok (strip raw) /\
  (invoice_type_of (strip raw) = B2B <-> strip raw <> []) /\
  (invoice_type_of (strip raw) = B2C <-> strip raw = []) /\
  (strip raw <> [] <-> exists c, In c raw /\ char_isspace c = false) /\
  (forall ctx, invoice_viewer st = Ok ctx ->
     buyer_gst ctx = strip raw /\
     (invoice_type ctx = B2B <-> strip raw <> []) /\
     (invoice_type ctx = B2C <-> strip raw = [])).
Proof.
  intros Hsrc. pose proof (buyer_gst_of_source st raw Hsrc) as Hb.
  assert (T1 : invoice_type_of (strip raw) = B2B <-> strip raw <> []).
  { destruct (strip raw); cbn [invoice_type_of]; split; congruence. }
  assert (T2 : invoice_type_of (strip raw) = B2C <-> strip raw = []).
  { destruct (strip raw); cbn [invoice_type_of]; split; congruence. }
  split; [exact Hb|]. split; [exact T1|]. split; [exact T2|].
  split; [apply strip_nonempty_iff|].
  intros ctx H. apply invoice_viewer_classification in H.
  destruct H as [Hb' [_ [Ht _]]]. rewrite Hb in Hb'. injection Hb' as Hb'.
  rewrite Ht, <- Hb'. auto.
Qed.

Lemma C8_invoice_type_witness :
  buyer_source stored_b2b (ustr " 27BBBB1111B1Z6 ") /\
  (invoice_type_of (strip (ustr " 27BBBB1111B1Z6 ")) = B2B <->
   strip (ustr " 27BBBB1111B1Z6 ") <> []).
Proof.
  assert (H : buyer_source stored_b2b (ustr " 27BBBB1111B1Z6 ")).
  { right. split; [left; reflexivity | reflexivity]. }
  split; [exact H|].
  exact (proj1 (proj2 (C8_invoice_type stored_b2b _ H))).
Defined.

(** ** No items *)

(** C9: when the list of items taken from the stored JSON is empty, the
    view returns an empty breakdown, totals of [0.00] and a grand total of
    [0.00].  (The buyer GSTIN is read before the items are.) *)
Theorem C9_no_items (st : Stored) (buyer : pystr) :
  buyer_gst_of st (load_invoice_data st) = Ok buyer ->
  extract_items (load_invoice_data st) = Ok (VList []) ->
  exists ctx,
    invoice_viewer st = Ok ctx /\
    breakdown ctx = [] /\
    total_taxable (totals ctx) = zero_00 /\
    total_tax (totals ctx) = zero_00 /\
    total_cgst (totals ctx) = zero_00 /\
    total_sgst (totals ctx) = zero_00 /\
    total_igst (totals ctx) = zero_00 /\
    grand_total ctx = zero_00.
Proof.
  intros Hb Hi. unfold invoice_viewer. rewrite Hb, Hi. cbn [bind iterate lines].
  assert (Ea : add (total_taxable zero_totals) (total_tax zero_totals)
               = Ok zero_00) by (vm_compute; reflexivity).
  rewrite Ea. cbn [bind]. rewrite (quantize_money zero_00 _ money_zero_00).
  cbn [bind]. eexists. split; [reflexivity|]. cbn. repeat split.
Qed.

(** The items are an empty list whenever neither [invoice_items] nor
    [items] holds anything truthy. *)
Lemma extract_items_empty (d : list (pystr * pyval)) (a b : pyval) :
  get (VDict d) "invoice_items" = Ok a -> truthy a = false ->
  get (VDict d) "items" = Ok b -> truthy b = false ->
  extract_items (VDict d) = Ok (VList []).
Proof.
  intros Ha Ta Hb Tb. unfold extract_items, py_or.
  rewrite Ha. cbn [bind]. rewrite Ta, Hb. cbn [bind]. rewrite Tb.
  reflexivity.
Qed.

Lemma C9_no_items_witness :
  buyer_gst_of stored_b2b (load_invoice_data stored_b2b)
  = Ok (ustr "27BBBB1111B1Z6") /\
  extract_items (load_invoice_data stored_b2b) = Ok (VList []) /\
  exists ctx,
    invoice_viewer stored_b2b = Ok ctx /\ breakdown ctx = [] /\
    grand_total ctx = zero_00.
Proof.
  assert (Hb : buyer_gst_of stored_b2b (load_invoice_data stored_b2b)
               = Ok (ustr "27BBBB1111B1Z6")) by (vm_compute; reflexivity).
  assert (Hi : extract_items (load_invoice_data stored_b2b) = Ok (VList []))
    by (vm_compute; reflexivity).
  split; [exact Hb|]. split; [exact Hi|].
  destruct (C9_no_items stored_b2b _ Hb Hi) as [ctx [H [Hbd [_ [_ [_ [_ [_ Hg]]]]]]]].
  exists ctx. auto.
Defined.

(** ** The amounts of a line *)

Local Open Scope Q_scope.

Lemma value_div_100 (s : bool) (c : N) (e : Z) :
  value (Fin s c (e - 2)) == value (Fin s c e) / 100.
Proof.
  cbn [value]. replace (e - 2)%Z with (e + (-2))%Z by lia.
  rewrite Qpower_plus by apply ten_nonzero.
  change (10 ^ (-2)) with (/ 100).
  generalize (10 ^ e) (inject_Z (Z.of_N c)). intros p q.
  destruct s; field.
Qed.

Lemma value_half (s : bool) (t : N) :
  value (Fin s (5 * t) (-3)) == value (Fin s t (-2)) / 2.
Proof.
  cbn [value]. rewrite N2Z.inj_mul, inject_Z_mult.
  change (inject_Z (Z.of_N 5)) with 5.
  change (10 ^ (-3)) with (/ 1000). change (10 ^ (-2)) with (/ 100). field.
Qed.

Lemma half_up_cents_half (t : N) :
  half_up_cents (5 * t) (-3) = ((t + 1) / 2)%N.
Proof.
  unfold half_up_cents. change (-2 <=? -3)%Z with false. cbv iota.
  change (pow10 (-2 - -3)) with 10%N.
  pose proof (N.Div0.div_mod (t + 1) 2) as D.
  pose proof (N.mod_upper_bound (t + 1) 2 ltac:(discriminate)) as M.
  set (q := ((t + 1) / 2)%N) in *. set (r := ((t + 1) mod 2)%N) in *.
  clearbody q r. symmetry.
  apply N.div_unique with (r := (10 * r)%N); lia.
Qed.

(** C4, as stated, fails: the product [qty * rate] is first rounded to
    the 28 digits of the context, to 1.005 exactly, and only then brought
    to two decimals, as 1.01; rounding the true product half up gives
    1.00. *)
Lemma C4_counterexample :
  exists b tot',
    line B2C INTER zero_totals item_long_rate = Ok (b, tot') /\
    qty b = Fin false 1 0 /\
    rate b = Fin false 100499999999999999999999999996 (-29) /\
    taxable_value b = Fin false 101 (-2) /\
    ~ value (taxable_value b)
      == round_half_up_2 (value (qty b) * value (rate b)).
Proof.
  eexists. eexists. split; [vm_compute; reflexivity|].
  cbn [qty rate taxable_value]. repeat split.
  intros H. vm_compute in H. discriminate H.
Qed.

(** C4 (amended): when quantity, rate and tax percent are finite (with
    exponents a person would write) and the product of the coefficients
    of quantity and rate has at most 28 digits, the taxable value of a
    line is the product [qty * rate] rounded half up to two decimals; when
    moreover the product of the coefficients of the taxable value and of
    the tax percent has at most 28 digits, the tax value is
    [taxable_value * tax_percent / 100] rounded half up to two decimals. *)
Theorem C4_line_amounts (ty : invoice_type_t) (mode : tax_mode_t)
    (tot tot' : Totals) (it : pyval) (b : LineBreakdown) :
  line ty mode tot it = Ok (b, tot') ->
  finite (qty b) -> finite (rate b) -> finite (tax_percent b) ->
  modest (exponent (qty b)) -> modest (exponent (rate b)) ->
  modest (exponent (tax_percent b)) ->
  (coeff (qty b) * coeff (rate b) < pow10 28)%N ->
  value (taxable_value b)
  == round_half_up_2 (value (qty b) * value (rate b)) /\
  ((coeff (taxable_value b) * coeff (tax_percent b) < pow10 28)%N ->
   value (tax_value b)
   == round_half_up_2
        (value (taxable_value b) * value (tax_percent b) / 100)).
Proof.
  intros H. apply line_inv in H. destruct H as [_ [_ [_ [H _]]]].
  rewrite line_amounts_unfold in H.
  destruct (qty b) as [sq cq eq| |]; cbn [finite]; try tauto.
  destruct (rate b) as [sr cr er| |]; cbn [finite]; try tauto.
  destruct (tax_percent b) as [sp cp ep| |]; cbn [finite]; try tauto.
  cbn [exponent coeff]. intros _ _ _ Mq Mr Mp Hc.
  inv_bind H. inv_bind H. injection H as Etv Exv.
  apply taxable_value_exact in E; try assumption.
  destruct E as [-> HT]. rewrite <- Etv, <- Exv. clear Etv Exv.
  set (T := half_up_cents (cq * cr) (eq + er)) in *.
  split.
  - rewrite <- value_mul. symmetry. apply round_half_up_value.
  - cbn [coeff]. intros Hc2.
    apply tax_value_exact in E0; try assumption.
    cbv zeta in E0. destruct E0 as [-> HX].
    pose proof (strip_zeros_spec 2 (T * cp) (ep - 4)) as Hs.
    destruct (strip_zeros 2 (T * cp) (ep - 4)) as [c3 e3].
    cbn [fst snd] in *. destruct Hs as [Es He].
    rewrite <- round_half_up_value.
    apply round_half_up_2_comp.
    rewrite (value_shift _ (T * cp) c3 (ep - 4) e3) by (try assumption; lia).
    replace (ep - 4)%Z with ((-2 + ep) - 2)%Z by lia.
    rewrite value_div_100, value_mul. reflexivity.
Qed.

Lemma line_example_eq :
  line B2B INTRA zero_totals item_example = Ok (line_example, totals_example).
Proof. vm_compute. reflexivity. Qed.

Lemma C4_line_amounts_witness :
  line B2B INTRA zero_totals item_example = Ok (line_example, totals_example)
  /\ value (taxable_value line_example)
     == round_half_up_2 (value (qty line_example) * value (rate line_example)).
Proof.
  split; [exact line_example_eq|].
  refine (proj1 (C4_line_amounts B2B INTRA zero_totals totals_example
                   item_example line_example line_example_eq
                   I I I _ _ _ _)).
  - unfold modest. cbn. lia.
  - unfold modest. cbn. lia.
  - unfold modest. cbn. lia.
  - vm_compute. reflexivity.
Defined.

(** ** The split of the tax *)

Lemma Qabs_cents_le (z : Z) :
  (Z.abs z <= 1)%Z -> Qabs (inject_Z z / 100) <= 1 # 100.
Proof.
  intros Hz.
  assert (C : z = (-1)%Z \/ z = 0%Z \/ z = 1%Z) by lia.
  destruct C as [ -> | [ -> | -> ] ]; vm_compute; discriminate.
Qed.

(** C5, as stated, fails: half of a tax value of 28 digits with an odd
    number of cents needs 29 digits; the context rounds it half even
    before the view rounds half up, so that [cgst] ends in [.00] where
    rounding the true half up gives [.01]. *)
Lemma C5_counterexample :
  exists b tot',
    line B2B INTRA zero_totals item_huge_tax = Ok (b, tot') /\
    tax_value b = Fin false 2000000000000000000000000001 (-2) /\
    cgst b = Fin false 1000000000000000000000000000 (-2) /\
    ~ value (cgst b) == round_half_up_2 (value (tax_value b) / 2).
Proof.
  eexists. eexists. split; [vm_compute; reflexivity|].
  cbn [tax_value cgst]. repeat split.
  intros H. vm_compute in H. discriminate H.
Qed.

(** C5 (amended): between states, [igst] is the tax value itself and
    [cgst] and [sgst] are [0.00].  Within a state, as long as the tax
    value is an amount below [2 * 10^25] (so that its half still fits 28
    digits), [cgst] and [sgst] are both half the tax value rounded half up
    to two decimals, [igst] is [0.00], and [cgst + sgst] is within [0.01]
    of the tax value, equal to it when its cents are even. *)
Theorem C5_tax_split (ty : invoice_type_t) (mode : tax_mode_t)
    (tot tot' : Totals) (it : pyval) (b : LineBreakdown) :
  line ty mode tot it = Ok (b, tot') ->
  (mode = INTER ->
   igst b = tax_value b /\ cgst b = zero_00 /\ sgst b = zero_00) /\
  (mode = INTRA ->
   money (tax_value b) ->
   (Z.abs (cents (tax_value b)) < 2 * 10 ^ 27)%Z ->
   cgst b = sgst b /\ igst b = zero_00 /\
   value (cgst b) == round_half_up_2 (value (tax_value b) / 2) /\
   Qabs (value (cgst b) + value (sgst b) - value (tax_value b)) <= 1 # 100 /\
   (Z.even (cents (tax_value b)) = true ->
    value (cgst b) + value (sgst b) == value (tax_value b))).
Proof.
  intros H. apply line_inv in H.
  destruct H as [_ [_ [_ [_ [H _]]]]]. split.
  - intros ->. apply line_split_inter in H. tauto.
  - intros -> Hm Hb.
    destruct (tax_value b) as [s t e| |] eqn:Ex; cbn [money] in Hm;
      try contradiction.
    destruct Hm as [-> Ht]. cbn [cents] in Hb.
    assert (H5 : (5 * t < pow10 28)%N)
      by (rewrite pow10_28; destruct s; lia).
    apply line_split_intra in H; [|exact H5].
    destruct H as [Ec [Eg [Ei _]]]. rewrite Eg, Ei, Ec.
    split; [reflexivity|]. split; [reflexivity|].
    assert (Hh : (2 * ((t + 1) / 2) = t + (t mod 2))%N).
    { pose proof (N.Div0.div_mod t 2) as D.
      pose proof (N.mod_upper_bound t 2 ltac:(discriminate)) as M.
      assert (Q : ((t + 1) / 2 = t / 2 + t mod 2)%N).
      { set (q := (t / 2)%N) in *. set (r := (t mod 2)%N) in *.
        clearbody q r. symmetry.
        apply N.div_unique with (r := (1 - r)%N); lia. }
      rewrite Q. lia. }
    assert (Mc : money (Fin s ((t + 1) / 2)%N (-2))).
    { split; [reflexivity|]. rewrite pow10_28 in *.
      apply N.Div0.div_lt_upper_bound. lia. }
    assert (Mt : money (Fin s t (-2))) by (split; [reflexivity | exact Ht]).
    split; [|split].
    + rewrite <- value_half, <- half_up_cents_half. symmetry.
      apply round_half_up_value.
    + rewrite (value_money _ Mc), (value_money _ Mt). cbn [cents].
      set (h := ((t + 1) / 2)%N) in *.
      setoid_replace
        (inject_Z (if s then (- Z.of_N h)%Z else Z.of_N h) / 100
         + inject_Z (if s then (- Z.of_N h)%Z else Z.of_N h) / 100
         - inject_Z (if s then (- Z.of_N t)%Z else Z.of_N t) / 100)
        with (inject_Z ((if s then -1 else 1) * Z.of_N (t mod 2)) / 100).
      * apply Qabs_cents_le.
        pose proof (N.mod_upper_bound t 2 ltac:(discriminate)).
        clearbody h. generalize dependent (t mod 2)%N.
        intros; destruct s; lia.
      * assert (Ez : ((if s then (- Z.of_N h)%Z else Z.of_N h)
                      + (if s then (- Z.of_N h)%Z else Z.of_N h)
                      + - (if s then (- Z.of_N t)%Z else Z.of_N t)
                      = (if s then -1 else 1) * Z.of_N (t mod 2))%Z).
        { clearbody h. generalize dependent (t mod 2)%N.
          intros; destruct s; lia. }
        rewrite <- Ez. rewrite !inject_Z_plus, inject_Z_opp. field.
    + intros Hev. cbn [cents] in Hev.
      assert (Hm0 : (t mod 2 = 0)%N).
      { assert (He : Z.even (Z.of_N t) = true)
          by (destruct s; [rewrite Z.even_opp in Hev|]; exact Hev).
        apply Z.even_spec in He. destruct He as [k Hk].
        pose proof (N.Div0.div_mod t 2) as D.
        pose proof (N.mod_upper_bound t 2 ltac:(discriminate)) as M.
        generalize dependent (t / 2)%N. generalize dependent (t mod 2)%N.
        intros; lia. }
      rewrite (value_money _ Mc), (value_money _ Mt). cbn [cents].
      set (h := ((t + 1) / 2)%N) in *.
      assert (Ez : ((if s then (- Z.of_N h)%Z else Z.of_N h)
                    + (if s then (- Z.of_N h)%Z else Z.of_N h)
                    = (if s then (- Z.of_N t)%Z else Z.of_N t))%Z).
      { clearbody h. rewrite Hm0 in Hh. destruct s; lia. }
      rewrite <- Ez, inject_Z_plus. field.
Qed.

Lemma C5_tax_split_witness :
  line B2B INTRA zero_totals item_example = Ok (line_example, totals_example)
  /\ money (tax_value line_example)
  /\ (Z.abs (cents (tax_value line_example)) < 2 * 10 ^ 27)%Z
  /\ cgst line_example = sgst line_example
  /\ value (cgst line_example)
     == round_half_up_2 (value (tax_value line_example) / 2).
Proof.
  assert (Hm : money (tax_value line_example))
    by (split; [reflexivity | vm_compute; reflexivity]).
  assert (Hb : (Z.abs (cents (tax_value line_example)) < 2 * 10 ^ 27)%Z)
    by (vm_compute; reflexivity).
  split; [exact line_example_eq|]. split; [exact Hm|]. split; [exact Hb|].
  destruct (proj2 (C5_tax_split B2B INTRA zero_totals totals_example
                     item_example line_example line_example_eq)
              eq_refl Hm Hb) as [H1 [_ [H2 _]]].
  split; [exact H1 | exact H2].
Defined.

Local Close Scope Q_scope.

(** ** The totals *)

Lemma volume_nonneg (bd : list LineBreakdown) : 0 <= volume bd.
Proof. induction bd as [|b bd IH]; cbn [volume]; lia. Qed.

Lemma amount_within_mono (B B' : Z) (d : Decimal) :
  B <= B' -> amount_within B d -> amount_within B' d.
Proof. unfold amount_within. intros H [Hm Hb]. split; [assumption | lia]. Qed.

Lemma add_within (a b d : Decimal) (B k : Z) :
  amount_within B a -> amount_within k b -> B + k < 10 ^ 28 ->
  add a b = Ok d ->
  amount_within (B + k) d /\ cents d = cents a + cents b.
Proof.
  intros [Ma Ha] [Mb Hb] Hlt H.
  destruct (add_money a b Ma Mb ltac:(lia)) as [d' [E [Md Ec]]].
  rewrite E in H. injection H as <-.
  split; [split; [assumption | lia] | assumption].
Qed.

Lemma amount_within_zero_00 (B : Z) : 0 <= B -> amount_within B zero_00.
Proof. intros H. split; [apply money_zero_00 | cbn [zero_00 cents]; lia]. Qed.

(** One pass of the loop adds the amounts of the line to the totals,
    exactly, while the volume stays below [2 * 10^25]. *)
Lemma line_totals (ty : invoice_type_t) (mode : tax_mode_t)
    (tot tot' : Totals) (it : pyval) (b : LineBreakdown) (B : Z) :
  line ty mode tot it = Ok (b, tot') ->
  finite_inputs b -> totals_within B tot -> 0 <= B ->
  let k := Z.abs (cents (taxable_value b)) + Z.abs (cents (tax_value b)) in
  B + k < 2 * 10 ^ 27 ->
  line_money b /\ totals_within (B + k) tot' /\
  cents (total_taxable tot') = cents (total_taxable tot) + cents (taxable_value b) /\
  cents (total_tax tot') = cents (total_tax tot) + cents (tax_value b) /\
  cents (total_cgst tot') = cents (total_cgst tot) + cents (cgst b) /\
  cents (total_sgst tot') = cents (total_sgst tot) + cents (sgst b) /\
  cents (total_igst tot') = cents (total_igst tot) + cents (igst b).
Proof.
  intros H [Fq [Fr Fp]] [Wt [Wx [Wc [Ws Wi]]]] HB k Hk.
  apply line_inv in H.
  destruct H as [_ [_ [_ [Ha [Hs [Ht [Hx _]]]]]]].
  destruct (line_amounts_money _ _ _ _ _ Fq Fr Fp Ha) as [Mt Mx].
  assert (Kt : amount_within (Z.abs (cents (taxable_value b)))
                 (taxable_value b)) by (split; [assumption | lia]).
  assert (Kx : amount_within (Z.abs (cents (tax_value b))) (tax_value b))
    by (split; [assumption | lia]).
  destruct (add_within _ _ _ _ _ Wt Kt ltac:(lia) Ht) as [Wt' Et].
  destruct (add_within _ _ _ _ _ Wx Kx ltac:(lia) Hx) as [Wx' Ex].
  assert (Wt'' : amount_within (B + k) (total_taxable tot'))
    by (eapply amount_within_mono; [|exact Wt']; unfold k; lia).
  assert (Wx'' : amount_within (B + k) (total_tax tot'))
    by (eapply amount_within_mono; [|exact Wx']; unfold k; lia).
  assert (Hk0 : 0 <= k) by (unfold k; lia).
  destruct mode.
  - destruct (tax_value b) as [s t e| |] eqn:Ev; cbn [money] in Mx;
      try contradiction.
    destruct Mx as [-> Hlt]. cbn [cents] in *.
    assert (H5 : (5 * t < pow10 28)%N)
      by (rewrite pow10_28; destruct s; lia).
    apply line_split_intra in Hs; [|exact H5].
    destruct Hs as [Ec [Eg [Ei [Ac [As Ti]]]]].
    assert (Hh : (2 * ((t + 1) / 2) <= t + 1)%N).
    { pose proof (N.Div0.div_mod (t + 1) 2) as D.
      generalize dependent ((t + 1) mod 2)%N.
      generalize dependent ((t + 1) / 2)%N. intros; lia. }
    assert (Hz : t = 0%N -> ((t + 1) / 2 = 0)%N)
      by (intros E0; rewrite E0; reflexivity).
    assert (Kc : amount_within (Z.abs (if s then - Z.of_N t else Z.of_N t))
                   (cgst b)).
    { rewrite Ec. split.
      - split; [reflexivity|]. rewrite pow10_28 in *.
        apply N.Div0.div_lt_upper_bound. lia.
      - cbn [cents]. destruct (N.eq_dec t 0) as [Z0|Z0];
          [rewrite (Hz Z0); destruct s; lia|].
        generalize dependent ((t + 1) / 2)%N. intros; destruct s; lia. }
    assert (Kg : amount_within (Z.abs (if s then - Z.of_N t else Z.of_N t))
                   (sgst b)) by (rewrite Eg; exact Kc).
    destruct (add_within _ _ _ _ _ Wc Kc ltac:(lia) Ac) as [Wc' Ecc].
    destruct (add_within _ _ _ _ _ Ws Kg ltac:(lia) As) as [Ws' Ess].
    unfold totals_within, line_money. rewrite Ti, Ei, Ev.
    cbn [zero_00 cents].
    split; [split; [exact Mt|]; split; [split; [reflexivity | exact Hlt]|];
            split; [apply Kc|]; split; [apply Kg | apply money_zero_00]|].
    split; [|lia].
    split; [exact Wt''|]. split; [exact Wx''|].
    split; [eapply amount_within_mono; [|exact Wc']; unfold k; lia|].
    split; [eapply amount_within_mono; [|exact Ws']; unfold k; lia|].
    eapply amount_within_mono; [|exact Wi]. lia.
  - apply line_split_inter in Hs.
    destruct Hs as [Ec [Eg [Ei [Tc [Ts Ai]]]]].
    destruct (add_within _ _ _ _ _ Wi Kx ltac:(lia) Ai) as [Wi' Eii].
    unfold totals_within, line_money. rewrite Tc, Ts, Ec, Eg, Ei.
    cbn [zero_00 cents].
    split; [split; [exact Mt|]; split; [exact Mx|];
            split; [apply money_zero_00|];
            split; [apply money_zero_00 | exact Mx]|].
    split; [|lia].
    split; [exact Wt''|]. split; [exact Wx''|].
    split; [eapply amount_within_mono; [|exact Wc]; lia|].
    split; [eapply amount_within_mono; [|exact Ws]; lia|].
    eapply amount_within_mono; [|exact Wi']. unfold k. lia.
Qed.

Lemma lines_inv_cons (ty : invoice_type_t) (mode : tax_mode_t) (tot tot' : Totals)
    (it : pyval) (its : list pyval) (bd : list LineBreakdown) :
  lines ty mode tot (it :: its) = Ok (bd, tot') ->
  exists b bd' tot1,
    bd = b :: bd' /\ line ty mode tot it = Ok (b, tot1) /\
    lines ty mode tot1 its = Ok (bd', tot').
Proof.
  cbn [lines]. intros H. inv_bind H. destruct a as [b tot1].
  inv_bind H. destruct a as [bd' tot2]. injection H as <- <-.
  exists b, bd', tot1. auto.
Qed.

(** The loop adds up every field exactly while the volume of the invoice
    stays below [2 * 10^25]. *)
Lemma lines_totals (its : list pyval) :
  forall (ty : invoice_type_t) (mode : tax_mode_t) (tot tot' : Totals)
         (bd : list LineBreakdown) (B : Z),
    lines ty mode tot its = Ok (bd, tot') ->
    Forall finite_inputs bd -> totals_within B tot -> 0 <= B ->
    B + volume bd < 2 * 10 ^ 27 ->
    Forall line_money bd /\ totals_within (B + volume bd) tot' /\
    cents (total_taxable tot')
    = cents (total_taxable tot) + sum_cents taxable_value bd /\
    cents (total_tax tot') = cents (total_tax tot) + sum_cents tax_value bd /\
    cents (total_cgst tot') = cents (total_cgst tot) + sum_cents cgst bd /\
    cents (total_sgst tot') = cents (total_sgst tot) + sum_cents sgst bd /\
    cents (total_igst tot') = cents (total_igst tot) + sum_cents igst bd.
Proof.
  induction its as [|it its IH]; intros ty mode tot tot' bd B H HF HW HB Hv.
  - cbn [lines] in H. injection H as <- <-. cbn [volume sum_cents].
    rewrite !Z.add_0_r. auto 7.
  - apply lines_inv_cons in H.
    destruct H as [b [bd' [tot1 [-> [Hl Hr]]]]].
    inversion HF as [|? ? Fb Fbd]; subst. cbn [volume sum_cents] in *.
    pose proof (volume_nonneg bd') as Hn.
    destruct (line_totals _ _ _ _ _ _ B Hl Fb HW HB ltac:(cbv zeta; lia))
      as [M1 [W1 [E1 [E2 [E3 [E4 E5]]]]]].
    destruct (IH _ _ _ _ _ _ Hr Fbd W1 ltac:(lia) ltac:(lia))
      as [M2 [W2 [G1 [G2 [G3 [G4 G5]]]]]].
    split; [constructor; assumption|].
    split; [|lia].
    replace (B + (Z.abs (cents (taxable_value b))
                  + Z.abs (cents (tax_value b)) + volume bd'))
      with (B + (Z.abs (cents (taxable_value b))
                 + Z.abs (cents (tax_value b))) + volume bd') by lia.
    exact W2.
Qed.

Lemma totals_within_zero : totals_within 0 zero_totals.
Proof.
  unfold totals_within, zero_totals. cbn [total_taxable total_tax total_cgst
    total_sgst total_igst].
  repeat split; try apply money_zero_00; cbn [zero_00 cents]; lia.
Qed.

Lemma invoice_viewer_inv (st : Stored) (ctx : Context) :
  invoice_viewer st = Ok ctx ->
  exists items its s,
    extract_items (load_invoice_data st) = Ok items /\
    iterate items = Ok its /\
    lines (invoice_type ctx) (tax_mode ctx) zero_totals its
    = Ok (breakdown ctx, totals ctx) /\
    add (total_taxable (totals ctx)) (total_tax (totals ctx)) = Ok s /\
    quantize s cent ROUND_HALF_EVEN = Ok (grand_total ctx).
Proof.
  intros H. unfold invoice_viewer in H.
  inv_bind H. inv_bind H. inv_bind H. inv_bind H. destruct a2 as [bd tot].
  inv_bind H. inv_bind H. injection H as <-. cbn.
  exists a0, a1, a2. auto.
Qed.

Local Open Scope Q_scope.

Lemma sum_value_cents (f : LineBreakdown -> Decimal)
    (bd : list LineBreakdown) :
  Forall (fun b => money (f b)) bd ->
  sum_value f bd == inject_Z (sum_cents f bd) / 100.
Proof.
  induction 1 as [|b bd Hb _ IH]; cbn [sum_value sum_cents].
  - reflexivity.
  - rewrite IH, (value_money _ Hb), inject_Z_plus. field.
Qed.

Lemma total_is_sum (f : LineBreakdown -> Decimal) (bd : list LineBreakdown)
    (d : Decimal) :
  Forall (fun b => money (f b)) bd -> money d ->
  cents d = sum_cents f bd -> value d == sum_value f bd.
Proof.
  intros HF Hd E. rewrite (sum_value_cents f bd HF), (value_money d Hd), E.
  reflexivity.
Qed.

(** C6, as stated, fails: the sum of the two taxable values needs 29
    digits, the context rounds it to 28, and the view returns a
    [total_taxable] of [200000000000000000000000000.0], two cents more than
    the sum of the lines. *)
Lemma C6_counterexample :
  exists ctx b1 b2,
    invoice_viewer stored_two_max = Ok ctx /\
    breakdown ctx = [b1; b2] /\
    total_taxable (totals ctx) = Fin false 2000000000000000000000000000 (-1) /\
    ~ value (total_taxable (totals ctx))
      == value (taxable_value b1) + value (taxable_value b2).
Proof.
  eexists. eexists. eexists. split; [vm_compute; reflexivity|].
  cbn [breakdown totals total_taxable taxable_value]. repeat split.
  intros H. vm_compute in H. discriminate H.
Qed.

(** C6 (amended): when every line has finite quantity, rate and tax
    percent and the volume of the invoice (the absolute taxable values and
    tax values of its lines together) stays below [2 * 10^25], each of
    [total_taxable], [total_tax], [total_cgst], [total_sgst] and
    [total_igst] is the exact sum of the field over the lines, and
    [grand_total] is [total_taxable + total_tax], which the final rounding
    to two decimals leaves as it is. *)
Theorem C6_totals (st : Stored) (ctx : Context) :
  invoice_viewer st = Ok ctx ->
  Forall finite_inputs (breakdown ctx) ->
  (volume (breakdown ctx) < 2 * 10 ^ 27)%Z ->
  let bd := breakdown ctx in
  let tot := totals ctx in
  value (total_taxable tot) == sum_value taxable_value bd /\
  value (total_tax tot) == sum_value tax_value bd /\
  value (total_cgst tot) == sum_value cgst bd /\
  value (total_sgst tot) == sum_value sgst bd /\
  value (total_igst tot) == sum_value igst bd /\
  add (total_taxable tot) (total_tax tot) = Ok (grand_total ctx) /\
  quantize (grand_total ctx) cent ROUND_HALF_EVEN = Ok (grand_total ctx) /\
  value (grand_total ctx)
  == sum_value taxable_value bd + sum_value tax_value bd.
Proof.
  intros H HF Hv. cbv zeta.
  apply invoice_viewer_inv in H.
  destruct H as [items [its [s [_ [_ [Hl [Ha Hq]]]]]]].
  pose proof (volume_nonneg (breakdown ctx)) as Hn.
  destruct (lines_totals its _ _ _ _ _ 0%Z Hl HF totals_within_zero
              ltac:(lia) ltac:(lia))
    as [HM [[Wt [Wx [Wc [Ws Wi]]]] [Et [Ex [Ec [Es Ei]]]]]].
  cbn [zero_totals total_taxable total_tax total_cgst total_sgst total_igst
       zero_00 cents] in Et, Ex, Ec, Es, Ei.
  rewrite Z.add_0_l in Et, Ex, Ec, Es, Ei.
  assert (Mt : Forall (fun b => money (taxable_value b)) (breakdown ctx))
    by (eapply Forall_impl; [|exact HM]; intros b Hb; apply Hb).
  assert (Mx : Forall (fun b => money (tax_value b)) (breakdown ctx))
    by (eapply Forall_impl; [|exact HM]; intros b Hb; apply Hb).
  assert (Mc : Forall (fun b => money (cgst b)) (breakdown ctx))
    by (eapply Forall_impl; [|exact HM]; intros b Hb; apply Hb).
  assert (Ms : Forall (fun b => money (sgst b)) (breakdown ctx))
    by (eapply Forall_impl; [|exact HM]; intros b Hb; apply Hb).
  assert (Mi : Forall (fun b => money (igst b)) (breakdown ctx))
    by (eapply Forall_impl; [|exact HM]; intros b Hb; apply Hb).
  destruct (add_within _ _ _ _ _ Wt Wx ltac:(lia) Ha) as [[Mg _] Eg].
  rewrite (quantize_money s _ Mg) in Hq. injection Hq as <-.
  split; [apply total_is_sum; [exact Mt | apply Wt | exact Et]|].
  split; [apply total_is_sum; [exact Mx | apply Wx | exact Ex]|].
  split; [apply total_is_sum; [exact Mc | apply Wc | exact Ec]|].
  split; [apply total_is_sum; [exact Ms | apply Ws | exact Es]|].
  split; [apply total_is_sum; [exact Mi | apply Wi | exact Ei]|].
  split; [exact Ha|]. split; [apply quantize_money; exact Mg|].
  rewrite (sum_value_cents _ _ Mt), (sum_value_cents _ _ Mx).
  rewrite (value_money _ Mg), Eg, Et, Ex, inject_Z_plus. field.
Qed.

Lemma context_example_eq : invoice_viewer stored_example = Ok context_example.
Proof. vm_compute. reflexivity. Qed.

Lemma C6_totals_witness :
  invoice_viewer stored_example = Ok context_example /\
  Forall finite_inputs (breakdown context_example) /\
  (volume (breakdown context_example) < 2 * 10 ^ 27)%Z /\
  value (total_taxable (totals context_example))
  == sum_value taxable_value (breakdown context_example).
Proof.
  assert (HF : Forall finite_inputs (breakdown context_example))
    by (repeat constructor).
  assert (Hv : (volume (breakdown context_example) < 2 * 10 ^ 27)%Z)
    by (vm_compute; reflexivity).
  split; [exact context_example_eq|]. split; [exact HF|]. split; [exact Hv|].
  exact (proj1 (C6_totals stored_example context_example
                  context_example_eq HF Hv)).
Defined.

Local Close Scope Q_scope.

(** ** Fields that are missing or falsy *)

Lemma lookup_remove_same (k : pystr) (d : list (pystr * pyval)) :
  lookup k (remove_key k d) = None.
Proof.
  unfold remove_key. induction d as [|[k' v] d IH]; [reflexivity|].
  cbn [filter fst]. destruct (pystr_eqb k k') eqn:E; cbn [negb].
  - exact IH.
  - cbn [lookup]. rewrite E. exact IH.
Qed.

Lemma lookup_remove_other (k k' : pystr) (d : list (pystr * pyval)) :
  k' <> k -> lookup k' (remove_key k d) = lookup k' d.
Proof.
  intros Hne. unfold remove_key.
  induction d as [|[k'' v] d IH]; [reflexivity|].
  cbn [filter fst lookup].
  destruct (pystr_eqb k k'') eqn:E; cbn [negb].
  - apply pystr_eqb_eq in E. subst k''.
    destruct (pystr_eqb k' k) eqn:E'; [apply pystr_eqb_eq in E'; contradiction|].
    exact IH.
  - cbn [lookup]. rewrite IH. reflexivity.
Qed.

Lemma field_absent (d : list (pystr * pyval)) (key : string) (default : Z) :
  lookup (ustr key) d = None ->
  field (VDict d) key default = Decimal_of_value (VInt default).
Proof.
  intros H. unfold field, get, get_default. rewrite H. reflexivity.
Qed.

Lemma field_falsy (d : list (pystr * pyval)) (key : string) (default : Z)
    (v : pyval) :
  lookup (ustr key) d = Some v -> truthy v = false ->
  field (VDict d) key default = Decimal_of_value (VInt default).
Proof.
  intros H Hv. unfold field, get, get_default, py_or. rewrite H. cbn [bind].
  rewrite Hv. reflexivity.
Qed.

Lemma field_truthy (d : list (pystr * pyval)) (key : string) (default : Z)
    (v : pyval) :
  lookup (ustr key) d = Some v -> truthy v = true ->
  field (VDict d) key default = Decimal_of_value v.
Proof.
  intros H Hv. unfold field, get, get_default, py_or. rewrite H. cbn [bind].
  rewrite Hv. reflexivity.
Qed.

Lemma Decimal_of_one : Decimal_of_value (VInt 1) = Ok (Fin false 1 0).
Proof. vm_compute. reflexivity. Qed.

Lemma Decimal_of_zero : Decimal_of_value (VInt 0) = Ok (Fin false 0 0).
Proof. vm_compute. reflexivity. Qed.

(** A line depends on its item through five reads only. *)
Lemma line_ext (ty : invoice_type_t) (mode : tax_mode_t) (tot : Totals)
    (it it' : pyval) :
  get it "description" = get it' "description" ->
  field it "qty" 1 = field it' "qty" 1 ->
  field it "rate" 0 = field it' "rate" 0 ->
  field it "tax_rate" 0 = field it' "tax_rate" 0 ->
  get it "hsn" = get it' "hsn" ->
  line ty mode tot it = line ty mode tot it'.
Proof.
  intros E1 E2 E3 E4 E5. unfold line. rewrite E1, E2, E3, E4, E5.
  reflexivity.
Qed.

Lemma get_remove_other (k : string) (k' : string) (d : list (pystr * pyval)) :
  ustr k' <> ustr k ->
  get (VDict (remove_key (ustr k) d)) k' = get (VDict d) k'.
Proof.
  intros H. unfold get, get_default. rewrite lookup_remove_other by exact H.
  reflexivity.
Qed.

Lemma field_remove_other (k : string) (k' : string) (default : Z)
    (d : list (pystr * pyval)) :
  ustr k' <> ustr k ->
  field (VDict (remove_key (ustr k) d)) k' default
  = field (VDict d) k' default.
Proof.
  intros H. unfold field. rewrite get_remove_other by exact H. reflexivity.
Qed.

Lemma field_remove_falsy (k : string) (default : Z)
    (d : list (pystr * pyval)) (v : pyval) :
  lookup (ustr k) d = Some v -> truthy v = false ->
  field (VDict (remove_key (ustr k) d)) k default = field (VDict d) k default.
Proof.
  intros H Hv. rewrite (field_falsy d k default v H Hv).
  apply field_absent, lookup_remove_same.
Qed.

Local Open Scope Q_scope.

(** C10, as stated, fails in its equation: with a stored quantity of 0
    the line is computed from [1 * rate], but that product is first
    rounded to the 28 digits of the context.  A rate of thirty digits just
    below 1.005 becomes 1.005 and then 1.01, while the rate rounded half up
    to two decimals is 1.00. *)
Lemma C10_counterexample :
  lookup (ustr "qty") fields_qty_zero_long_rate = Some (VInt 0) /\
  truthy (VInt 0) = false /\
  exists b tot',
    line B2C INTER zero_totals (VDict fields_qty_zero_long_rate)
    = Ok (b, tot') /\
    qty b = Fin false 1 0 /\
    rate b = Fin false 100499999999999999999999999996 (-29) /\
    taxable_value b = Fin false 101 (-2) /\
    round_half_up_2 (1 * value (rate b)) == 1 /\
    ~ value (taxable_value b) == round_half_up_2 (1 * value (rate b)).
Proof.
  split; [reflexivity|]. split; [reflexivity|].
  eexists. eexists. split; [vm_compute; reflexivity|].
  cbn [qty rate taxable_value]. repeat split.
  intros H. vm_compute in H. discriminate H.
Qed.

(** C10 (amended): a quantity, rate or tax rate that is present but falsy
    (0, 0.0, false, an empty string, null, an empty list or object) is
    treated as if the key were absent: the field takes its default (1 for
    the quantity, 0 for the rate and the tax rate) and the line is the one
    the item without the key gives.  In particular a stored quantity of 0
    counts as 1: the taxable value is what the view computes from
    [1 * rate], not 0; it is the rate rounded half up to two decimals when
    the rate is a finite decimal with a coefficient below [10^28] and an
    exponent between -400000 and 400000. *)
Theorem C10_falsy_is_absent (d : list (pystr * pyval)) (key : string)
    (default : Z) (v : pyval) :
  In (key, default)
     [("qty"%string, 1%Z); ("rate"%string, 0%Z); ("tax_rate"%string, 0%Z)] ->
  lookup (ustr key) d = Some v -> truthy v = false ->
  field (VDict d) key default = Ok (Decimal_of_int default) /\
  (forall ty mode tot,
     line ty mode tot (VDict d)
     = line ty mode tot (VDict (remove_key (ustr key) d))) /\
  (key = "qty"%string ->
   forall ty mode tot b tot',
     line ty mode tot (VDict d) = Ok (b, tot') ->
     qty b = Fin false 1 0 /\
     (p <- mul (Fin false 1 0) (rate b) ;; quantize p cent ROUND_HALF_UP)
     = Ok (taxable_value b) /\
     (finite (rate b) -> modest (exponent (rate b)) ->
      (coeff (rate b) < pow10 28)%N ->
      value (taxable_value b) == round_half_up_2 (1 * value (rate b)))).
Proof.
  intros Hin Hl Hv.
  assert (Hf : field (VDict d) key default = Ok (Decimal_of_int default)).
  { rewrite (field_falsy d key default v Hl Hv).
    destruct Hin as [E|[E|[E|[]]]]; injection E as <- <-;
      vm_compute; reflexivity. }
  split; [exact Hf|]. split.
  - intros ty mode tot. symmetry.
    destruct Hin as [E|[E|[E|[]]]]; injection E as <- <-;
      apply line_ext;
      try (apply get_remove_other; vm_compute; discriminate);
      try (apply field_remove_other; vm_compute; discriminate);
      apply (field_remove_falsy _ _ d v Hl Hv).
  - intros -> ty mode tot b tot' H.
    assert (Hd : default = 1%Z).
    { destruct Hin as [E|[E|[E|[]]]]; inversion E; reflexivity. }
    subst default.
    apply line_inv in H. destruct H as [Hq [_ [_ [Ha _]]]].
    rewrite Hf in Hq. injection Hq as Hq. change (Decimal_of_int 1)
      with (Fin false 1 0) in Hq.
    split; [symmetry; exact Hq|].
    rewrite <- Hq in Ha. rewrite line_amounts_unfold in Ha.
    inv_bind Ha. inv_bind Ha. injection Ha as Etv _.
    split; [rewrite <- Etv; exact E|].
    destruct (rate b) as [sr cr er| |]; cbn [finite]; try tauto.
    cbn [exponent coeff]. intros _ Mr Hc.
    apply taxable_value_exact in E;
      [| unfold modest; lia | exact Mr | rewrite N.mul_1_l; exact Hc].
    destruct E as [E _]. rewrite <- Etv, E.
    assert (E1 : 1 * value (Fin sr cr er)
                 == value (Fin (xorb false sr) (1 * cr) (0 + er))).
    { rewrite value_mul. apply Qmult_comp; reflexivity. }
    rewrite E1. symmetry. apply round_half_up_value.
Qed.

Lemma C10_falsy_is_absent_witness :
  In ("qty"%string, 1%Z)
     [("qty"%string, 1%Z); ("rate"%string, 0%Z); ("tax_rate"%string, 0%Z)] /\
  lookup (ustr "qty") fields_qty_zero = Some (VInt 0) /\
  truthy (VInt 0) = false /\
  field (VDict fields_qty_zero) "qty" 1 = Ok (Decimal_of_int 1) /\
  exists b tot',
    line B2C INTER zero_totals (VDict fields_qty_zero) = Ok (b, tot') /\
    taxable_value b = Fin false 10000 (-2).
Proof.
  assert (Hin : In ("qty"%string, 1%Z)
                  [("qty"%string, 1%Z); ("rate"%string, 0%Z);
                   ("tax_rate"%string, 0%Z)]) by (left; reflexivity).
  assert (Hl : lookup (ustr "qty") fields_qty_zero = Some (VInt 0))
    by reflexivity.
  assert (Hv : truthy (VInt 0) = false) by reflexivity.
  split; [exact Hin|]. split; [exact Hl|]. split; [exact Hv|].
  split; [exact (proj1 (C10_falsy_is_absent _ _ _ _ Hin Hl Hv))|].
  eexists. eexists. split; vm_compute; reflexivity.
Defined.

Local Close Scope Q_scope.

(** ** Integers are read back exactly *)

Lemma pow10_7 : pow10 7 = 10000000%N.
Proof. reflexivity. Qed.

Lemma digits_value_app (l : list N) (c : N) :
  digits_value (l ++ [c]) = (digits_value l * 10 + (c - 48))%N.
Proof.
  unfold digits_value. rewrite fold_left_app. reflexivity.
Qed.

(** The digits of a number: ASCII digits that denote it, whatever is
    already written behind them.  The binary size of the number is fuel
    enough. *)
Lemma str_N_fuel_spec (fuel : nat) :
  forall (n : N) (acc : pystr),
    (n < 2 ^ N.of_nat fuel)%N ->
    str_N_fuel fuel n acc = str_N_fuel fuel n [] ++ acc /\
    forallb ascii_digit (str_N_fuel fuel n []) = true /\
    str_N_fuel fuel n [] <> [] /\
    digits_value (str_N_fuel fuel n []) = n.
Proof.
  assert (Hd : forall n : N,
             ascii_digit (48 + n mod 10) = true /\
             (48 + n mod 10 - 48 = n mod 10)%N).
  { intros n. pose proof (N.mod_upper_bound n 10 ltac:(discriminate)) as M.
    unfold ascii_digit. generalize dependent (n mod 10)%N. intros m M.
    split; [|lia].
    destruct (N.leb_spec 48 (48 + m)), (N.leb_spec (48 + m) 57);
      try reflexivity; lia. }
  induction fuel as [|fuel IH]; intros n acc Hn.
  - cbn [str_N_fuel]. destruct (Hd n) as [D1 D2].
    split; [reflexivity|]. split; [cbn [forallb]; rewrite D1; reflexivity|].
    split; [discriminate|].
    unfold digits_value. cbn [fold_left]. rewrite D2.
    change (2 ^ N.of_nat 0)%N with 1%N in Hn.
    assert (n = 0%N) by lia. subst n. reflexivity.
  - cbn [str_N_fuel]. destruct (Hd n) as [D1 D2].
    destruct (N.ltb_spec n 10) as [Hlt|Hge].
    + split; [reflexivity|]. split; [cbn [forallb]; rewrite D1; reflexivity|].
      split; [discriminate|].
      unfold digits_value. cbn [fold_left]. rewrite D2.
      rewrite N.mod_small by assumption. lia.
    + assert (Hdiv : (n / 10 < 2 ^ N.of_nat fuel)%N).
      { rewrite Nat2N.inj_succ, N.pow_succ_r' in Hn.
        apply N.Div0.div_lt_upper_bound. lia. }
      destruct (IH (n / 10)%N [(48 + n mod 10)%N] Hdiv) as [E1 _].
      destruct (IH (n / 10)%N ((48 + n mod 10)%N :: acc) Hdiv) as [E2 _].
      destruct (IH (n / 10)%N [] Hdiv) as [_ [F [Hne V]]].
      rewrite E2, E1.
      split; [rewrite <- app_assoc; reflexivity|].
      split; [rewrite forallb_app, F; cbn [forallb]; rewrite D1; reflexivity|].
      split; [intros C; apply app_eq_nil in C; destruct C; discriminate|].
      rewrite digits_value_app, V, D2.
      pose proof (N.Div0.div_mod n 10). lia.
Qed.

Lemma str_N_spec (n : N) :
  forallb ascii_digit (str_N n) = true /\ str_N n <> [] /\
  digits_value (str_N n) = n.
Proof.
  unfold str_N.
  destruct (str_N_fuel_spec (N.to_nat (N.size n)) n [])
    as [_ H]; [|exact H].
  rewrite N2Nat.id. apply N.size_gt.
Qed.

Lemma ascii_digit_range (c : N) :
  ascii_digit c = true <-> (48 <= c <= 57)%N.
Proof.
  unfold ascii_digit. rewrite andb_true_iff, !N.leb_le. tauto.
Qed.

Lemma ascii_digit_not_space (c : N) :
  ascii_digit c = true -> char_isspace c = false.
Proof.
  intros H. apply ascii_digit_range in H.
  assert (T : forallb (fun n => negb (char_isspace (N.of_nat n)))
                      (seq 48 10) = true) by (vm_compute; reflexivity).
  rewrite forallb_forall in T. specialize (T (N.to_nat c)).
  rewrite N2Nat.id in T. apply negb_true_iff, T, in_seq. lia.
Qed.

(** A string that neither starts nor ends with white space is its own
    [strip]. *)
Lemma strip_id (a : N) (s : pystr) (z : N) :
  char_isspace a = false -> char_isspace z = false ->
  strip (a :: s ++ [z]) = a :: s ++ [z] /\ strip [a] = [a].
Proof.
  intros Ha Hz. unfold strip, lstrip, rstrip. cbn [dropwhile].
  rewrite Ha. split.
  - change (a :: s ++ [z]) with ((a :: s) ++ [z]).
    rewrite rev_app_distr. cbn [rev app dropwhile]. rewrite Hz.
    change (z :: rev s ++ [a]) with ([z] ++ rev (a :: s)).
    rewrite rev_app_distr, rev_involutive. reflexivity.
  - cbn [rev app dropwhile]. rewrite Ha. reflexivity.
Qed.

Lemma strip_digits (s : pystr) :
  forallb ascii_digit s = true -> strip s = s.
Proof.
  intros H. destruct s as [|a s]; [reflexivity|].
  cbn [forallb] in H. apply andb_true_iff in H. destruct H as [Ha Hs].
  destruct (rev s) as [|z r] eqn:R.
  - apply (f_equal (@rev N)) in R. rewrite rev_involutive in R. subst s.
    apply (strip_id a [] a); apply ascii_digit_not_space; exact Ha.
  - apply (f_equal (@rev N)) in R. rewrite rev_involutive in R.
    cbn [rev] in R. subst s.
    rewrite forallb_app in Hs. apply andb_true_iff in Hs.
    destruct Hs as [_ Hz]. cbn [forallb] in Hz. rewrite andb_true_r in Hz.
    apply (strip_id a (rev r) z); apply ascii_digit_not_space; assumption.
Qed.

Lemma numeric_as_ascii_digits (s : pystr) :
  forallb ascii_digit s = true -> numeric_as_ascii s = Some s.
Proof.
  induction s as [|c s IH]; [reflexivity|].
  cbn [forallb numeric_as_ascii]. intros H. apply andb_true_iff in H.
  destruct H as [Hc Hs]. apply ascii_digit_range in Hc.
  destruct (N.eqb_spec c 95); [lia|].
  destruct (N.ltb_spec 0 c); [|lia].
  destruct (N.leb_spec c 127); [|lia].
  cbn [andb]. rewrite (IH Hs). reflexivity.
Qed.

Lemma span_digits_all (s : pystr) :
  forallb ascii_digit s = true -> span_digits s = (s, []).
Proof.
  induction s as [|c s IH]; [reflexivity|].
  cbn [forallb span_digits]. intros H. apply andb_true_iff in H.
  destruct H as [Hc Hs]. rewrite Hc, (IH Hs). reflexivity.
Qed.

(** A string of ASCII digits is read as the number it writes. *)
Lemma Decimal_of_ascii_digits (sign : bool) (s : pystr) :
  forallb ascii_digit s = true -> s <> [] ->
  (digits_value s < pow10 1000000)%N ->
  Decimal_of_ascii (if sign then 45%N :: s else s)
  = Ok (Fin sign (digits_value s) 0).
Proof.
  intros Hs Hne Hb.
  assert (Hsplit : split_sign (if sign then 45%N :: s else s) = (sign, s)).
  { destruct sign; [reflexivity|].
    destruct s as [|c s']; [contradiction|].
    cbn [forallb] in Hs. apply andb_true_iff in Hs. destruct Hs as [Hc _].
    apply ascii_digit_range in Hc. unfold split_sign.
    destruct c as [|p]; [lia|].
    do 6 (destruct p as [p|p|]; try reflexivity; try lia). }
  unfold Decimal_of_ascii. rewrite Hsplit.
  assert (Hnum : parse_number s = Some (digits_value s, 0)).
  { unfold parse_number. rewrite (span_digits_all s Hs).
    rewrite app_nil_r. destruct s; [contradiction | reflexivity]. }
  assert (Hfit : fits_exactly (digits_value s) 0 = true).
  { unfold fits_exactly, MAX_ETINY, MAX_EMAX, adjusted. cbn [Z.leb andb].
    change (-1999999999999999997 <=? 0) with true. cbn [andb].
    destruct (N.eqb_spec (digits_value s) 0); [reflexivity|].
    pose proof (ndigits_le _ 1000000 ltac:(lia) Hb). apply Z.leb_le. lia. }
  destruct s as [|c s']; [contradiction|].
  cbn [forallb] in Hs. apply andb_true_iff in Hs. destruct Hs as [Hc _].
  apply ascii_digit_range in Hc.
  assert (Hl : lower c = c).
  { unfold lower. destruct (N.leb_spec 65 c); [lia | reflexivity]. }
  cbn [map]. rewrite Hl, Hnum, Hfit.
  destruct c as [|p]; [lia|].
  do 7 (destruct p as [p|p|]; try reflexivity; try lia).
Qed.

(** [Decimal(str(n))] is [Decimal(n)] for every [int] the JSON decoder
    can return (it refuses literals of more than 4300 digits). *)
Lemma Decimal_of_value_int (n : Z) :
  Z.abs n < 10 ^ 4300 ->
  Decimal_of_value (VInt n) = Ok (Decimal_of_int n).
Proof.
  intros Hn. cbn [Decimal_of_value]. unfold Decimal_of_string, str_int.
  set (m := Z.to_N (Z.abs n)).
  assert (Em : (if n <? 0 then Z.to_N (- n) else Z.to_N n) = m)
    by (unfold m; destruct (Z.ltb_spec n 0); f_equal; lia).
  destruct (str_N_spec m) as [Hd [Hne Hv]].
  assert (Hb : (digits_value (str_N m) < pow10 1000000)%N).
  { rewrite Hv. unfold m.
    assert (Hp : (pow10 4300 <= pow10 1000000)%N) by (apply pow10_le; lia).
    assert (Hm : (Z.to_N (Z.abs n) < pow10 4300)%N).
    { unfold pow10. change (Z.to_N 4300) with 4300%N.
      apply N2Z.inj_lt. rewrite N2Z.inj_pow, Z2N.id by lia. exact Hn. }
    lia. }
  pose proof (Decimal_of_ascii_digits (n <? 0) (str_N m) Hd Hne Hb) as HD.
  rewrite Hv in HD. unfold Decimal_of_int. fold m.
  destruct (Z.ltb_spec n 0) as [Hneg|Hpos].
  - replace (Z.to_N (- n)) with m by (unfold m; f_equal; lia).
    assert (Hs : strip (45%N :: str_N m) = 45%N :: str_N m).
    { destruct (rev (str_N m)) as [|z r] eqn:R.
      - apply (f_equal (@rev N)) in R. rewrite rev_involutive in R.
        cbn in R. contradiction.
      - apply (f_equal (@rev N)) in R. rewrite rev_involutive in R.
        cbn [rev] in R. rewrite R in *.
        rewrite forallb_app in Hd. apply andb_true_iff in Hd.
        destruct Hd as [_ Hz]. cbn [forallb] in Hz.
        rewrite andb_true_r in Hz.
        apply (strip_id 45 (rev r) z);
          [reflexivity | apply ascii_digit_not_space; exact Hz]. }
    rewrite Hs. cbn [numeric_as_ascii].
    change ((45 =? 95)%N) with false. cbv iota.
    change (((0 <? 45) && (45 <=? 127))%N) with true. cbv iota.
    rewrite (numeric_as_ascii_digits _ Hd). cbn [option_map]. exact HD.
  - replace (Z.to_N n) with m by (unfold m; f_equal; lia).
    rewrite (strip_digits _ Hd), (numeric_as_ascii_digits _ Hd). exact HD.
Qed.

(** Every integer of at most seven digits is usable in a numeric field. *)
Lemma usable_int (n : Z) : Z.abs n < 10 ^ 7 -> usable (VInt n).
Proof.
  intros H. right. exists (Decimal_of_int n). split.
  - apply Decimal_of_value_int. apply Z.lt_trans with (10 ^ 7); [exact H|].
    apply Z.pow_lt_mono_r; lia.
  - unfold Decimal_of_int. split; [rewrite pow10_7; lia | lia].
Qed.

(** ** Plain numbers *)

Lemma get_dict (d : list (pystr * pyval)) (k : string) :
  exists x, get (VDict d) k = Ok x.
Proof.
  unfold get, get_default. destruct (lookup (ustr k) d); eauto.
Qed.

Lemma field_ok_plain (d : list (pystr * pyval)) (key : string) (default : Z) :
  field_ok d key -> default = 0 \/ default = 1 ->
  exists x, field (VDict d) key default = Ok x /\ plain x.
Proof.
  unfold field_ok. intros H Hd.
  assert (Hdef : exists x, Decimal_of_value (VInt default) = Ok x /\ plain x).
  { destruct Hd as [->| ->].
    - exists (Fin false 0 0). split; [exact Decimal_of_zero|].
      split; [apply pow10_pos | lia].
    - exists (Fin false 1 0). split; [exact Decimal_of_one|].
      split; [rewrite pow10_7; lia | lia]. }
  destruct (lookup (ustr key) d) as [v|] eqn:E.
  - destruct (truthy v) eqn:Tv.
    + rewrite (field_truthy d key default v E Tv).
      destruct H as [H|H]; [congruence | exact H].
    + rewrite (field_falsy d key default v E Tv). exact Hdef.
  - rewrite (field_absent d key default E). exact Hdef.
Qed.

(** The amounts of a line of plain numbers: always computed, and small. *)
Lemma line_amounts_plain (q r p : Decimal) :
  plain q -> plain r -> plain p ->
  exists tv xv,
    line_amounts q r p = Ok (tv, xv) /\
    amount_within (10 ^ 16) tv /\ amount_within (10 ^ 23) xv.
Proof.
  destruct q as [sq cq eq| |], r as [sr cr er| |], p as [sp cp ep| |];
    cbn [plain]; try tauto.
  rewrite pow10_7. intros [Hq Eq] [Hr Er] [Hp Ep].
  set (T := half_up_cents (cq * cr) (eq + er)).
  assert (HT : (T <= 100 * (cq * cr))%N)
    by (apply half_up_cents_le_100; lia).
  assert (Hqr : (cq * cr < 100000000000000)%N) by nia.
  assert (HT' : (T < 10000000000000000)%N) by lia.
  assert (HTp : (T * cp < 100000000000000000000000)%N) by nia.
  pose proof (strip_zeros_spec 2 (T * cp) (-2 + ep - 2)) as Hs.
  pose proof (strip_zeros_le 2 (T * cp) (-2 + ep - 2)) as Hle.
  destruct (strip_zeros 2 (T * cp) (-2 + ep - 2)) as [c3 e3] eqn:Es.
  cbn [fst] in Hle. destruct Hs as [_ He3].
  set (X := half_up_cents c3 e3).
  assert (HX : (X <= c3)%N) by (apply half_up_cents_le; lia).
  exists (Fin (xorb sq sr) T (-2)), (Fin (xorb (xorb sq sr) sp) X (-2)).
  split; [|split].
  - unfold line_amounts.
    rewrite mul_exact by (try (rewrite pow10_28; lia); unfold_ctx; lia).
    cbn [bind].
    rewrite quantize_cent by (try (rewrite pow10_28; fold T; lia);
                              unfold_ctx; lia).
    fold T. cbn [bind].
    rewrite mul_exact by (try (rewrite pow10_28; lia); unfold_ctx; lia).
    cbn [bind].
    rewrite truediv_hundred by (try (rewrite pow10_28; lia); unfold_ctx; lia).
    cbn [bind]. rewrite Es. cbn [fst snd].
    rewrite quantize_cent by (try (rewrite pow10_28; fold X; lia);
                              unfold_ctx; lia).
    reflexivity.
  - split; [split; [reflexivity | rewrite pow10_28; lia]|].
    cbn [cents]. destruct (xorb sq sr); lia.
  - split; [split; [reflexivity | rewrite pow10_28; lia]|].
    cbn [cents]. destruct (xorb (xorb sq sr) sp); lia.
Qed.

(** Half an amount, rounded half up to cents. *)
Lemma halve_amount (s : bool) (t : N) :
  (5 * t < pow10 28)%N ->
  (h <- truediv (Fin s t (-2)) (Decimal_of_int 2) ;;
   quantize h cent ROUND_HALF_UP)
  = Ok (Fin s ((t + 1) / 2)%N (-2)).
Proof.
  intros Ht.
  rewrite truediv_two by (try assumption; unfold_ctx; lia).
  cbn [bind]. change (-2 - 1) with (-3).
  rewrite <- half_cents. apply quantize_cent.
  - pose proof (strip_zeros_spec 1 (5 * t) (-3)) as Hs.
    destruct (strip_zeros 1 (5 * t) (-3)) as [c' e']. cbn [snd].
    unfold_ctx. lia.
  - rewrite half_cents. rewrite pow10_28 in *.
    apply N.Div0.div_lt_upper_bound. lia.
Qed.

Lemma line_split_returns (mode : tax_mode_t) (tot : Totals) (xv : Decimal)
    (B : Z) :
  amount_within (10 ^ 23) xv -> totals_within B tot ->
  B + 10 ^ 23 < 10 ^ 28 ->
  returns (line_split mode tot xv).
Proof.
  intros [Mx Hx] [_ [_ [Wc [Ws Wi]]]] HB. unfold returns, line_split.
  destruct mode.
  - destruct xv as [s t e| |]; cbn [money] in Mx; try contradiction.
    destruct Mx as [-> Ht]. cbn [cents] in Hx.
    assert (H5 : (5 * t < pow10 28)%N)
      by (rewrite pow10_28; destruct s; lia).
    pose proof (halve_amount s t H5) as Hh.
    destruct (truediv (Fin s t (-2)) (Decimal_of_int 2)) as [h|];
      cbn [bind] in *; [|discriminate].
    rewrite Hh. cbn [bind].
    assert (Mc : amount_within (10 ^ 23) (Fin s ((t + 1) / 2)%N (-2))).
    { pose proof (N.Div0.div_mod (t + 1) 2) as D.
      split.
      - split; [reflexivity|]. rewrite pow10_28 in *.
        apply N.Div0.div_lt_upper_bound. lia.
      - cbn [cents]. generalize dependent ((t + 1) mod 2)%N.
        generalize dependent ((t + 1) / 2)%N. intros; destruct s; lia. }
    destruct Wc as [Mtc Htc], Ws as [Mts Hts], Mc as [Mc Hc].
    destruct (add_money _ _ Mtc Mc ltac:(lia)) as [tc [Etc _]].
    destruct (add_money _ _ Mts Mc ltac:(lia)) as [ts [Ets _]].
    rewrite Etc, Ets. cbn [bind]. eauto.
  - destruct Wi as [Mti Hti].
    destruct (add_money _ _ Mti Mx ltac:(lia)) as [ti [Eti _]].
    rewrite Eti. cbn [bind]. eauto.
Qed.

Lemma hsn_check_ok (ty : invoice_type_t) (d : list (pystr * pyval)) :
  hsn_ok d ->
  exists h w,
    get (VDict d) "hsn" = Ok h /\ hsn_check ty (py_or h (VStr [])) = Ok w.
Proof.
  unfold hsn_ok, get, get_default, py_or.
  destruct (lookup (ustr "hsn") d) as [v|].
  - intros [Hv|[s ->]].
    + exists v. rewrite Hv. rewrite hsn_check_str. eauto.
    + exists (VStr s). destruct (truthy (VStr s)); rewrite hsn_check_str; eauto.
  - intros _. exists VNone. cbn [truthy]. rewrite hsn_check_str. eauto.
Qed.

(** ** Products beyond the precision *)

(** [_fix] on a coefficient that may have more than 28 digits, away from
    the ends of the exponent range: the value is left alone when the
    coefficient fits, else its last digits are rounded away, which raises
    it by one unit of the last digit kept at most; the exponent goes one
    further only when the kept digits were all nines. *)
Lemma fix_round (s : bool) (c : N) (e : Z) :
  c <> 0%N -> Etiny + 27 <= e -> ndigits c + e - prec < Etop ->
  exists c' e',
    fix_ (Fin s c e) = Ok (Fin s c' e') /\ (c' < pow10 28)%N /\
    ((c' = c /\ e' = e) \/
     (28 < ndigits c /\
      (e' = ndigits c + e - 28 \/
       (e' = ndigits c + e - 27 /\
        (pow10 28 * pow10 (ndigits c - 28)
         <= c + pow10 (ndigits c - 28))%N)) /\
      (c' * pow10 (e' - e) <= c + pow10 (e' - e))%N)).
Proof.
  intros Hnz He Htop. unfold fix_.
  destruct (N.eqb_spec c 0) as [|_]; [contradiction|].
  destruct (ndigits_spec c Hnz) as [Hn1 [Hlo Hhi]].
  set (nd := ndigits c) in *. cbv zeta.
  destruct (Z.ltb_spec Etop (nd + e - prec)) as [|_]; [lia|].
  destruct (Z.ltb_spec (nd + e - prec) Etiny) as [|_];
    [unfold Etiny, prec in *; lia|].
  destruct (Z.ltb_spec e (nd + e - prec)) as [Hr|Hr].
  - replace (nd + e - (nd + e - prec)) with 28 by (unfold prec; lia).
    unfold round_coeff. change (28 <? 0) with false. cbv iota. fold nd.
    set (D := pow10 (nd - 28)).
    assert (HD : (0 < D)%N) by apply pow10_pos.
    assert (Ehi : pow10 nd = (pow10 28 * D)%N).
    { unfold D. rewrite <- pow10_add by (unfold prec in *; lia).
      f_equal. lia. }
    assert (E10 : pow10 (nd - 27) = (10 * D)%N).
    { unfold D. rewrite <- pow10_succ by (unfold prec in *; lia).
      f_equal. lia. }
    pose proof (N.Div0.mul_div_le c D) as Hk.
    assert (Hk28 : (c / D < pow10 28)%N)
      by (apply N.Div0.div_lt_upper_bound; lia).
    set (kept := (c / D)%N) in *.
    destruct (round_up ROUND_HALF_EVEN c (nd - 28)).
    + destruct (Z.ltb_spec prec (ndigits (kept + 1))) as [Hc|Hc].
      * destruct (Z.ltb_spec Etop (nd + e - prec + 1)) as [|_]; [lia|].
        exists ((kept + 1) / 10)%N, (nd + e - prec + 1).
        split; [reflexivity|].
        pose proof (N.Div0.mul_div_le (kept + 1) 10) as H10.
        split.
        { rewrite pow10_28 in *. apply N.Div0.div_lt_upper_bound. lia. }
        right. unfold prec in *. split; [lia|].
        split.
        { right. split; [lia|]. fold D.
          assert (Hge : (pow10 28 <= kept + 1)%N).
          { destruct (N.le_gt_cases (pow10 28) (kept + 1)) as [|Hlt];
              [assumption|].
            pose proof (ndigits_le _ 28 ltac:(lia) Hlt). lia. }
          nia. }
        replace (nd + e - 28 + 1 - e) with (nd - 27) by lia.
        rewrite E10. nia.
      * exists (kept + 1)%N, (nd + e - prec).
        split; [reflexivity|].
        split; [apply ndigits_bound; unfold prec in Hc; lia|].
        right. unfold prec in *. split; [lia|].
        split; [left; lia|].
        replace (nd + e - 28 - e) with (nd - 28) by lia. fold D. nia.
    + exists kept, (nd + e - prec).
      split; [reflexivity|]. split; [exact Hk28|].
      right. unfold prec in *. split; [lia|].
      split; [left; lia|].
      replace (nd + e - 28 - e) with (nd - 28) by lia. fold D. nia.
  - exists c, e. split; [reflexivity|].
    split; [apply ndigits_bound; unfold prec in Hr; fold nd; lia|].
    left. split; reflexivity.
Qed.

(** A non-zero coefficient that stays below [10^k] at its exponent has at
    most [k] digits before the decimal point. *)
Lemma ndigits_scaled (c : N) (e k : Z) :
  c <> 0%N -> 0 <= e + scale -> 0 <= k + scale ->
  (c * pow10 (e + scale) < pow10 (k + scale))%N -> ndigits c + e <= k.
Proof.
  intros Hnz He Hk H.
  destruct (ndigits_spec c Hnz) as [Hn1 [Hlo _]].
  assert (Hlt : (pow10 (ndigits c - 1 + (e + scale)) < pow10 (k + scale))%N).
  { rewrite pow10_add by lia. pose proof (pow10_pos (e + scale)). nia. }
  apply pow10_lt_inv in Hlt. lia.
Qed.

(** Rounding to cents is off by half a cent at most. *)
Lemma half_up_cents_scaled (c : N) (e : Z) :
  0 <= e + scale ->
  (2 * half_up_cents c e * pow10 (scale - 2)
   <= 2 * (c * pow10 (e + scale)) + pow10 (scale - 2))%N.
Proof.
  intros He. unfold half_up_cents.
  destruct (Z.leb_spec (-2) e) as [Hx|Hx].
  - replace (e + scale) with ((e + 2) + (scale - 2)) by lia.
    rewrite (pow10_add (e + 2) (scale - 2)) by (unfold scale; lia). lia.
  - replace (scale - 2) with ((-2 - e) + (e + scale)) by lia.
    rewrite (pow10_add (-2 - e) (e + scale)) by lia.
    pose proof (pow10_pos (-2 - e)) as Hp.
    pose proof (N.Div0.mul_div_le (2 * c + pow10 (-2 - e))
                  (2 * pow10 (-2 - e))) as Hd.
    set (h := ((2 * c + pow10 (-2 - e)) / (2 * pow10 (-2 - e)))%N) in *.
    nia.
Qed.

(** Dividing by a hundred, at the scale. *)
Lemma strip_zeros_scaled (c : N) (e : Z) :
  0 <= e - 2 + scale ->
  let ce := strip_zeros 2 c (e - 2) in
  (100 * (fst ce * pow10 (snd ce + scale)) = c * pow10 (e + scale))%N /\
  e - 2 <= snd ce <= e.
Proof.
  intros He. pose proof (strip_zeros_spec 2 c (e - 2)) as Hs.
  destruct (strip_zeros 2 c (e - 2)) as [c' e']. cbn [fst snd].
  destruct Hs as [-> Hb]. split; [|change (Z.of_nat 2) with 2 in Hb; lia].
  assert (E1 : pow10 (e + scale) = (100 * pow10 (e - 2 + scale))%N).
  { replace (e + scale) with (2 + (e - 2 + scale)) by lia.
    rewrite (pow10_add 2 (e - 2 + scale)) by lia. reflexivity. }
  assert (E2 : pow10 (e' + scale)
               = (pow10 (e' - (e - 2)) * pow10 (e - 2 + scale))%N).
  { replace (e' + scale) with ((e' - (e - 2)) + (e - 2 + scale)) by lia.
    apply pow10_add; lia. }
  rewrite E1, E2. lia.
Qed.

(** A product that stays below [b * 10^k], for [k] at most zero and [b]
    of at most 28 digits: it is computed, and what the rounding to 28
    digits adds is at most [10^k].  The exponent [j] is [k] at the
    scale. *)
Lemma mul_scaled (sa sb : bool) (ca cb : N) (ea eb j : Z) (b : N) :
  -800002 <= ea + eb <= 800000 -> scale - 2 <= j <= scale ->
  (b + 1 < pow10 28)%N ->
  (ca * cb * pow10 (ea + eb + scale) <= b * pow10 j)%N ->
  exists c e,
    mul (Fin sa ca ea) (Fin sb cb eb) = Ok (Fin (xorb sa sb) c e) /\
    (c < pow10 28)%N /\ ea + eb <= e <= Z.max (ea + eb) (j - scale) /\
    (c * pow10 (e + scale) <= (b + 1) * pow10 j)%N.
Proof.
  intros He Hj Hb H. rewrite mul_Fin.
  set (A := (ca * cb)%N) in *. set (a := ea + eb) in *.
  pose proof (pow10_pos j) as HP.
  destruct (N.eq_dec A 0) as [E0|Hnz].
  - exists 0%N, a. rewrite E0.
    split; [apply fix_id; [apply pow10_pos | unfold_ctx; lia]|].
    split; [apply pow10_pos|]. split; lia.
  - assert (Hn : ndigits A + a <= 28 + j - scale).
    { apply ndigits_scaled; [exact Hnz | unfold scale; lia
                             | unfold scale in *; lia |].
      replace (28 + j - scale + scale) with (28 + j) by lia.
      rewrite (pow10_add 28 j) by (unfold scale in *; lia). nia. }
    destruct (fix_round (xorb sa sb) A a Hnz) as [c [e [Ef [Hc Hcase]]]];
      [unfold_ctx; lia | unfold_ctx; lia|].
    exists c, e. split; [exact Ef|]. split; [exact Hc|].
    destruct Hcase as [[-> ->]|[H1 [H3 H4]]].
    + split; lia.
    + pose proof (pow10_pos (a + scale)) as Hpa.
      assert (He' : e <= j - scale).
      { destruct H3 as [->|[-> H3]]; [lia|].
        destruct (Z_lt_le_dec (ndigits A + a - 28) (j - scale)) as [|Hge];
          [lia|].
        assert (Ej : pow10 j
                     = (pow10 (ndigits A - 28) * pow10 (a + scale))%N).
        { replace j with ((ndigits A - 28) + (a + scale)) at 1 by lia.
          apply pow10_add; unfold scale in *; lia. }
        assert (H5 : (pow10 28 * pow10 j
                      <= A * pow10 (a + scale) + pow10 j)%N)
          by (rewrite Ej; nia).
        nia. }
      assert (Hee : a < e) by (destruct H3 as [->|[-> _]]; lia).
      split; [lia|].
      assert (E1 : pow10 (e + scale)
                   = (pow10 (e - a) * pow10 (a + scale))%N).
      { replace (e + scale) with ((e - a) + (a + scale)) by lia.
        apply pow10_add; unfold scale; lia. }
      assert (Hle : (pow10 (e + scale) <= pow10 j)%N)
        by (apply pow10_le; lia).
      assert (H6 : (c * pow10 (e + scale)
                    <= A * pow10 (a + scale) + pow10 (e + scale))%N)
        by (rewrite E1; nia).
      lia.
Qed.

(** An integer number of cents that a rounding to cents cannot pass. *)
Lemma half_up_cents_below (c : N) (e : Z) (b : N) :
  0 <= e + scale ->
  (c * pow10 (e + scale) <= (b + 1) * pow10 (scale - 2))%N ->
  (half_up_cents c e <= b + 1)%N.
Proof.
  intros He H. pose proof (half_up_cents_scaled c e He) as Hh.
  pose proof (pow10_pos (scale - 2)) as HP.
  set (P := pow10 (scale - 2)) in *. set (T := half_up_cents c e) in *.
  set (V := (c * pow10 (e + scale))%N) in *.
  destruct (N.le_gt_cases T (b + 1)) as [|Hgt]; [assumption|].
  assert ((b + 2) * P <= T * P)%N by (apply N.mul_le_mono_r; lia).
  nia.
Qed.

(** The amounts of a line whose taxable value is at most [m] cents and
    whose tax is at most [m2] cents, before any rounding, both of at most
    28 digits: they are computed, and the roundings add at most a cent to
    each. *)
Lemma line_amounts_bounded (sq sr sp : bool) (cq cr cp : N) (eq er ep : Z)
    (m m2 : N) :
  modest eq -> modest er -> modest ep ->
  (m + 1 < pow10 28)%N -> (m2 + 1 < pow10 28)%N ->
  (cq * cr * pow10 (eq + er + scale) <= m * pow10 (scale - 2))%N ->
  ((m + 1) * cp * pow10 (ep - 2 + scale) <= m2 * pow10 scale)%N ->
  exists T X,
    line_amounts (Fin sq cq eq) (Fin sr cr er) (Fin sp cp ep)
    = Ok (Fin (xorb sq sr) T (-2), Fin (xorb (xorb sq sr) sp) X (-2)) /\
    (T <= m + 1)%N /\ (X <= m2 + 1)%N.
Proof.
  unfold modest. intros Mq Mr Mp Hm Hm2 H1 H2.
  destruct (mul_scaled sq sr cq cr eq er (scale - 2) m
              ltac:(lia) ltac:(lia) Hm H1)
    as [c1 [e1 [E1 [Hc1 [He1 B1]]]]].
  set (T := half_up_cents c1 e1).
  assert (HT : (T <= m + 1)%N)
    by (apply half_up_cents_below; [unfold scale; lia | exact B1]).
  assert (HT28 : (T < pow10 28)%N) by lia.
  assert (H3 : (T * cp * pow10 (-2 + ep + scale) <= m2 * pow10 scale)%N).
  { replace (-2 + ep + scale) with (ep - 2 + scale) by lia.
    apply N.le_trans with (2 := H2).
    apply N.mul_le_mono_r. apply N.mul_le_mono_r. exact HT. }
  destruct (mul_scaled (xorb sq sr) sp T cp (-2) ep scale m2
              ltac:(lia) ltac:(lia) Hm2 H3)
    as [c3 [e3 [E3 [Hc3 [He3 B3]]]]].
  pose proof (strip_zeros_scaled c3 e3 ltac:(unfold scale; lia)) as Hs.
  destruct (strip_zeros 2 c3 (e3 - 2)) as [c4 e4] eqn:Es.
  cbn [fst snd] in Hs. cbv zeta in Hs. destruct Hs as [Hs He4].
  set (X := half_up_cents c4 e4).
  assert (EU : pow10 scale = (100 * pow10 (scale - 2))%N)
    by (replace scale with (2 + (scale - 2)) at 1 by lia;
        rewrite (pow10_add 2 (scale - 2)) by (unfold scale; lia);
        reflexivity).
  assert (HX : (X <= m2 + 1)%N).
  { apply half_up_cents_below; [unfold scale; lia|]. rewrite EU in B3. lia. }
  assert (HX28 : (X < pow10 28)%N) by lia.
  exists T, X. split; [|split; assumption].
  unfold line_amounts. rewrite E1. cbn [bind].
  rewrite quantize_cent by (try exact HT28; unfold_ctx; lia).
  fold T. cbn [bind]. rewrite E3. cbn [bind].
  rewrite truediv_hundred by (try exact Hc3; unfold_ctx; lia).
  cbn [bind]. rewrite Es. cbn [fst snd].
  rewrite quantize_cent by (try exact HX28; unfold_ctx; lia).
  reflexivity.
Qed.

(** ** Halves beyond the precision *)

(** Halving, whatever the size of the coefficient: the exact half, five
    times the coefficient one decimal further out, goes through
    [_fix]. *)
Lemma truediv_two_fix (s : bool) (c : N) (e : Z) :
  (c < pow10 28)%N ->
  truediv (Fin s c e) (Decimal_of_int 2)
  = fix_ (Fin s (fst (strip_zeros 1 (5 * c) (e - 1)))
                (snd (strip_zeros 1 (5 * c) (e - 1)))).
Proof.
  intros Hc. unfold truediv, Decimal_of_int.
  change (2 <? 0) with false. change (Z.to_N (Z.abs 2)) with 2%N.
  cbn [check_nans]. cbn [N.eqb]. rewrite xorb_false_r.
  destruct (N.eqb_spec c 0) as [->|Hnz].
  - cbn [strip_zeros]. change ((5 * 0)%N) with 0%N.
    change ((0 mod 10 =? 0)%N) with true. cbv iota. cbn [fst snd].
    replace (e - 1 + 1) with (e - 0) by lia. reflexivity.
  - rewrite ndigits_two.
    pose proof (ndigits_le c 28 ltac:(lia) Hc) as Hn.
    pose proof (ndigits_pos c) as Hn1.
    set (shift := 1 - ndigits c + prec + 1).
    assert (Hs : 2 <= shift) by (unfold shift, prec; lia).
    destruct (Z.leb_spec 0 shift) as [_|]; [|lia].
    assert (Ep : (c * pow10 shift = 5 * c * pow10 (shift - 1) * 2)%N).
    { replace shift with ((shift - 1) + 1) at 1 by lia.
      rewrite pow10_succ by lia. lia. }
    rewrite Ep, N.Div0.mod_mul, N.div_mul by discriminate.
    cbn [N.eqb].
    replace (Z.to_nat (e - 0 - (e - 0 - shift))) with (Z.to_nat shift) by lia.
    replace (pow10 (shift - 1)) with (pow10 (Z.of_nat (Z.to_nat (shift - 1))))
      by (f_equal; lia).
    rewrite strip_zeros_pow by lia.
    replace (Z.to_nat shift - Z.to_nat (shift - 1))%nat with 1%nat by lia.
    replace (e - 0 - shift + Z.of_nat (Z.to_nat (shift - 1))) with (e - 1)
      by lia.
    destruct (strip_zeros 1 (5 * c)%N (e - 1)) as [c' e']. reflexivity.
Qed.

(** Half an amount, brought to cents: always computed, and never more
    than the amount. *)
Lemma halve_returns (s : bool) (t : N) :
  (t < pow10 28)%N ->
  exists h,
    (x <- truediv (Fin s t (-2)) (Decimal_of_int 2) ;;
     quantize x cent ROUND_HALF_UP) = Ok (Fin s h (-2)) /\
    (h <= t)%N.
Proof.
  intros Ht.
  destruct (N.lt_ge_cases (5 * t) (pow10 28)) as [H5|H5].
  - exists ((t + 1) / 2)%N. split; [apply halve_amount; exact H5|].
    destruct (N.eq_dec t 0) as [->|Hnz]; [reflexivity|].
    apply N.Div0.div_le_upper_bound. lia.
  - rewrite truediv_two_fix by exact Ht.
    change (-2 - 1) with (-3).
    pose proof (strip_zeros_spec 1 (5 * t) (-3)) as Hs.
    destruct (strip_zeros 1 (5 * t) (-3)) as [c5 e5]. cbn [fst snd].
    destruct Hs as [E5 He5]. change (Z.of_nat 1) with 1 in He5.
    pose proof (pow10_pos (e5 - -3)) as Hp.
    rewrite pow10_28 in *.
    assert (Hnz : c5 <> 0%N) by (intros ->; lia).
    assert (Hnd : ndigits c5 <= 29).
    { apply ndigits_le; [lia|].
      change (pow10 29) with 100000000000000000000000000000%N. nia. }
    destruct (fix_round s c5 e5 Hnz) as [c' [e' [Ef [Hc' Hcase]]]];
      [unfold_ctx; lia | unfold_ctx; lia|].
    rewrite Ef. cbn [bind]. rewrite pow10_28 in Hc'.
    destruct Hcase as [[-> ->]|[H1 [H3 H4]]].
    + assert (e5 = -3 \/ e5 = -2) as [->| ->] by lia.
      * change (pow10 (-3 - -3)) with 1%N in E5. lia.
      * change (pow10 (-2 - -3)) with 10%N in E5.
        exists c5. split; [|lia].
        apply quantize_money. split; [reflexivity | rewrite pow10_28; lia].
    + assert (Hn29 : ndigits c5 = 29) by lia.
      rewrite Hn29 in H3. change (pow10 (29 - 28)) with 10%N in H3.
      assert (He' : e' = e5 + 1).
      { destruct H3 as [->|[_ H3]]; [lia|].
        rewrite pow10_28 in H3. assert (c5 <= 5 * t)%N by nia. lia. }
      subst e'. replace (e5 + 1 - e5) with 1 in H4 by lia.
      change (pow10 1) with 10%N in H4.
      assert (e5 = -3 \/ e5 = -2) as [->| ->] by lia.
      * change (pow10 (-3 - -3)) with 1%N in E5.
        exists c'. split; [|lia].
        apply quantize_money. split; [reflexivity | rewrite pow10_28; lia].
      * change (pow10 (-2 - -3)) with 10%N in E5.
        assert (Hlt : (c5 < pow10 28)%N) by (rewrite pow10_28; lia).
        pose proof (ndigits_le c5 28 ltac:(lia) Hlt). lia.
Qed.

(** ** Magnitudes as numbers and as coefficients *)

Local Open Scope Q_scope.

(** An inequality between the numbers two coefficients stand for, read
    at a common scale. *)
Lemma scaled_of_value (c m : N) (e k s : Z) :
  (0 <= e + s)%Z -> (0 <= k + s)%Z ->
  inject_Z (Z.of_N c) * 10 ^ e <= inject_Z (Z.of_N m) * 10 ^ k ->
  (c * pow10 (e + s) <= m * pow10 (k + s))%N.
Proof.
  intros He Hk H. apply N2Z.inj_le. rewrite !N2Z.inj_mul.
  rewrite Zle_Qle, !inject_Z_mult, !pow10_inject by assumption.
  rewrite !Qpower_plus by apply ten_nonzero.
  rewrite !Qmult_assoc. apply Qmult_le_compat_r; [exact H|].
  apply Qlt_le_weak, Qpow10_pos.
Qed.

Lemma inject_N_nonneg (n : N) : 0 <= inject_Z (Z.of_N n).
Proof. change 0 with (inject_Z 0). rewrite <- Zle_Qle. lia. Qed.

Lemma magnitude_nonneg (c : N) (e : Z) : 0 <= inject_Z (Z.of_N c) * 10 ^ e.
Proof.
  apply Qmult_le_0_compat; [apply inject_N_nonneg|].
  apply Qlt_le_weak, Qpow10_pos.
Qed.

(** The least number of whole units above a quantity that is not
    negative. *)
Lemma ceiling_N (x : Q) :
  0 <= x ->
  exists n : N, x <= inject_Z (Z.of_N n) /\ inject_Z (Z.of_N n) < x + 1.
Proof.
  intros Hx. exists (Z.to_N (Qceiling x)).
  pose proof (Qle_ceiling x) as H1. pose proof (Qceiling_lt x) as H2.
  assert (H0 : (0 <= Qceiling x)%Z).
  { rewrite Zle_Qle. change (inject_Z 0) with 0. lra. }
  rewrite Z2N.id by exact H0.
  unfold Z.sub in H2. rewrite inject_Z_plus, inject_Z_opp in H2.
  change (inject_Z 1) with 1 in H2. split; lra.
Qed.

Lemma gross_unfold (sq sr sp : bool) (cq cr cp : N) (eq er ep : Z) :
  gross (Fin sq cq eq) (Fin sr cr er) (Fin sp cp ep)
  == (inject_Z (Z.of_N (cq * cr)) * 10 ^ (eq + er) + (1 # 50))
     * (1 + inject_Z (Z.of_N cp) * 10 ^ ep / 100) + (1 # 50).
Proof.
  unfold gross. rewrite <- value_mul, !value_abs. reflexivity.
Qed.

Lemma gross_nonneg (q r p : Decimal) : 0 <= gross q r p.
Proof.
  unfold gross.
  pose proof (Qabs_nonneg (value q * value r)) as Ha.
  pose proof (Qabs_nonneg (value p)) as Hp.
  set (a := Qabs (value q * value r)) in *.
  set (b := Qabs (value p)) in *.
  assert (H : 0 <= (a + (1 # 50)) * (1 + b / 100)).
  { apply Qmult_le_0_compat; [lra|].
    assert (0 <= b / 100) by (apply Qle_shift_div_l; lra). lra. }
  lra.
Qed.

(** The amounts of a line of finite numbers that comes to [10^26] rupees
    at most: both are computed, they are amounts of money, and together
    they stay within what the line can come to. *)
Lemma line_amounts_gross (q r p : Decimal) :
  finite q -> finite r -> finite p ->
  modest (exponent q) -> modest (exponent r) -> modest (exponent p) ->
  gross q r p <= 10 ^ 26 ->
  exists tv xv,
    line_amounts q r p = Ok (tv, xv) /\ money tv /\ money xv /\
    inject_Z (Z.abs (cents tv) + Z.abs (cents xv)) <= 100 * gross q r p.
Proof.
  destruct q as [sq cq eq| |], r as [sr cr er| |], p as [sp cp ep| |];
    cbn [finite exponent]; try tauto.
  intros _ _ _ Mq Mr Mp.
  pose proof (gross_unfold sq sr sp cq cr cp eq er ep) as EG.
  change (10 ^ 26) with (100000000000000000000000000 # 1).
  pose proof (magnitude_nonneg (cq * cr) (eq + er)) as Ha.
  pose proof (magnitude_nonneg cp ep) as Hp.
  set (a := inject_Z (Z.of_N (cq * cr)) * 10 ^ (eq + er)) in *.
  set (pa := inject_Z (Z.of_N cp) * 10 ^ ep) in *.
  intros HG. rewrite EG in HG.
  assert (Hy : 0 <= pa / 100) by (apply Qle_shift_div_l; lra).
  destruct (ceiling_N (100 * a) ltac:(lra)) as [m [Hm1 Hm2]].
  assert (Hw : 0 <= (inject_Z (Z.of_N m) + 1) * (pa / 100)).
  { apply Qmult_le_0_compat; [|exact Hy].
    pose proof (inject_N_nonneg m). lra. }
  destruct (ceiling_N _ Hw) as [m2 [Hn1 Hn2]].
  assert (Hxy : (inject_Z (Z.of_N m) + 1) * (pa / 100)
                <= (100 * a + 2) * (pa / 100))
    by (apply Qmult_le_compat_r; [lra | exact Hy]).
  set (y := pa / 100) in *.
  assert (Hm28 : (m + 1 < pow10 28)%N).
  { rewrite pow10_28. apply N2Z.inj_lt.
    rewrite N2Z.inj_add, Zlt_Qlt, inject_Z_plus.
    change (inject_Z (Z.of_N 1)) with 1.
    change (inject_Z (Z.of_N 10000000000000000000000000000))
      with (10000000000000000000000000000 # 1).
    lra. }
  assert (Hm228 : (m2 + 1 < pow10 28)%N).
  { rewrite pow10_28. apply N2Z.inj_lt.
    rewrite N2Z.inj_add, Zlt_Qlt, inject_Z_plus.
    change (inject_Z (Z.of_N 1)) with 1.
    change (inject_Z (Z.of_N 10000000000000000000000000000))
      with (10000000000000000000000000000 # 1).
    lra. }
  assert (H1 : (cq * cr * pow10 (eq + er + scale)
                <= m * pow10 (scale - 2))%N).
  { replace (scale - 2)%Z with (-2 + scale)%Z by lia.
    unfold modest in *.
    apply scaled_of_value; [unfold scale; lia | unfold scale; lia |].
    fold a. change (10 ^ (-2)) with (1 # 100). lra. }
  assert (H2 : ((m + 1) * cp * pow10 (ep - 2 + scale)
                <= m2 * pow10 scale)%N).
  { change (pow10 scale) with (pow10 (0 + scale)).
    unfold modest in *.
    apply scaled_of_value; [unfold scale; lia | unfold scale; lia |].
    rewrite N2Z.inj_mul, N2Z.inj_add, inject_Z_mult, inject_Z_plus.
    change (inject_Z (Z.of_N 1)) with 1. change (10 ^ 0) with 1.
    replace (ep - 2)%Z with (ep + -2)%Z by lia.
    rewrite Qpower_plus by apply ten_nonzero.
    change (10 ^ (-2)) with (1 # 100).
    assert (E : (inject_Z (Z.of_N m) + 1) * inject_Z (Z.of_N cp)
                * (10 ^ ep * (1 # 100))
                == (inject_Z (Z.of_N m) + 1) * y).
    { unfold y, pa. field. }
    rewrite E. lra. }
  destruct (line_amounts_bounded sq sr sp cq cr cp eq er ep m m2
              Mq Mr Mp Hm28 Hm228 H1 H2) as [T [X [E [HT HX]]]].
  exists (Fin (xorb sq sr) T (-2)), (Fin (xorb (xorb sq sr) sp) X (-2)).
  split; [exact E|].
  assert (HT' : inject_Z (Z.of_N T) <= inject_Z (Z.of_N m) + 1).
  { change 1 with (inject_Z 1). rewrite <- inject_Z_plus, <- Zle_Qle. lia. }
  assert (HX' : inject_Z (Z.of_N X) <= inject_Z (Z.of_N m2) + 1).
  { change 1 with (inject_Z 1). rewrite <- inject_Z_plus, <- Zle_Qle. lia. }
  split; [|split].
  - split; [reflexivity | lia].
  - split; [reflexivity | lia].
  - replace (Z.abs (cents (Fin (xorb sq sr) T (-2)))
             + Z.abs (cents (Fin (xorb (xorb sq sr) sp) X (-2))))%Z
      with (Z.of_N T + Z.of_N X)%Z
      by (destruct sq, sr, sp; cbn [cents xorb]; lia).
    rewrite inject_Z_plus, EG. lra.
Qed.

Local Close Scope Q_scope.

(** ** Items within the reach of the precision *)

Lemma field_numeric_reads (d : list (pystr * pyval)) (key : string)
    (default : Z) :
  field_numeric d key -> default = 0 \/ default = 1 ->
  exists x,
    field (VDict d) key default = Ok x /\ finite x /\ modest (exponent x).
Proof.
  unfold field_numeric. intros H Hd.
  assert (Hdef : exists x, Decimal_of_value (VInt default) = Ok x /\
                           finite x /\ modest (exponent x)).
  { destruct Hd as [->| ->].
    - exists (Fin false 0 0). split; [exact Decimal_of_zero|].
      split; [exact I | unfold modest; cbn [exponent]; lia].
    - exists (Fin false 1 0). split; [exact Decimal_of_one|].
      split; [exact I | unfold modest; cbn [exponent]; lia]. }
  destruct (lookup (ustr key) d) as [v|] eqn:E.
  - destruct (truthy v) eqn:Tv.
    + rewrite (field_truthy d key default v E Tv).
      destruct H as [H|H]; [congruence | exact H].
    + rewrite (field_falsy d key default v E Tv). exact Hdef.
  - rewrite (field_absent d key default E). exact Hdef.
Qed.

Lemma hsn_digits_len_strings (l : list pyval) :
  Forall (fun x => exists s, x = VStr s) l -> returns (hsn_digits_len l).
Proof.
  induction 1 as [|x l [s ->] _ [n IH]]; [exists O; reflexivity|].
  cbn [hsn_digits_len isdigit_method bind]. rewrite IH. cbn [bind].
  eexists. reflexivity.
Qed.

Lemma hsn_check_iterable (ty : invoice_type_t) (v : pyval) :
  iterable_of_strings v -> returns (hsn_check ty v).
Proof.
  intros H. unfold hsn_check.
  assert (Hl : exists l, iterate v = Ok l /\
                         Forall (fun x => exists s, x = VStr s) l).
  { destruct v; cbn [iterable_of_strings] in H; try contradiction;
      cbn [iterate]; eexists; (split; [reflexivity|]).
    - apply Forall_forall. intros x Hx. apply in_map_iff in Hx.
      destruct Hx as [c [<- _]]. eexists. reflexivity.
    - exact H.
    - apply Forall_forall. intros x Hx. apply in_map_iff in Hx.
      destruct Hx as [kv [<- _]]. eexists. reflexivity. }
  destruct Hl as [l [-> Hl]]. cbn [bind].
  destruct (hsn_digits_len_strings l Hl) as [n ->]. cbn [bind].
  eexists. reflexivity.
Qed.

Lemma hsn_check_checkable (ty : invoice_type_t) (d : list (pystr * pyval)) :
  hsn_checkable d ->
  exists h w,
    get (VDict d) "hsn" = Ok h /\ hsn_check ty (py_or h (VStr [])) = Ok w.
Proof.
  unfold hsn_checkable, get, get_default, py_or.
  destruct (lookup (ustr "hsn") d) as [v|].
  - intros [Hv|Hv].
    + exists v. rewrite Hv. rewrite hsn_check_str. eauto.
    + exists v. destruct (truthy v).
      * destruct (hsn_check_iterable ty v Hv) as [w Ew]. eauto.
      * rewrite hsn_check_str. eauto.
  - intros _. exists VNone. cbn [truthy]. rewrite hsn_check_str. eauto.
Qed.

(** The split of an amount of tax is computed when the totals have room
    for it within the 28 digits, and leaves totals that have grown by the
    amount at most. *)
Lemma line_split_within (mode : tax_mode_t) (tot : Totals) (xv : Decimal)
    (B k : Z) :
  amount_within k xv -> totals_within B tot -> B + k < 10 ^ 28 ->
  exists c g i tc ts ti,
    line_split mode tot xv = Ok (c, g, i, (tc, ts, ti)) /\
    amount_within (B + k) tc /\ amount_within (B + k) ts /\
    amount_within (B + k) ti.
Proof.
  intros [Mx Hx] [_ [_ [Wc [Ws Wi]]]] HB. unfold line_split.
  assert (Hk : 0 <= k) by lia.
  destruct mode.
  - destruct xv as [s t e| |]; cbn [money] in Mx; try contradiction.
    destruct Mx as [-> Ht]. cbn [cents] in Hx.
    destruct (halve_returns s t Ht) as [h [Hh Hle]].
    destruct (truediv (Fin s t (-2)) (Decimal_of_int 2)) as [x|];
      cbn [bind] in *; [|discriminate].
    rewrite Hh. cbn [bind].
    assert (Mc : money (Fin s h (-2))) by (split; [reflexivity | lia]).
    assert (Hc : Z.abs (cents (Fin s h (-2))) <= k)
      by (cbn [cents]; destruct s; lia).
    destruct Wc as [Mtc Htc], Ws as [Mts Hts].
    destruct (add_money _ _ Mtc Mc ltac:(lia)) as [tc [Etc [Mtc' Ctc]]].
    destruct (add_money _ _ Mts Mc ltac:(lia)) as [ts [Ets [Mts' Cts]]].
    rewrite Etc, Ets. cbn [bind].
    exists (Fin s h (-2)), (Fin s h (-2)), zero_00, tc, ts, (total_igst tot).
    split; [reflexivity|].
    split; [split; [exact Mtc' | lia]|].
    split; [split; [exact Mts' | lia]|].
    apply amount_within_mono with (2 := Wi). lia.
  - destruct Wi as [Mti Hti].
    destruct (add_money _ _ Mti Mx ltac:(lia)) as [ti [Eti [Mti' Cti]]].
    rewrite Eti. cbn [bind].
    exists zero_00, zero_00, xv, (total_cgst tot), (total_sgst tot), ti.
    split; [reflexivity|].
    split; [apply amount_within_mono with (2 := Wc); lia|].
    split; [apply amount_within_mono with (2 := Ws); lia|].
    split; [exact Mti' | lia].
Qed.

Local Open Scope Q_scope.

Lemma item_gross_nonneg (it : pyval) : 0 <= item_gross it.
Proof.
  unfold item_gross.
  destruct (field it "qty" 1); [|apply Qle_refl].
  destruct (field it "rate" 0); [|apply Qle_refl].
  destruct (field it "tax_rate" 0); [|apply Qle_refl].
  apply gross_nonneg.
Qed.

Lemma items_gross_nonneg (its : list pyval) : 0 <= items_gross its.
Proof.
  induction its as [|it its IH]; cbn [items_gross]; [apply Qle_refl|].
  pose proof (item_gross_nonneg it). lra.
Qed.

(** A workable item gives a line, whatever the type and the mode, as
    long as what the totals hold and what the line can come to stay
    below [10^26] rupees together; the two amounts of the line are added
    to their totals exactly. *)
Lemma line_workable (ty : invoice_type_t) (mode : tax_mode_t) (tot : Totals)
    (it : pyval) (B : Z) :
  workable it -> totals_within B tot -> (0 <= B)%Z ->
  inject_Z B / 100 + item_gross it < 10 ^ 26 ->
  exists b tot',
    line ty mode tot it = Ok (b, tot') /\ finite_inputs b /\
    let k := (Z.abs (cents (taxable_value b))
              + Z.abs (cents (tax_value b)))%Z in
    inject_Z k <= 100 * item_gross it /\ totals_within (B + k) tot' /\
    cents (total_taxable tot')
    = (cents (total_taxable tot) + cents (taxable_value b))%Z /\
    cents (total_tax tot') = (cents (total_tax tot) + cents (tax_value b))%Z.
Proof.
  intros [d [-> [Hq [Hr [Hp Hh]]]]] HW HB HG.
  destruct (get_dict d "description") as [de Ed].
  destruct (field_numeric_reads d "qty" 1 Hq ltac:(right; reflexivity))
    as [q [Eq [Fq Mq]]].
  destruct (field_numeric_reads d "rate" 0 Hr ltac:(left; reflexivity))
    as [r [Er [Fr Mr]]].
  destruct (field_numeric_reads d "tax_rate" 0 Hp ltac:(left; reflexivity))
    as [p [Ep [Fp Mp]]].
  unfold item_gross in *. rewrite Eq, Er, Ep in *.
  change (10 ^ 26) with (100000000000000000000000000 # 1) in *.
  assert (HB' : 0 <= inject_Z B / 100).
  { apply Qle_shift_div_l; [reflexivity|].
    change (0 * 100) with (inject_Z 0). rewrite <- Zle_Qle. exact HB. }
  destruct (line_amounts_gross q r p Fq Fr Fp Mq Mr Mp)
    as [tv [xv [Ea [Mtv [Mxv Hk]]]]].
  { change (10 ^ 26) with (100000000000000000000000000 # 1). lra. }
  set (k := (Z.abs (cents tv) + Z.abs (cents xv))%Z) in *.
  assert (Hroom : (B + k < 10 ^ 28)%Z).
  { rewrite Zlt_Qlt, inject_Z_plus.
    change (inject_Z (10 ^ 28)) with (10000000000000000000000000000 # 1).
    assert (E : inject_Z B == 100 * (inject_Z B / 100)) by field.
    rewrite E. lra. }
  assert (Wxv : amount_within k xv) by (split; [exact Mxv | unfold k; lia]).
  destruct (line_split_within mode tot xv B k Wxv HW Hroom)
    as [c [g [i [tc [ts [ti [Es [Wtc [Wts Wti]]]]]]]]].
  destruct HW as [[Mtt Htt] [[Mtx Htx] HW']].
  destruct (add_money _ _ Mtt Mtv ltac:(unfold k in Hroom; lia))
    as [tt [Ett [Mtt' Ctt]]].
  destruct (add_money _ _ Mtx Mxv ltac:(unfold k in Hroom; lia))
    as [tx [Etx [Mtx' Ctx]]].
  destruct (hsn_check_checkable ty d Hh) as [h [[w rec] [Eh Ew]]].
  eexists. eexists. split.
  { unfold line. rewrite Ed, Eq, Er, Ep, Eh. cbn [bind].
    rewrite Ea. cbn [bind]. rewrite Es. cbn [bind].
    rewrite Ett, Etx. cbn [bind]. rewrite Ew. cbn [bind]. reflexivity. }
  cbn [taxable_value tax_value total_taxable total_tax]. cbv zeta. fold k.
  split; [repeat split; assumption|].
  split; [exact Hk|].
  split; [|split; assumption].
  unfold totals_within.
  cbn [total_taxable total_tax total_cgst total_sgst total_igst].
  split; [split; [exact Mtt' | unfold k; lia]|].
  split; [split; [exact Mtx' | unfold k; lia]|].
  split; [exact Wtc|]. split; [exact Wts | exact Wti].
Qed.

(** The loop returns on workable items as long as what they can come to
    stays below [10^26] rupees, with what the totals hold already; the
    totals of the taxable values and of the tax grow by the volume of the
    lines at most. *)
Lemma lines_workable (its : list pyval) :
  forall (ty : invoice_type_t) (mode : tax_mode_t) (tot : Totals) (B : Z),
    Forall workable its -> totals_within B tot -> (0 <= B)%Z ->
    inject_Z B / 100 + items_gross its < 10 ^ 26 ->
    exists bd tot',
      lines ty mode tot its = Ok (bd, tot') /\
      List.length bd = List.length its /\
      Forall finite_inputs bd /\
      inject_Z (volume bd) <= 100 * items_gross its /\
      totals_within (B + volume bd) tot' /\
      (Z.abs (cents (total_taxable tot')) + Z.abs (cents (total_tax tot'))
       <= Z.abs (cents (total_taxable tot)) + Z.abs (cents (total_tax tot))
          + volume bd)%Z.
Proof.
  induction its as [|it its IH]; intros ty mode tot B HF HW HB Hroom.
  - exists [], tot. cbn [lines List.length volume items_gross].
    rewrite Z.add_0_r.
    split; [reflexivity|]. split; [reflexivity|].
    split; [constructor|]. split; [apply Qle_refl|].
    split; [exact HW | lia].
  - inversion HF as [|? ? Hit Hits]; subst.
    cbn [items_gross] in Hroom.
    pose proof (items_gross_nonneg its) as Hn.
    pose proof (item_gross_nonneg it) as Hn1.
    destruct (line_workable ty mode tot it B Hit HW HB ltac:(lra))
      as [b [tot1 [El [Fb [Hk [W1 [Ct Cx]]]]]]].
    cbv zeta in Hk, W1.
    set (k := (Z.abs (cents (taxable_value b))
               + Z.abs (cents (tax_value b)))%Z) in *.
    assert (Hk0 : (0 <= k)%Z) by (unfold k; lia).
    assert (Hroom1 : inject_Z (B + k) / 100 + items_gross its < 10 ^ 26).
    { rewrite inject_Z_plus.
      assert (E : (inject_Z B + inject_Z k) / 100
                  == inject_Z B / 100 + inject_Z k / 100) by field.
      rewrite E.
      assert (inject_Z k / 100 <= item_gross it)
        by (apply Qle_shift_div_r; [reflexivity | lra]).
      lra. }
    destruct (IH ty mode tot1 (B + k)%Z Hits W1 ltac:(lia) Hroom1)
      as [bd [tot' [Els [Hlen [HFb [Hv [HW' Hs]]]]]]].
    exists (b :: bd), tot'. cbn [lines]. rewrite El. cbn [bind].
    rewrite Els. cbn [bind List.length volume items_gross]. fold k.
    split; [reflexivity|]. split; [congruence|].
    split; [constructor; assumption|]. split; [|split].
    + rewrite inject_Z_plus. lra.
    + replace (B + (k + volume bd))%Z with (B + k + volume bd)%Z by lia.
      exact HW'.
    + unfold k in *. lia.
Qed.

Local Close Scope Q_scope.

(** ** Values the view cannot work with *)

(** C1, as stated, fails: a quantity that is not a numeric string is not
    replaced by the default; [Decimal] raises [InvalidOperation], no
    breakdown entry is produced and the whole view fails. *)
Lemma C1_counterexample :
  Decimal_of_value (VStr (ustr "abc")) = Raise InvalidOperation /\
  line B2C INTER zero_totals item_bad_qty = Raise InvalidOperation /\
  invoice_viewer
    {| business_gst := None; invoice_customer := None;
       invoice_json := Some (VDict [(ustr "items", VList [item_bad_qty])]) |}
  = Raise InvalidOperation.
Proof. vm_compute. repeat split. Qed.

Lemma field_missing_or_null (d : list (pystr * pyval)) (key : string)
    (default : Z) :
  missing_or_null d key ->
  field (VDict d) key default = Decimal_of_value (VInt default).
Proof.
  intros [H|H]; [apply field_absent; exact H|].
  apply (field_falsy d key default VNone H). reflexivity.
Qed.

(** C1 (amended): for an item that is an object whose quantity, rate and
    tax rate are each missing, falsy (null among them) or a value that
    [Decimal(str(v))] reads as a finite number with an exponent between
    -400000 and 400000, and whose HSN code is missing, falsy, a string, an
    object or a list of strings, the line is produced whenever the 28
    digits of the context have room for it: what the line can come to,
    [(|qty * rate| + 0.02) * (1 + |tax_rate| / 100) + 0.02], and the
    largest of the running totals stay below [10^26] together.  A missing
    or null quantity counts as 1, a missing or null rate or tax rate as 0.
    A value that fails the coercion is outside this statement: it
    raises. *)
Theorem C1_line_defaults (d : list (pystr * pyval)) (ty : invoice_type_t)
    (mode : tax_mode_t) (tot : Totals) (B : Z) :
  workable (VDict d) -> totals_within B tot -> 0 <= B ->
  (inject_Z B / 100 + item_gross (VDict d) < 10 ^ 26)%Q ->
  exists b tot',
    line ty mode tot (VDict d) = Ok (b, tot') /\
    (missing_or_null d "qty" -> qty b = Fin false 1 0) /\
    (missing_or_null d "rate" -> rate b = Fin false 0 0) /\
    (missing_or_null d "tax_rate" -> tax_percent b = Fin false 0 0).
Proof.
  intros Hit HW HB Hroom.
  destruct (line_workable ty mode tot (VDict d) B Hit HW HB Hroom)
    as [b [tot' [El _]]].
  exists b, tot'. split; [exact El|].
  apply line_inv in El. destruct El as [Eq [Er [Ep _]]].
  split; [|split]; intros Hm.
  - rewrite (field_missing_or_null d "qty" 1 Hm), Decimal_of_one in Eq.
    congruence.
  - rewrite (field_missing_or_null d "rate" 0 Hm), Decimal_of_zero in Er.
    congruence.
  - rewrite (field_missing_or_null d "tax_rate" 0 Hm), Decimal_of_zero in Ep.
    congruence.
Qed.

Lemma numeric_reads (v : pyval) (s : bool) (c : N) (e : Z) :
  Decimal_of_value v = Ok (Fin s c e) -> -400000 <= e <= 400000 ->
  numeric v.
Proof.
  intros E He. right. exists (Fin s c e).
  split; [exact E|]. split; [exact I | exact He].
Qed.

Lemma workable_null_qty : workable (VDict fields_null_qty).
Proof.
  exists fields_null_qty. split; [reflexivity|].
  split; [left; reflexivity|].
  split; [|split; [exact I | right; exact I]].
  apply (numeric_reads _ false 9950 (-2)); [vm_compute; reflexivity | lia].
Qed.

Lemma workable_large : workable (VDict fields_large).
Proof.
  exists fields_large. split; [reflexivity|].
  split; [apply (numeric_reads _ false 1 3);
          [vm_compute; reflexivity | lia]|].
  split; [apply (numeric_reads _ false 15000000 (-2));
          [vm_compute; reflexivity | lia]|].
  split; [apply (numeric_reads _ false 18 0);
          [vm_compute; reflexivity | lia]|].
  right. exact I.
Qed.

Lemma C1_line_defaults_witness :
  workable (VDict fields_null_qty) /\ totals_within 0 zero_totals /\
  0 <= 0 /\
  (inject_Z 0 / 100 + item_gross (VDict fields_null_qty) < 10 ^ 26)%Q /\
  exists b tot',
    line B2C INTER zero_totals (VDict fields_null_qty) = Ok (b, tot') /\
    (missing_or_null fields_null_qty "qty" -> qty b = Fin false 1 0).
Proof.
  assert (Hroom : (inject_Z 0 / 100 + item_gross (VDict fields_null_qty)
                   < 10 ^ 26)%Q)
    by (vm_compute; reflexivity).
  split; [exact workable_null_qty|]. split; [exact totals_within_zero|].
  split; [lia|]. split; [exact Hroom|].
  destruct (C1_line_defaults fields_null_qty B2C INTER zero_totals 0
              workable_null_qty totals_within_zero (Z.le_refl 0) Hroom)
    as [b [tot' [El [Hq _]]]].
  exists b, tot'. split; [exact El | exact Hq].
Defined.

(** The bound is where the context gives out: a line of [10^26] rupees
    needs 29 digits for its cents. *)
Remark beyond_reach_raises :
  (item_gross item_beyond_reach == 10 ^ 26 + (1 # 25))%Q /\
  line B2C INTER zero_totals item_beyond_reach = Raise InvalidOperation.
Proof. split; vm_compute; reflexivity. Qed.

(** ** The view as a whole *)

(** C2, as stated, fails: a stored line whose rate is the string
    ["12,50"] makes the view raise [InvalidOperation]; nothing is
    returned. *)
Lemma C2_counterexample :
  invoice_viewer stored_decimal_comma = Raise InvalidOperation /\
  ~ returns (invoice_viewer stored_decimal_comma).
Proof.
  assert (H : invoice_viewer stored_decimal_comma = Raise InvalidOperation)
    by (vm_compute; reflexivity).
  split; [exact H|]. intros [ctx Hc]. rewrite H in Hc. discriminate.
Qed.

(** Besides, a null [customer_gst] in the stored JSON of an invoice
    without customer GSTIN raises [AttributeError]: the fallback read
    strips the stored value without the [or ""] that guards the seller
    GSTIN. *)
Remark null_buyer_fallback_raises :
  invoice_viewer
    {| business_gst := None; invoice_customer := None;
       invoice_json := Some (VDict [(ustr "customer_gst", VNone)]) |}
  = Raise AttributeError.
Proof. vm_compute. reflexivity. Qed.

(** C2 (amended): for every seller GSTIN (a string or null), every buyer
    GSTIN that is a string (the customer's, or the one stored in the JSON,
    or none stored at all) and every stored payload whose items form a
    list of workable items -- objects whose quantity, rate and tax rate
    are each missing, falsy or read by [Decimal(str(v))] as a finite
    number with an exponent between -400000 and 400000, and whose HSN
    code is missing, falsy, a string, an object or a list of strings --
    the view returns a context, with one breakdown entry for each item,
    whenever what the lines can come to,
    [(|qty * rate| + 0.02) * (1 + |tax_rate| / 100) + 0.02] each, stays
    below [10^26] over the invoice. *)
Theorem C2_viewer_returns (st : Stored) (raw : pystr) (its : list pyval) :
  buyer_source st raw ->
  extract_items (load_invoice_data st) = Ok (VList its) ->
  Forall workable its -> (items_gross its < 10 ^ 26)%Q ->
  exists ctx,
    invoice_viewer st = Ok ctx /\
    List.length (breakdown ctx) = List.length its /\
    buyer_gst ctx = strip raw /\
    seller_gst ctx = seller_gst_of st.
Proof.
  intros Hb Hi HF HG.
  pose proof (buyer_gst_of_source st raw Hb) as Eb.
  set (ty := invoice_type_of (strip raw)).
  set (mode := tax_mode_of (seller_gst_of st) (strip raw)).
  assert (Hroom : (inject_Z 0 / 100 + items_gross its < 10 ^ 26)%Q).
  { assert (E : (inject_Z 0 / 100 == 0)%Q) by reflexivity.
    rewrite E, Qplus_0_l. exact HG. }
  destruct (lines_workable its ty mode zero_totals 0 HF totals_within_zero
              (Z.le_refl 0) Hroom)
    as [bd [tot [El [Hl [_ [Hv [[[Mt _] [[Mx _] _]] Hs]]]]]]].
  assert (Hv' : volume bd < 10 ^ 28).
  { change (10 ^ 26)%Q with (100000000000000000000000000 # 1)%Q in HG.
    rewrite Zlt_Qlt.
    change (inject_Z (10 ^ 28)) with (10000000000000000000000000000 # 1)%Q.
    lra. }
  cbn [zero_totals total_taxable total_tax zero_00 cents] in Hs.
  destruct (add_money _ _ Mt Mx ltac:(lia)) as [s [Es [Ms _]]].
  eexists. split.
  - unfold invoice_viewer. rewrite Eb. cbn [bind]. rewrite Hi.
    cbn [bind iterate]. fold ty mode. rewrite El. cbn [bind].
    rewrite Es. cbn [bind]. rewrite (quantize_money s _ Ms). cbn [bind].
    reflexivity.
  - cbn [breakdown buyer_gst seller_gst]. auto.
Qed.

Lemma C2_viewer_returns_witness :
  buyer_source stored_large (ustr "29BBBB1111B1Z6") /\
  extract_items (load_invoice_data stored_large)
  = Ok (VList [VDict fields_large; VDict fields_null_qty]) /\
  Forall workable [VDict fields_large; VDict fields_null_qty] /\
  (items_gross [VDict fields_large; VDict fields_null_qty] < 10 ^ 26)%Q /\
  exists ctx,
    invoice_viewer stored_large = Ok ctx /\
    List.length (breakdown ctx) = 2%nat.
Proof.
  assert (Hb : buyer_source stored_large (ustr "29BBBB1111B1Z6")).
  { left. split; [reflexivity | discriminate]. }
  assert (Hi : extract_items (load_invoice_data stored_large)
               = Ok (VList [VDict fields_large; VDict fields_null_qty]))
    by reflexivity.
  assert (Hok : Forall workable [VDict fields_large; VDict fields_null_qty]).
  { constructor; [exact workable_large|].
    constructor; [exact workable_null_qty | constructor]. }
  assert (HG : (items_gross [VDict fields_large; VDict fields_null_qty]
                < 10 ^ 26)%Q)
    by (vm_compute; reflexivity).
  split; [exact Hb|]. split; [exact Hi|]. split; [exact Hok|].
  split; [exact HG|].
  destruct (C2_viewer_returns stored_large _ _ Hb Hi Hok HG)
    as [ctx [H [Hl _]]].
  exists ctx. split; [exact H | exact Hl].
Defined.

(** * Further properties *)

(** ** A B2C invoice *)

Lemma context_blank_customer_eq :
  invoice_viewer stored_blank_customer = Ok context_blank_customer.
Proof. vm_compute. reflexivity. Qed.

(** ** White space around the GSTINs *)

Lemma dropwhile_app_all {A : Type} (p : A -> bool) (w l : list A) :
  forallb p w = true -> dropwhile p (w ++ l) = dropwhile p l.
Proof.
  induction w as [|x w IH]; [reflexivity|].
  cbn [forallb app dropwhile]. intros H. apply andb_true_iff in H.
  destruct H as [Hx Hw]. rewrite Hx. exact (IH Hw).
Qed.

Lemma dropwhile_app_stop {A : Type} (p : A -> bool) (l m : list A) :
  dropwhile p l <> [] -> dropwhile p (l ++ m) = dropwhile p l ++ m.
Proof.
  induction l as [|x l IH]; cbn [dropwhile app]; [congruence|].
  destruct (p x); [exact IH | reflexivity].
Qed.

Lemma dropwhile_split {A : Type} (p : A -> bool) (l : list A) :
  exists w, l = w ++ dropwhile p l /\ forallb p w = true.
Proof.
  induction l as [|x l [w [E F]]]; [exists []; auto|].
  cbn [dropwhile]. destruct (p x) eqn:Hx.
  - exists (x :: w). cbn [app forallb]. rewrite Hx, F. split; [congruence|auto].
  - exists []. auto.
Qed.

Lemma forallb_rev {A : Type} (p : A -> bool) (l : list A) :
  forallb p (rev l) = forallb p l.
Proof.
  induction l as [|x l IH]; [reflexivity|].
  cbn [rev forallb]. rewrite forallb_app, IH. cbn [forallb].
  rewrite andb_true_r. apply andb_comm.
Qed.

Lemma rstrip_pad (s w : pystr) :
  forallb char_isspace w = true -> rstrip (s ++ w) = rstrip s.
Proof.
  intros H. unfold rstrip. rewrite rev_app_distr.
  rewrite dropwhile_app_all by (rewrite forallb_rev; exact H). reflexivity.
Qed.

(** White space around a string does not show after [strip]. *)
Lemma strip_pad (w1 s w2 : pystr) :
  forallb char_isspace w1 = true -> forallb char_isspace w2 = true ->
  strip (w1 ++ s ++ w2) = strip s.
Proof.
  intros H1 H2. unfold strip, lstrip.
  rewrite dropwhile_app_all by exact H1.
  destruct (dropwhile char_isspace s) as [|x l] eqn:D.
  - apply dropwhile_nil_iff in D.
    assert (F : forallb char_isspace (s ++ w2) = true)
      by (rewrite forallb_app, D, H2; reflexivity).
    apply dropwhile_nil_iff in F. rewrite F. reflexivity.
  - rewrite dropwhile_app_stop by (rewrite D; discriminate).
    rewrite D. apply rstrip_pad. exact H2.
Qed.

(** A string is its [strip] with white space around it. *)
Lemma strip_split (s : pystr) :
  exists w1 w2,
    s = w1 ++ strip s ++ w2 /\
    forallb char_isspace w1 = true /\ forallb char_isspace w2 = true.
Proof.
  destruct (dropwhile_split char_isspace s) as [w1 [E1 F1]].
  destruct (dropwhile_split char_isspace (rev (lstrip s))) as [w2 [E2 F2]].
  exists w1, (rev w2). split; [|split].
  - unfold strip, rstrip. rewrite <- rev_app_distr, <- E2, rev_involutive.
    exact E1.
  - exact F1.
  - rewrite forallb_rev. exact F2.
Qed.

Lemma strip_idempotent (s : pystr) : strip (strip s) = strip s.
Proof.
  destruct (strip_split s) as [w1 [w2 [E [F1 F2]]]].
  rewrite E at 2. symmetry. apply strip_pad; assumption.
Qed.

Lemma strip_blank (s : pystr) :
  forallb char_isspace s = true -> strip s = [].
Proof.
  intros H. unfold strip, lstrip.
  apply dropwhile_nil_iff in H. rewrite H. reflexivity.
Qed.

(** X1: the view strips both GSTINs: white space before or after the seller's
    GSTIN and the customer's GSTIN changes nothing of what it returns, and
    the GSTINs it hands on carry none. *)
Theorem X1_viewer_ignores_gstin_padding (s g w1 w2 w3 w4 : pystr)
    (json : option pyval) :
  forallb char_isspace w1 = true -> forallb char_isspace w2 = true ->
  forallb char_isspace w3 = true -> forallb char_isspace w4 = true ->
  g <> [] ->
  invoice_viewer {| business_gst := Some (w1 ++ s ++ w2);
                    invoice_customer := Some (Some (w3 ++ g ++ w4));
                    invoice_json := json |}
  = invoice_viewer {| business_gst := Some s;
                      invoice_customer := Some (Some g);
                      invoice_json := json |} /\
  (forall ctx,
     invoice_viewer {| business_gst := Some s;
                       invoice_customer := Some (Some g);
                       invoice_json := json |} = Ok ctx ->
     seller_gst ctx = strip s /\ buyer_gst ctx = strip g /\
     strip (seller_gst ctx) = seller_gst ctx /\
     strip (buyer_gst ctx) = buyer_gst ctx).
Proof.
  intros H1 H2 H3 H4 Hg.
  assert (Eb : forall data,
             buyer_gst_of {| business_gst := Some (w1 ++ s ++ w2);
                             invoice_customer := Some (Some (w3 ++ g ++ w4));
                             invoice_json := json |} data = Ok (strip g)).
  { intros data. unfold buyer_gst_of. cbn [invoice_customer].
    destruct (w3 ++ g ++ w4) as [|c r] eqn:E.
    - apply app_eq_nil in E. destruct E as [_ E].
      apply app_eq_nil in E. destruct E as [E _]. contradiction.
    - rewrite <- E. rewrite strip_pad by assumption. reflexivity. }
  assert (Eb' : forall data,
             buyer_gst_of {| business_gst := Some s;
                             invoice_customer := Some (Some g);
                             invoice_json := json |} data = Ok (strip g)).
  { intros data. unfold buyer_gst_of. cbn [invoice_customer].
    destruct g; [contradiction | reflexivity]. }
  split.
  - unfold invoice_viewer. rewrite Eb, Eb'.
    unfold seller_gst_of, load_invoice_data. cbn [business_gst invoice_json].
    rewrite strip_pad by assumption. reflexivity.
  - intros ctx H. apply invoice_viewer_classification in H.
    destruct H as [Hb [Hs _]]. rewrite Eb' in Hb. injection Hb as Hb.
    unfold seller_gst_of in Hs. cbn [business_gst] in Hs.
    rewrite Hs, <- Hb, !strip_idempotent. auto.
Qed.

Lemma X1_viewer_ignores_gstin_padding_witness :
  invoice_viewer {| business_gst := Some ([32%N] ++ ustr "27AAAA0000A1Z5" ++ []);
                    invoice_customer :=
                      Some (Some ([9%N] ++ ustr "27BBBB1111B1Z6" ++ [32%N; 10%N]));
                    invoice_json := None |}
  = invoice_viewer {| business_gst := Some (ustr "27AAAA0000A1Z5");
                      invoice_customer := Some (Some (ustr "27BBBB1111B1Z6"));
                      invoice_json := None |}.
Proof.
  apply (proj1 (X1_viewer_ignores_gstin_padding
                  (ustr "27AAAA0000A1Z5") (ustr "27BBBB1111B1Z6")
                  [32%N] [] [9%N] [32%N; 10%N] None
                  eq_refl eq_refl eq_refl eq_refl ltac:(discriminate))).
Defined.

(** X2: a customer whose GSTIN holds white space only: the GSTIN is truthy, so
    the [customer_gst] of the stored JSON is not consulted, and it strips
    to the empty string; the invoice is B2C and taxed as inter-state. *)
Theorem X2_blank_customer_gstin_is_b2c (st : Stored) (g : pystr) (ctx : Context) :
  invoice_customer st = Some (Some g) -> g <> [] ->
  forallb char_isspace g = true ->
  invoice_viewer st = Ok ctx ->
  buyer_gst ctx = [] /\ invoice_type ctx = B2C /\ tax_mode ctx = INTER.
Proof.
  intros Hc Hg Hw H. apply invoice_viewer_classification in H.
  destruct H as [Hb [_ [Ht Hm]]].
  unfold buyer_gst_of in Hb. rewrite Hc in Hb.
  destruct g as [|c g]; [contradiction|].
  rewrite strip_blank in Hb by exact Hw. injection Hb as Hb.
  rewrite Ht, Hm, <- Hb. split; [reflexivity|]. split; [reflexivity|].
  unfold tax_mode_of. cbn [gst_state]. destruct (gst_state (seller_gst ctx));
    [destruct p|]; reflexivity.
Qed.

Lemma X2_blank_customer_gstin_is_b2c_witness :
  invoice_viewer stored_blank_customer = Ok context_blank_customer /\
  buyer_gst context_blank_customer = [] /\
  invoice_type context_blank_customer = B2C /\
  tax_mode context_blank_customer = INTER.
Proof.
  split; [exact context_blank_customer_eq|].
  exact (X2_blank_customer_gstin_is_b2c stored_blank_customer (ustr "  ")
           context_blank_customer eq_refl ltac:(discriminate) eq_refl
           context_blank_customer_eq).
Defined.

(** ** The tax mode *)

Lemma gst_state_prefix (g : pystr) : gst_state (prefix 2 g) = gst_state g.
Proof. destruct g as [|a [|b g]]; reflexivity. Qed.

(** X3: the tax mode looks at the first two characters of each GSTIN only, and
    does not tell the seller from the buyer. *)
Theorem X3_tax_mode_of_prefix_sym (seller buyer : pystr) :
  tax_mode_of seller buyer = tax_mode_of (prefix 2 seller) (prefix 2 buyer) /\
  tax_mode_of seller buyer = tax_mode_of buyer seller.
Proof.
  split.
  - unfold tax_mode_of. rewrite !gst_state_prefix. reflexivity.
  - destruct (tax_mode_of seller buyer) eqn:E1,
             (tax_mode_of buyer seller) eqn:E2; try reflexivity.
    + apply tax_mode_of_INTRA in E1.
      destruct E1 as [Ls [Lb [Ds [Db P]]]].
      assert (E : tax_mode_of buyer seller = INTRA)
        by (apply tax_mode_of_INTRA; auto 6).
      congruence.
    + apply tax_mode_of_INTRA in E2.
      destruct E2 as [Ls [Lb [Ds [Db P]]]].
      assert (E : tax_mode_of seller buyer = INTRA)
        by (apply tax_mode_of_INTRA; auto 6).
      congruence.
Qed.

(** ** What the loop keeps *)

Lemma line_entry (ty : invoice_type_t) (mode : tax_mode_t) (tot tot' : Totals)
    (it : pyval) (b : LineBreakdown) :
  line ty mode tot it = Ok (b, tot') -> entry_of ty it b.
Proof.
  intros H. unfold line in H.
  inv_bind H. inv_bind H. inv_bind H. inv_bind H. inv_bind H. inv_bind H.
  destruct a4 as [tv xv]. inv_bind H.
  destruct a4 as [[[c g] i] [[tc ts] ti]].
  inv_bind H. inv_bind H. inv_bind H.
  unfold hsn_check in E8. inv_bind E8. inv_bind E8. injection E8 as <-.
  injection H as <- <-. unfold entry_of. cbn.
  split; [destruct it; try discriminate; eauto|].
  split; [eauto|]. repeat split; try assumption. eauto.
Qed.

(** The breakdown has one entry per item, in the order of the items. *)
Lemma lines_entries (its : list pyval) :
  forall (ty : invoice_type_t) (mode : tax_mode_t) (tot tot' : Totals)
         (bd : list LineBreakdown),
    lines ty mode tot its = Ok (bd, tot') -> Forall2 (entry_of ty) its bd.
Proof.
  induction its as [|it its IH]; intros ty mode tot tot' bd H.
  - cbn [lines] in H. injection H as <- <-. constructor.
  - apply lines_inv_cons in H. destruct H as [b [bd' [tot1 [-> [Hl Hr]]]]].
    constructor; [eapply line_entry; eassumption | eapply IH; eassumption].
Qed.

Lemma lines_inter (its : list pyval) :
  forall (ty : invoice_type_t) (tot tot' : Totals) (bd : list LineBreakdown),
    lines ty INTER tot its = Ok (bd, tot') ->
    total_igst tot = total_tax tot ->
    Forall (fun b => cgst b = zero_00 /\ sgst b = zero_00 /\
                     igst b = tax_value b) bd /\
    total_cgst tot' = total_cgst tot /\ total_sgst tot' = total_sgst tot /\
    total_igst tot' = total_tax tot'.
Proof.
  induction its as [|it its IH]; intros ty tot tot' bd H H0.
  - cbn [lines] in H. injection H as <- <-. auto.
  - apply lines_inv_cons in H. destruct H as [b [bd' [tot1 [-> [Hl Hr]]]]].
    apply line_inv in Hl.
    destruct Hl as [_ [_ [_ [_ [Hs [_ [Hx _]]]]]]].
    apply line_split_inter in Hs.
    destruct Hs as [Ec [Eg [Ei [Tc [Ts Ai]]]]].
    rewrite H0, Hx in Ai. injection Ai as Ai.
    destruct (IH _ _ _ _ Hr (eq_sym Ai)) as [F [C [S I]]].
    split; [constructor; auto|]. split; [congruence|]. split; congruence.
Qed.

Lemma lines_intra (its : list pyval) :
  forall (ty : invoice_type_t) (tot tot' : Totals) (bd : list LineBreakdown),
    lines ty INTRA tot its = Ok (bd, tot') ->
    total_cgst tot = total_sgst tot ->
    Forall (fun b => cgst b = sgst b /\ igst b = zero_00) bd /\
    total_igst tot' = total_igst tot /\
    total_cgst tot' = total_sgst tot'.
Proof.
  induction its as [|it its IH]; intros ty tot tot' bd H H0.
  - cbn [lines] in H. injection H as <- <-. auto.
  - apply lines_inv_cons in H. destruct H as [b [bd' [tot1 [-> [Hl Hr]]]]].
    apply line_inv in Hl.
    destruct Hl as [_ [_ [_ [_ [Hs _]]]]].
    unfold line_split in Hs.
    inv_bind Hs. inv_bind Hs. rewrite E in Hs. cbn [bind] in Hs.
    rewrite E0 in Hs. cbn [bind] in Hs.
    inv_bind Hs. inv_bind Hs. injection Hs as Ec Eg Ei Tc Ts Ti.
    assert (H1 : total_cgst tot1 = total_sgst tot1).
    { rewrite H0 in E1. rewrite E1 in E2. injection E2 as E2.
      congruence. }
    destruct (IH _ _ _ _ Hr H1) as [F [I C]].
    split; [constructor; [split; congruence | exact F]|].
    split; congruence.
Qed.

(** X4: on an inter-state invoice no line carries CGST or SGST, the IGST of a
    line is its tax, the CGST and SGST totals stay [0.00] and the IGST
    total is the tax total, whatever the size of the amounts. *)
Theorem X4_inter_state_split (st : Stored) (ctx : Context) :
  invoice_viewer st = Ok ctx -> tax_mode ctx = INTER ->
  Forall (fun b => cgst b = zero_00 /\ sgst b = zero_00 /\
                   igst b = tax_value b) (breakdown ctx) /\
  total_cgst (totals ctx) = zero_00 /\
  total_sgst (totals ctx) = zero_00 /\
  total_igst (totals ctx) = total_tax (totals ctx).
Proof.
  intros H Hm. apply invoice_viewer_inv in H.
  destruct H as [items [its [s [_ [_ [Hl _]]]]]]. rewrite Hm in Hl.
  apply lines_inter in Hl; [|reflexivity]. exact Hl.
Qed.

Lemma X4_inter_state_split_witness :
  tax_mode context_blank_customer = INTER /\
  total_igst (totals context_blank_customer)
  = total_tax (totals context_blank_customer).
Proof.
  split; [reflexivity|].
  exact (proj2 (proj2 (proj2
           (X4_inter_state_split stored_blank_customer context_blank_customer
              context_blank_customer_eq eq_refl)))).
Defined.

(** X5: on an intra-state invoice the CGST and the SGST of every line are the
    same, no line carries IGST, the IGST total stays [0.00] and the CGST
    and SGST totals are the same, whatever the size of the amounts. *)
Theorem X5_intra_state_split (st : Stored) (ctx : Context) :
  invoice_viewer st = Ok ctx -> tax_mode ctx = INTRA ->
  Forall (fun b => cgst b = sgst b /\ igst b = zero_00) (breakdown ctx) /\
  total_igst (totals ctx) = zero_00 /\
  total_cgst (totals ctx) = total_sgst (totals ctx).
Proof.
  intros H Hm. apply invoice_viewer_inv in H.
  destruct H as [items [its [s [_ [_ [Hl _]]]]]]. rewrite Hm in Hl.
  apply lines_intra in Hl; [|reflexivity]. exact Hl.
Qed.

Lemma X5_intra_state_split_witness :
  tax_mode context_example = INTRA /\
  total_cgst (totals context_example) = total_sgst (totals context_example).
Proof.
  split; [reflexivity|].
  exact (proj2 (proj2
           (X5_intra_state_split stored_example context_example
              context_example_eq eq_refl))).
Defined.

(** X6: a B2C invoice is always taxed as inter-state: without a buyer GSTIN
    there is no buyer state, so every line gets IGST only, and the
    recommended HSN length is 4 on every line. *)
Theorem X6_b2c_is_inter_state (st : Stored) (ctx : Context) :
  invoice_viewer st = Ok ctx -> invoice_type ctx = B2C ->
  buyer_gst ctx = [] /\ tax_mode ctx = INTER /\
  Forall (fun b => hsn_recommended b = 4 /\ cgst b = zero_00 /\
                   sgst b = zero_00 /\ igst b = tax_value b)
         (breakdown ctx).
Proof.
  intros H Ht.
  pose proof (invoice_viewer_classification st ctx H) as [_ [_ [Hty Hm]]].
  assert (Hb : buyer_gst ctx = []).
  { rewrite Hty in Ht. destruct (buyer_gst ctx); [reflexivity | discriminate]. }
  assert (Hi : tax_mode ctx = INTER).
  { rewrite Hm, Hb. unfold tax_mode_of. cbn [gst_state].
    destruct (gst_state (seller_gst ctx)); [destruct p|]; reflexivity. }
  split; [exact Hb|]. split; [exact Hi|].
  apply invoice_viewer_inv in H.
  destruct H as [items [its [s [_ [_ [Hl _]]]]]].
  pose proof (lines_entries _ _ _ _ _ _ Hl) as HE.
  rewrite Hi in Hl. apply lines_inter in Hl; [|reflexivity].
  destruct Hl as [HF _]. rewrite Ht in HE.
  revert HF. induction HE as [|it b its' bd' Hb' _ IH]; intros HF;
    [constructor|].
  inversion HF as [|? ? Hh Ht']; subst.
  constructor; [|apply IH; assumption].
  destruct Hb' as [_ [_ [_ [_ [_ [_ Hr]]]]]]. split; [exact Hr | exact Hh].
Qed.

Lemma X6_b2c_is_inter_state_witness :
  invoice_type context_blank_customer = B2C /\
  tax_mode context_blank_customer = INTER.
Proof.
  split; [reflexivity|].
  exact (proj1 (proj2
           (X6_b2c_is_inter_state stored_blank_customer context_blank_customer
              context_blank_customer_eq eq_refl))).
Defined.

(** X7: the breakdown has one entry per item, in the order of the items: the
    entry at a position holds the description, the numbers and the HSN
    code read from the item at that position, and every item is an
    object. *)
Theorem X7_breakdown_follows_items (st : Stored) (ctx : Context) :
  invoice_viewer st = Ok ctx ->
  exists items its,
    extract_items (load_invoice_data st) = Ok items /\
    iterate items = Ok its /\
    Forall2 (entry_of (invoice_type ctx)) its (breakdown ctx) /\
    List.length (breakdown ctx) = List.length its.
Proof.
  intros H. apply invoice_viewer_inv in H.
  destruct H as [items [its [s [Hi [Ht [Hl _]]]]]].
  exists items, its. split; [exact Hi|]. split; [exact Ht|].
  pose proof (lines_entries _ _ _ _ _ _ Hl) as HE.
  split; [exact HE|]. symmetry. eapply Forall2_length. exact HE.
Qed.

Lemma X7_breakdown_follows_items_witness :
  exists items its,
    extract_items (load_invoice_data stored_example) = Ok items /\
    iterate items = Ok its /\
    Forall2 (entry_of (invoice_type context_example)) its
            (breakdown context_example) /\
    List.length (breakdown context_example) = List.length its.
Proof.
  exact (X7_breakdown_follows_items stored_example context_example
           context_example_eq).
Defined.

(** ** Amounts and classification *)

Lemma lines_amounts_indep (its : list pyval) :
  forall (ty ty' : invoice_type_t) (mode mode' : tax_mode_t)
         (tot tot' t t' : Totals) (bd bd' : list LineBreakdown),
    lines ty mode tot its = Ok (bd, t) ->
    lines ty' mode' tot' its = Ok (bd', t') ->
    total_taxable tot = total_taxable tot' ->
    total_tax tot = total_tax tot' ->
    map taxable_value bd = map taxable_value bd' /\
    map tax_value bd = map tax_value bd' /\
    total_taxable t = total_taxable t' /\ total_tax t = total_tax t'.
Proof.
  induction its as [|it its IH];
    intros ty ty' mode mode' tot tot' t t' bd bd' H H' Et Ex.
  - cbn [lines] in H, H'. injection H as <- <-. injection H' as <- <-.
    auto.
  - apply lines_inv_cons in H. destruct H as [b [bs [t1 [-> [Hl Hr]]]]].
    apply lines_inv_cons in H'. destruct H' as [b' [bs' [t1' [-> [Hl' Hr']]]]].
    apply line_inv in Hl, Hl'.
    destruct Hl as [Hq [Hr0 [Hp [Ha [_ [At [Ax _]]]]]]].
    destruct Hl' as [Hq' [Hr0' [Hp' [Ha' [_ [At' [Ax' _]]]]]]].
    rewrite Hq in Hq'. injection Hq' as Eq.
    rewrite Hr0 in Hr0'. injection Hr0' as Er.
    rewrite Hp in Hp'. injection Hp' as Ep.
    rewrite Eq, Er, Ep, Ha' in Ha. injection Ha as Etv Exv.
    rewrite Et, <- Etv, At' in At. injection At as At.
    rewrite Ex, <- Exv, Ax' in Ax. injection Ax as Ax.
    destruct (IH _ _ _ _ _ _ _ _ _ _ Hr Hr' (eq_sym At) (eq_sym Ax))
      as [M1 [M2 [T1 T2]]].
    cbn [map]. rewrite M1, M2, Etv, Exv. auto.
Qed.

Lemma words_of_grand_total (st : Stored) (ctx : Context) :
  invoice_viewer st = Ok ctx -> words_of ctx = int_of_Decimal (grand_total ctx).
Proof.
  intros H. unfold invoice_viewer in H.
  inv_bind H. inv_bind H. inv_bind H. inv_bind H. destruct a2 as [bd tot].
  inv_bind H. inv_bind H. injection H as <-. reflexivity.
Qed.

(** X9: the amounts do not depend on who sells to whom: two invoices with the
    same stored JSON, whatever their seller and customer, have the same
    taxable value and tax value on every line, the same taxable and tax
    totals, the same grand total and the same total in words; only the
    type, the mode, the split and the HSN advice can differ. *)
Theorem X9_amounts_independent_of_gstins (st st' : Stored) (ctx ctx' : Context) :
  invoice_json st = invoice_json st' ->
  invoice_viewer st = Ok ctx -> invoice_viewer st' = Ok ctx' ->
  map taxable_value (breakdown ctx) = map taxable_value (breakdown ctx') /\
  map tax_value (breakdown ctx) = map tax_value (breakdown ctx') /\
  total_taxable (totals ctx) = total_taxable (totals ctx') /\
  total_tax (totals ctx) = total_tax (totals ctx') /\
  grand_total ctx = grand_total ctx' /\
  words_of ctx = words_of ctx'.
Proof.
  intros Ej H H'.
  pose proof (words_of_grand_total _ _ H) as W.
  pose proof (words_of_grand_total _ _ H') as W'.
  apply invoice_viewer_inv in H, H'.
  destruct H as [items [its [s [Hi [Ht [Hl [Ha Hq]]]]]]].
  destruct H' as [items' [its' [s' [Hi' [Ht' [Hl' [Ha' Hq']]]]]]].
  assert (Ed : load_invoice_data st = load_invoice_data st')
    by (unfold load_invoice_data; rewrite Ej; reflexivity).
  rewrite Ed, Hi' in Hi. injection Hi as <-.
  rewrite Ht' in Ht. injection Ht as <-.
  destruct (lines_amounts_indep _ _ _ _ _ _ _ _ _ _ _ Hl Hl' eq_refl eq_refl)
    as [M1 [M2 [T1 T2]]].
  rewrite T1, T2, Ha' in Ha. injection Ha as <-.
  rewrite Hq' in Hq. injection Hq as Eg.
  rewrite W, W', Eg. auto 6.
Qed.

Lemma X9_amounts_independent_of_gstins_witness :
  grand_total context_example = Fin false 23600 (-2) /\
  words_of context_example = Some 236.
Proof.
  assert (H : invoice_viewer
                {| business_gst := None; invoice_customer := None;
                   invoice_json := invoice_json stored_example |}
              = Ok {| breakdown := [line_inter_example];
                      totals := totals context_blank_customer;
                      grand_total := Fin false 23600 (-2);
                      seller_gst := []; buyer_gst := [];
                      invoice_type := B2C; tax_mode := INTER;
                      words_of := Some 236 |})
    by (vm_compute; reflexivity).
  exact (proj2 (proj2 (proj2 (proj2
           (X9_amounts_independent_of_gstins
              stored_example
              {| business_gst := None; invoice_customer := None;
                 invoice_json := invoice_json stored_example |}
              context_example
              {| breakdown := [line_inter_example];
                 totals := totals context_blank_customer;
                 grand_total := Fin false 23600 (-2);
                 seller_gst := []; buyer_gst := [];
                 invoice_type := B2C; tax_mode := INTER;
                 words_of := Some 236 |}
              eq_refl context_example_eq H))))).
Defined.

(** ** The shape of the stored JSON *)

Lemma viewer_no_lines (st : Stored) (buyer : pystr) :
  buyer_gst_of st (load_invoice_data st) = Ok buyer ->
  extract_items (load_invoice_data st) = Ok (VList []) ->
  invoice_viewer st = Ok (empty_context (seller_gst_of st) buyer).
Proof.
  intros Hb Hi. unfold invoice_viewer. rewrite Hb, Hi. reflexivity.
Qed.

(** X10: when [invoice_json] cannot be decoded, or holds the empty object (as
    it does for an empty text), the view does not fail: it renders an
    invoice without lines, all totals [0.00] and zero rupees in words, the
    buyer being the customer's GSTIN if there is one. *)
Theorem X10_undecodable_json_is_empty_invoice (st : Stored) :
  invoice_json st = None \/ invoice_json st = Some (VDict []) ->
  invoice_viewer st
  = Ok (empty_context (seller_gst_of st) (customer_gst_of st)).
Proof.
  intros H.
  assert (E : load_invoice_data st = VDict [])
    by (unfold load_invoice_data; destruct H as [-> | ->]; reflexivity).
  apply viewer_no_lines; rewrite E.
  - unfold buyer_gst_of, customer_gst_of.
    destruct (invoice_customer st) as [[[|c g]|]|]; reflexivity.
  - reflexivity.
Qed.

Lemma X10_undecodable_json_is_empty_invoice_witness :
  invoice_viewer {| business_gst := None;
                    invoice_customer := Some (Some (ustr "27BBBB1111B1Z6"));
                    invoice_json := None |}
  = Ok (empty_context [] (ustr "27BBBB1111B1Z6")).
Proof.
  exact (X10_undecodable_json_is_empty_invoice
           {| business_gst := None;
              invoice_customer := Some (Some (ustr "27BBBB1111B1Z6"));
              invoice_json := None |} (or_introl eq_refl)).
Defined.

(** X11: stored JSON that decodes to something else than an object (a list, a
    string, a number, null) makes the view raise [AttributeError], whoever
    the customer is. *)
Theorem X11_json_not_object_raises (st : Stored) (v : pyval) :
  invoice_json st = Some v -> is_dict v = false ->
  invoice_viewer st = Raise AttributeError.
Proof.
  intros H Hv. unfold invoice_viewer, load_invoice_data. rewrite H.
  assert (Hg : forall k dflt, get_default v k dflt = Raise AttributeError)
    by (intros k dflt; destruct v; try reflexivity; discriminate).
  unfold buyer_gst_of, extract_items, get.
  destruct (invoice_customer st) as [[[|c g]|]|]; rewrite !Hg; reflexivity.
Qed.

Lemma X11_json_not_object_raises_witness :
  invoice_viewer {| business_gst := None; invoice_customer := None;
                    invoice_json := Some (VList [item_example]) |}
  = Raise AttributeError.
Proof.
  exact (X11_json_not_object_raises
           {| business_gst := None; invoice_customer := None;
              invoice_json := Some (VList [item_example]) |}
           (VList [item_example]) eq_refl eq_refl).
Defined.

(** X12: items that are not a list: a number or [true] cannot be iterated over
    ([TypeError]); a non-empty string or object is iterated over, but its
    characters or keys are not objects ([AttributeError]). *)
Theorem X12_items_not_a_list_raises (st : Stored) (buyer : pystr) (items : pyval)
    (e : exn) :
  buyer_gst_of st (load_invoice_data st) = Ok buyer ->
  extract_items (load_invoice_data st) = Ok items ->
  items_failure items = Some e ->
  invoice_viewer st = Raise e.
Proof.
  intros Hb Hi Hf. unfold invoice_viewer. rewrite Hb, Hi. cbn [bind].
  destruct items as [| b | n | f | [|c s] | l | [|[k v] d]];
    cbn [items_failure] in Hf; try discriminate;
    injection Hf as <-; reflexivity.
Qed.

Lemma X12_items_not_a_list_raises_witness :
  invoice_viewer {| business_gst := None; invoice_customer := None;
                    invoice_json := Some (VDict [(ustr "items", VInt 5)]) |}
  = Raise TypeError.
Proof.
  exact (X12_items_not_a_list_raises
           {| business_gst := None; invoice_customer := None;
              invoice_json := Some (VDict [(ustr "items", VInt 5)]) |}
           [] (VInt 5) TypeError eq_refl eq_refl eq_refl).
Defined.

Lemma get_default_ext (d d' : list (pystr * pyval)) (k : string)
    (dflt : pyval) :
  lookup (ustr k) d = lookup (ustr k) d' ->
  get_default (VDict d) k dflt = get_default (VDict d') k dflt.
Proof. intros H. unfold get_default. rewrite H. reflexivity. Qed.

(** X13: of the stored JSON the view reads three keys only, and [items] only
    when [invoice_items] is missing or falsy: two stored objects that
    agree on [customer_gst] and on [invoice_items], and on [items] unless
    [invoice_items] is truthy, give the same result. *)
Theorem X13_invoice_items_shadow_items (seller : option pystr)
    (customer : option (option pystr)) (d d' : list (pystr * pyval)) :
  lookup (ustr "customer_gst") d = lookup (ustr "customer_gst") d' ->
  lookup (ustr "invoice_items") d = lookup (ustr "invoice_items") d' ->
  (exists a, lookup (ustr "invoice_items") d = Some a /\ truthy a = true) \/
  lookup (ustr "items") d = lookup (ustr "items") d' ->
  invoice_viewer {| business_gst := seller; invoice_customer := customer;
                    invoice_json := Some (VDict d) |}
  = invoice_viewer {| business_gst := seller; invoice_customer := customer;
                      invoice_json := Some (VDict d') |}.
Proof.
  intros Hc Hi Hs. unfold invoice_viewer, load_invoice_data.
  cbn [invoice_json].
  assert (Eb : forall j,
             buyer_gst_of {| business_gst := seller;
                             invoice_customer := customer;
                             invoice_json := j |} (VDict d)
             = buyer_gst_of {| business_gst := seller;
                               invoice_customer := customer;
                               invoice_json := Some (VDict d') |} (VDict d')).
  { intros j. unfold buyer_gst_of. cbn [invoice_customer].
    rewrite (get_default_ext d d' "customer_gst" _ Hc). reflexivity. }
  assert (Ei : extract_items (VDict d) = extract_items (VDict d')).
  { unfold extract_items, get.
    rewrite (get_default_ext d d' "invoice_items" _ Hi).
    destruct Hs as [[a [Ea Ta]]|Hs].
    - unfold get_default. rewrite <- Hi, Ea. cbn [bind]. rewrite Ta.
      reflexivity.
    - rewrite (get_default_ext d d' "items" _ Hs). reflexivity. }
  rewrite Eb, Ei. reflexivity.
Qed.

Lemma X13_invoice_items_shadow_items_witness :
  invoice_viewer
    {| business_gst := None; invoice_customer := None;
       invoice_json :=
         Some (VDict [(ustr "invoice_items", VList [item_example]);
                      (ustr "items", VList [])]) |}
  = invoice_viewer
      {| business_gst := None; invoice_customer := None;
         invoice_json :=
           Some (VDict [(ustr "items", VInt 7);
                        (ustr "invoice_items", VList [item_example])]) |}.
Proof.
  apply (X13_invoice_items_shadow_items None None
           [(ustr "invoice_items", VList [item_example]);
            (ustr "items", VList [])]
           [(ustr "items", VInt 7);
            (ustr "invoice_items", VList [item_example])]
           eq_refl eq_refl).
  left. exists (VList [item_example]). split; reflexivity.
Defined.

(** ** The stages of a line, read backwards *)

Lemma line_amounts_inv (q r p tv xv : Decimal) :
  line_amounts q r p = Ok (tv, xv) ->
  exists m m1 m2,
    mul q r = Ok m /\ quantize m cent ROUND_HALF_UP = Ok tv /\
    mul tv p = Ok m1 /\ truediv m1 hundred = Ok m2 /\
    quantize m2 cent ROUND_HALF_UP = Ok xv.
Proof.
  intros H. unfold line_amounts in H.
  destruct (mul q r) as [m|] eqn:E; cbn [bind] in H; [|discriminate].
  destruct (quantize m cent ROUND_HALF_UP) as [tv'|] eqn:E0; cbn [bind] in H;
    [|discriminate].
  destruct (mul tv' p) as [m1|] eqn:E1; cbn [bind] in H; [|discriminate].
  destruct (truediv m1 hundred) as [m2|] eqn:E2; cbn [bind] in H;
    [|discriminate].
  destruct (quantize m2 cent ROUND_HALF_UP) as [xv'|] eqn:E3; cbn [bind] in H;
    [|discriminate].
  injection H as <- <-. exists m, m1, m2. auto.
Qed.

Lemma line_split_intra_inv (tot : Totals) (xv c g i tc ts ti : Decimal) :
  line_split INTRA tot xv = Ok (c, g, i, (tc, ts, ti)) ->
  exists h,
    truediv xv (Decimal_of_int 2) = Ok h /\
    quantize h cent ROUND_HALF_UP = Ok c /\ g = c /\ i = zero_00 /\
    add (total_cgst tot) c = Ok tc /\ add (total_sgst tot) g = Ok ts /\
    ti = total_igst tot.
Proof.
  intros H. unfold line_split in H.
  destruct (truediv xv (Decimal_of_int 2)) as [h|] eqn:E; cbn [bind] in H;
    [|discriminate].
  destruct (quantize h cent ROUND_HALF_UP) as [c'|] eqn:E0; cbn [bind] in H;
    [|discriminate].
  destruct (add (total_cgst tot) c') as [tc'|] eqn:E1; cbn [bind] in H;
    [|discriminate].
  destruct (add (total_sgst tot) c') as [ts'|] eqn:E2; cbn [bind] in H;
    [|discriminate].
  injection H as <- <- <- <- <- <-. exists h. auto 8.
Qed.

(** ** Numeric fields *)

Lemma Decimal_of_string_blank (s : pystr) :
  forallb char_isspace s = true -> Decimal_of_string s = Raise InvalidOperation.
Proof.
  intros H. unfold Decimal_of_string. rewrite (strip_blank s H). reflexivity.
Qed.

(** X14: a numeric field that holds white space only is not replaced by its
    default: the string is truthy, [Decimal] refuses it, and the line is
    not produced. *)
Theorem X14_blank_number_raises (d : list (pystr * pyval)) (key : string)
    (default : Z) (s : pystr) :
  lookup (ustr key) d = Some (VStr s) -> s <> [] ->
  forallb char_isspace s = true ->
  field (VDict d) key default = Raise InvalidOperation /\
  (key = "qty"%string \/ key = "rate"%string \/ key = "tax_rate"%string ->
   forall ty mode tot, ~ returns (line ty mode tot (VDict d))).
Proof.
  intros Hl Hne Hw.
  assert (F : forall dflt, field (VDict d) key dflt = Raise InvalidOperation).
  { intros dflt. rewrite (field_truthy d key dflt _ Hl)
      by (destruct s; [contradiction | reflexivity]).
    cbn [Decimal_of_value]. apply Decimal_of_string_blank. exact Hw. }
  split; [apply F|].
  intros Hk ty mode tot [[b tot'] H]. apply line_inv in H.
  destruct H as [Hq [Hr [Hp _]]].
  destruct Hk as [-> | [-> | ->]]; rewrite F in *; discriminate.
Qed.

Lemma X14_blank_number_raises_witness :
  field (VDict [(ustr "qty", VStr (ustr " "))]) "qty" 1
  = Raise InvalidOperation.
Proof.
  exact (proj1 (X14_blank_number_raises [(ustr "qty", VStr (ustr " "))] "qty" 1
                  (ustr " ") eq_refl ltac:(discriminate) eq_refl)).
Defined.

(** X15: a non-zero integer in a numeric field is read exactly: the field is
    the decimal with that integer as coefficient and exponent 0. *)
Theorem X15_integer_field_exact (d : list (pystr * pyval)) (key : string)
    (default : Z) (n : Z) :
  lookup (ustr key) d = Some (VInt n) -> n <> 0 -> Z.abs n < 10 ^ 4300 ->
  field (VDict d) key default = Ok (Decimal_of_int n) /\
  cents (Decimal_of_int n) = n /\ exponent (Decimal_of_int n) = 0.
Proof.
  intros Hl Hn Hb. split; [|split].
  - rewrite (field_truthy d key default _ Hl).
    + apply Decimal_of_value_int. exact Hb.
    + cbn [truthy]. destruct (Z.eqb_spec n 0); [contradiction | reflexivity].
  - unfold Decimal_of_int. cbn [cents].
    destruct (Z.ltb_spec n 0); rewrite Z2N.id; lia.
  - reflexivity.
Qed.

Lemma X15_integer_field_exact_witness :
  field (VDict [(ustr "rate", VInt (-100))]) "rate" 0
  = Ok (Fin true 100 0).
Proof.
  refine (proj1 (X15_integer_field_exact [(ustr "rate", VInt (-100))] "rate" 0
                   (-100) eq_refl ltac:(discriminate) _)).
  apply Z.lt_trans with (10 ^ 3); [reflexivity|].
  apply Z.pow_lt_mono_r; lia.
Defined.

(** ** Two decimals *)

(** Whatever is brought to cents comes out as an amount with two decimals
    or as a quiet NaN. *)
Lemma quantize_cent_shape (d d' : Decimal) (r : rounding) :
  quantize d cent r = Ok d' -> money_or_nan d'.
Proof.
  destruct d as [s c x|s|s p [|]]; unfold quantize, cent; cbn [check_nans].
  - change (negb ((Etiny <=? -2) && (-2 <=? Emax))) with false. cbv iota.
    destruct (N.eqb_spec c 0) as [->|Hnz].
    + rewrite fix_id by (try apply pow10_pos; unfold_ctx; lia).
      intros H. injection H as <-. left. split; [reflexivity | apply pow10_pos].
    + destruct (Emax <? adjusted c x); [discriminate|].
      destruct (prec <? adjusted c x - -2 + 1); [discriminate|].
      set (c' := rescale c x (-2) r).
      destruct (Emax <? adjusted c' (-2)); [discriminate|].
      destruct (Z.ltb_spec prec (ndigits c')) as [|Hn]; [discriminate|].
      apply ndigits_bound in Hn.
      rewrite fix_id by (try exact Hn; unfold_ctx; lia).
      intros H. injection H as <-. left. split; [reflexivity | exact Hn].
  - discriminate.
  - discriminate.
  - cbn [fix_]. intros H. injection H as <-. right. eauto.
Qed.

Lemma line_shape (ty : invoice_type_t) (mode : tax_mode_t) (tot tot' : Totals)
    (it : pyval) (b : LineBreakdown) :
  line ty mode tot it = Ok (b, tot') ->
  money_or_nan (taxable_value b) /\ money_or_nan (tax_value b) /\
  money_or_nan (cgst b) /\ money_or_nan (sgst b) /\ money_or_nan (igst b).
Proof.
  intros H. apply line_inv in H.
  destruct H as [_ [_ [_ [Ha [Hs _]]]]].
  apply line_amounts_inv in Ha.
  destruct Ha as [m [m1 [m2 [_ [Qt [_ [_ Qx]]]]]]].
  apply quantize_cent_shape in Qt, Qx.
  split; [exact Qt|]. split; [exact Qx|].
  assert (Z0 : money_or_nan zero_00) by (left; apply money_zero_00).
  destruct mode.
  - apply line_split_intra_inv in Hs.
    destruct Hs as [h [_ [Qc [-> [-> _]]]]].
    apply quantize_cent_shape in Qc. auto.
  - apply line_split_inter in Hs. destruct Hs as [-> [-> [-> _]]]. auto.
Qed.

Lemma lines_shape (its : list pyval) :
  forall (ty : invoice_type_t) (mode : tax_mode_t) (tot tot' : Totals)
         (bd : list LineBreakdown),
    lines ty mode tot its = Ok (bd, tot') ->
    Forall (fun b => money_or_nan (taxable_value b) /\
                     money_or_nan (tax_value b) /\ money_or_nan (cgst b) /\
                     money_or_nan (sgst b) /\ money_or_nan (igst b)) bd.
Proof.
  induction its as [|it its IH]; intros ty mode tot tot' bd H.
  - cbn [lines] in H. injection H as <- <-. constructor.
  - apply lines_inv_cons in H. destruct H as [b [bd' [tot1 [-> [Hl Hr]]]]].
    constructor; [eapply line_shape; eassumption | eapply IH; eassumption].
Qed.

(** X16: every amount of every entry, and the grand total, has exactly two
    decimals and at most 28 digits, unless it is a NaN: the view hands on
    no infinity, no signaling NaN and no amount at another scale. *)
Theorem X16_amounts_have_two_decimals (st : Stored) (ctx : Context) :
  invoice_viewer st = Ok ctx ->
  Forall (fun b => money_or_nan (taxable_value b) /\
                   money_or_nan (tax_value b) /\ money_or_nan (cgst b) /\
                   money_or_nan (sgst b) /\ money_or_nan (igst b))
         (breakdown ctx) /\
  money_or_nan (grand_total ctx).
Proof.
  intros H. apply invoice_viewer_inv in H.
  destruct H as [items [its [s [_ [_ [Hl [_ Hq]]]]]]].
  split; [eapply lines_shape; eassumption|].
  eapply quantize_cent_shape; eassumption.
Qed.

Lemma X16_amounts_have_two_decimals_witness :
  money_or_nan (grand_total context_example).
Proof.
  exact (proj2 (X16_amounts_have_two_decimals stored_example context_example
                  context_example_eq)).
Defined.

(** ** The total in words *)

(** X17: the integer put into words is the grand total cut to whole rupees,
    towards zero; when the grand total is a NaN there are no words. *)
Theorem X17_words_truncate_grand_total (st : Stored) (ctx : Context) :
  invoice_viewer st = Ok ctx ->
  (money (grand_total ctx) /\
   words_of ctx = Some (Z.quot (cents (grand_total ctx)) 100)) \/
  ((exists s p, grand_total ctx = NaN s p false) /\ words_of ctx = None).
Proof.
  intros H.
  assert (Hw : words_of ctx = int_of_Decimal (grand_total ctx)).
  { unfold invoice_viewer in H.
    inv_bind H. inv_bind H. inv_bind H. inv_bind H. destruct a2 as [bd tot].
    inv_bind H. inv_bind H. injection H as <-. reflexivity. }
  apply invoice_viewer_inv in H.
  destruct H as [items [its [s [_ [_ [_ [_ Hq]]]]]]].
  apply quantize_cent_shape in Hq. rewrite Hw.
  destruct Hq as [Hm|[sg [p E]]].
  - left. split; [exact Hm|].
    destruct (grand_total ctx) as [sg c e| |]; cbn [money] in Hm;
      try contradiction.
    destruct Hm as [-> _]. cbn [int_of_Decimal cents].
    change (0 <=? -2) with false. cbv iota.
    change (pow10 (- -2)) with 100%N.
    f_equal. rewrite N2Z.inj_div. change (Z.of_N 100) with 100.
    rewrite <- Z.quot_div_nonneg by lia.
    destruct sg; [|reflexivity].
    rewrite Z.quot_opp_l by lia. reflexivity.
  - right. split; [eauto|]. rewrite E. reflexivity.
Qed.

Lemma X17_words_truncate_grand_total_witness :
  (money (grand_total context_example) /\
   words_of context_example
   = Some (Z.quot (cents (grand_total context_example)) 100)) \/
  ((exists s p, grand_total context_example = NaN s p false) /\
   words_of context_example = None).
Proof.
  exact (X17_words_truncate_grand_total stored_example context_example
           context_example_eq).
Defined.

(** ** Zero quantities, rates and tax rates *)

Lemma mul_zero (a b d : Decimal) :
  finite a -> finite b -> is_zero a \/ is_zero b ->
  mul a b = Ok d -> is_zero d.
Proof.
  destruct a as [sa ca ea| |], b as [sb cb eb| |]; cbn [finite is_zero];
    try tauto.
  intros _ _ Hz. rewrite mul_Fin.
  assert (E : (ca * cb = 0)%N) by (destruct Hz; subst; lia).
  rewrite E. cbn [fix_ N.eqb]. intros H. injection H as <-. reflexivity.
Qed.

Lemma truediv_zero (a d : Decimal) (s : bool) (c : N) (e : Z) :
  is_zero a -> c <> 0%N -> truediv a (Fin s c e) = Ok d -> is_zero d.
Proof.
  destruct a as [sa ca ea| |]; cbn [is_zero]; try tauto.
  intros -> Hc. unfold truediv. cbn [check_nans].
  destruct (N.eqb_spec c 0); [contradiction|].
  cbn [N.eqb fix_]. intros H. injection H as <-. reflexivity.
Qed.

Lemma quantize_zero (d d' : Decimal) (r : rounding) :
  is_zero d -> quantize d cent r = Ok d' -> is_zero d'.
Proof.
  destruct d as [s c x| |]; cbn [is_zero]; try tauto.
  intros ->. unfold quantize, cent. cbn [check_nans].
  change (negb ((Etiny <=? -2) && (-2 <=? Emax))) with false.
  cbn [N.eqb fix_]. intros H. injection H as <-. reflexivity.
Qed.

Lemma is_zero_finite (d : Decimal) : is_zero d -> finite d.
Proof. destruct d; cbn [is_zero finite]; tauto. Qed.

(** X18: a line whose quantity, rate or tax rate is zero (a missing rate or
    tax rate counts as zero) carries no tax: its tax value and its CGST,
    SGST and IGST are zero; with a zero quantity or rate its taxable value
    is zero too. *)
Theorem X18_zero_factor_gives_zero_tax (ty : invoice_type_t) (mode : tax_mode_t)
    (tot tot' : Totals) (it : pyval) (b : LineBreakdown) :
  line ty mode tot it = Ok (b, tot') -> finite_inputs b ->
  (is_zero (qty b) \/ is_zero (rate b) -> is_zero (taxable_value b)) /\
  (is_zero (qty b) \/ is_zero (rate b) \/ is_zero (tax_percent b) ->
   is_zero (tax_value b) /\ is_zero (cgst b) /\ is_zero (sgst b) /\
   is_zero (igst b)).
Proof.
  intros H [Fq [Fr Fp]]. apply line_inv in H.
  destruct H as [_ [_ [_ [Ha [Hs _]]]]].
  apply line_amounts_inv in Ha.
  destruct Ha as [m [m1 [m2 [Em [Qt [Em1 [Em2 Qx]]]]]]].
  assert (Ft : finite (taxable_value b)).
  { apply money_finite. eapply quantize_finite_money; [|exact Qt].
    eapply (mul_finite (qty b) (rate b)); eassumption. }
  assert (Z1 : is_zero (qty b) \/ is_zero (rate b) ->
               is_zero (taxable_value b)).
  { intros Hz. eapply quantize_zero; [|exact Qt].
    eapply (mul_zero (qty b) (rate b)); eassumption. }
  split; [exact Z1|].
  intros Hz.
  assert (Zx : is_zero (tax_value b)).
  { eapply quantize_zero; [|exact Qx].
    eapply (truediv_zero m1); [| |exact Em2]; [|discriminate].
    eapply (mul_zero (taxable_value b) (tax_percent b)); try eassumption.
    destruct Hz as [Hz|[Hz|Hz]]; auto. }
  split; [exact Zx|].
  destruct mode.
  - apply line_split_intra_inv in Hs.
    destruct Hs as [h [Eh [Qc [-> [-> _]]]]].
    assert (Zc : is_zero (cgst b)).
    { eapply quantize_zero; [|exact Qc].
      eapply truediv_zero; [exact Zx | | exact Eh]. discriminate. }
    split; [exact Zc|]. split; [exact Zc | reflexivity].
  - apply line_split_inter in Hs. destruct Hs as [-> [-> [-> _]]].
    split; [reflexivity|]. split; [reflexivity | exact Zx].
Qed.

Lemma X18_zero_factor_gives_zero_tax_witness :
  exists b tot',
    line B2C INTER zero_totals (VDict [(ustr "qty", VInt 3)]) = Ok (b, tot') /\
    is_zero (rate b) /\ is_zero (taxable_value b) /\ is_zero (tax_value b).
Proof.
  eexists. eexists. split; [vm_compute; reflexivity|].
  match goal with
  | |- is_zero (rate ?b) /\ _ =>
      destruct (X18_zero_factor_gives_zero_tax B2C INTER zero_totals
                  {| total_taxable := Fin false 0 (-2);
                     total_tax := Fin false 0 (-2);
                     total_cgst := zero_00; total_sgst := zero_00;
                     total_igst := Fin false 0 (-2) |}
                  (VDict [(ustr "qty", VInt 3)]) b)
        as [H1 H2];
        [vm_compute; reflexivity | repeat split |]
  end.
  split; [reflexivity|].
  split; [apply H1; right; reflexivity|].
  apply H2. right. left. reflexivity.
Defined.

(** ** Signs *)

Lemma fix_sign (s : bool) (c : N) (e : Z) (d : Decimal) :
  fix_ (Fin s c e) = Ok d -> sign_of d = s.
Proof.
  unfold fix_. intros H.
  repeat match type of H with
         | (if ?b then _ else _) = _ => destruct b
         | (let (_, _) := ?p in _) = _ => destruct p
         end;
    try discriminate; injection H as <-; reflexivity.
Qed.

Lemma mul_sign (a b d : Decimal) :
  finite a -> finite b -> mul a b = Ok d ->
  sign_of d = xorb (sign_of a) (sign_of b).
Proof.
  destruct a as [sa ca ea| |], b as [sb cb eb| |]; cbn [finite]; try tauto.
  intros _ _. rewrite mul_Fin. apply fix_sign.
Qed.

Lemma truediv_sign (a b d : Decimal) :
  finite a -> finite b -> truediv a b = Ok d ->
  sign_of d = xorb (sign_of a) (sign_of b).
Proof.
  destruct a as [sa ca ea| |], b as [sb cb eb| |]; cbn [finite]; try tauto.
  intros _ _. unfold truediv. cbn [check_nans sign_of]. intros H.
  repeat match type of H with
         | (if ?b then _ else _) = _ => destruct b
         | (let (_, _) := ?p in _) = _ => destruct p
         end;
    try discriminate; eapply fix_sign; eassumption.
Qed.

Lemma quantize_sign (d d' : Decimal) (r : rounding) :
  finite d -> quantize d cent r = Ok d' -> sign_of d' = sign_of d.
Proof.
  destruct d as [s c x| |]; cbn [finite]; try tauto.
  intros _. unfold quantize, cent. cbn [check_nans sign_of]. intros H.
  repeat match type of H with
         | (if ?b then _ else _) = _ => destruct b
         end;
    try discriminate; eapply fix_sign; eassumption.
Qed.

(** X19: with finite numbers the signs multiply through a line: the taxable
    value has the sign of quantity times rate and the tax value that of
    the taxable value times the tax rate, also when the amount rounds to
    zero; the halves of an intra-state split keep the sign of the tax. *)
Theorem X19_line_signs (ty : invoice_type_t) (mode : tax_mode_t)
    (tot tot' : Totals) (it : pyval) (b : LineBreakdown) :
  line ty mode tot it = Ok (b, tot') -> finite_inputs b ->
  sign_of (taxable_value b) = xorb (sign_of (qty b)) (sign_of (rate b)) /\
  sign_of (tax_value b)
  = xorb (sign_of (taxable_value b)) (sign_of (tax_percent b)) /\
  (mode = INTRA ->
   sign_of (cgst b) = sign_of (tax_value b) /\
   sign_of (sgst b) = sign_of (tax_value b)).
Proof.
  intros H [Fq [Fr Fp]]. apply line_inv in H.
  destruct H as [_ [_ [_ [Ha [Hs _]]]]].
  destruct (line_amounts_money _ _ _ _ _ Fq Fr Fp Ha) as [Mt Mx].
  apply line_amounts_inv in Ha.
  destruct Ha as [m [m1 [m2 [Em [Qt [Em1 [Em2 Qx]]]]]]].
  pose proof (mul_finite _ _ _ Fq Fr Em) as Fm.
  pose proof (mul_finite _ _ _ (money_finite _ Mt) Fp Em1) as Fm1.
  pose proof (truediv_finite _ _ _ Fm1 finite_hundred Em2) as Fm2.
  split; [|split].
  - rewrite (quantize_sign _ _ _ Fm Qt). apply mul_sign; assumption.
  - rewrite (quantize_sign _ _ _ Fm2 Qx).
    rewrite (truediv_sign _ _ _ Fm1 finite_hundred Em2).
    rewrite (mul_sign _ _ _ (money_finite _ Mt) Fp Em1).
    cbn [hundred sign_of]. apply xorb_false_r.
  - intros ->. apply line_split_intra_inv in Hs.
    destruct Hs as [h [Eh [Qc [-> _]]]].
    assert (F2 : finite (Decimal_of_int 2)) by exact I.
    pose proof (truediv_finite _ _ _ (money_finite _ Mx) F2 Eh) as Fh.
    rewrite (quantize_sign _ _ _ Fh Qc).
    rewrite (truediv_sign _ _ _ (money_finite _ Mx) F2 Eh).
    cbn [Decimal_of_int sign_of Z.ltb Z.compare]. rewrite xorb_false_r. auto.
Qed.

Lemma X19_line_signs_witness :
  exists b tot',
    line B2B INTRA zero_totals
      (VDict [(ustr "qty", VInt (-2)); (ustr "rate", VInt 100);
              (ustr "tax_rate", VInt 18)]) = Ok (b, tot') /\
    sign_of (taxable_value b) = true /\ sign_of (cgst b) = true.
Proof.
  eexists. eexists. split; [vm_compute; reflexivity|].
  match goal with
  | |- sign_of (taxable_value ?b) = _ /\ _ =>
      destruct (X19_line_signs B2B INTRA zero_totals
                  {| total_taxable := Fin true 20000 (-2);
                     total_tax := Fin true 3600 (-2);
                     total_cgst := Fin true 1800 (-2);
                     total_sgst := Fin true 1800 (-2);
                     total_igst := zero_00 |}
                  (VDict [(ustr "qty", VInt (-2)); (ustr "rate", VInt 100);
                          (ustr "tax_rate", VInt 18)]) b)
        as [H1 [H2 H3]];
        [vm_compute; reflexivity | repeat split |]
  end.
  split; [exact H1|].
  destruct (H3 eq_refl) as [H4 _]. rewrite H4, H2, H1. reflexivity.
Defined.

(** ** Infinities *)

Lemma quantize_inf (s : bool) (r : rounding) :
  quantize (Inf s) cent r = Raise InvalidOperation.
Proof. reflexivity. Qed.

Lemma mul_inf (a b : Decimal) :
  is_inf a \/ is_inf b -> ~ is_nan a -> ~ is_nan b ->
  mul a b = Raise InvalidOperation \/ exists s, mul a b = Ok (Inf s).
Proof.
  destruct a as [sa ca ea|sa|], b as [sb cb eb|sb|]; cbn [is_inf is_nan];
    try tauto; intros _ _ _; unfold mul; cbn [check_nans].
  - destruct (ca =? 0)%N; eauto.
  - destruct (cb =? 0)%N; eauto.
  - eauto.
Qed.

Lemma line_amounts_inf (q r p : Decimal) :
  is_inf q \/ is_inf r -> ~ is_nan q -> ~ is_nan r ->
  line_amounts q r p = Raise InvalidOperation.
Proof.
  intros Hi Hq Hr. unfold line_amounts.
  destruct (mul_inf q r Hi Hq Hr) as [E|[s E]]; rewrite E; reflexivity.
Qed.

Lemma Decimal_of_value_raises (v : pyval) (e : exn) :
  Decimal_of_value v = Raise e -> e = InvalidOperation.
Proof.
  assert (A : forall s, Decimal_of_ascii s = Raise e -> e = InvalidOperation).
  { intros s. unfold Decimal_of_ascii.
    repeat match goal with
           | |- context [match ?x with _ => _ end] => destruct x
           end; congruence. }
  assert (S : forall s, Decimal_of_string s = Raise e -> e = InvalidOperation).
  { intros s. unfold Decimal_of_string.
    destruct (numeric_as_ascii (strip s)); [apply A | congruence]. }
  destruct v; cbn [Decimal_of_value]; try apply S; congruence.
Qed.

(** X20: an infinite quantity or rate (the other not being a NaN) makes the
    line raise [InvalidOperation], whatever the other fields hold: the
    product is infinite or undefined and cannot be brought to cents. *)
Theorem X20_infinite_number_raises (ty : invoice_type_t) (mode : tax_mode_t)
    (tot : Totals) (it : pyval) (q r : Decimal) :
  field it "qty" 1 = Ok q -> field it "rate" 0 = Ok r ->
  is_inf q \/ is_inf r -> ~ is_nan q -> ~ is_nan r ->
  line ty mode tot it = Raise InvalidOperation.
Proof.
  intros Eq Er Hi Hq Hr. unfold line. rewrite Eq, Er.
  destruct it as [| | | | | |d]; try discriminate.
  destruct (get_dict d "description") as [de ->].
  destruct (get_dict d "hsn") as [h ->]. cbn [bind].
  destruct (field (VDict d) "tax_rate" 0) as [p|e] eqn:Ep; cbn [bind].
  - rewrite (line_amounts_inf q r p Hi Hq Hr). reflexivity.
  - unfold field in Ep. destruct (get_dict d "tax_rate") as [x Ex].
    rewrite Ex in Ep. cbn [bind] in Ep.
    apply Decimal_of_value_raises in Ep. congruence.
Qed.

Lemma X20_infinite_number_raises_witness :
  line B2C INTER zero_totals
    (VDict [(ustr "qty", VStr (ustr "Infinity")); (ustr "rate", VInt 100)])
  = Raise InvalidOperation.
Proof.
  apply (X20_infinite_number_raises B2C INTER zero_totals
           (VDict [(ustr "qty", VStr (ustr "Infinity"));
                   (ustr "rate", VInt 100)])
           (Inf false) (Fin false 100 0)).
  - vm_compute. reflexivity.
  - vm_compute. reflexivity.
  - left. exact I.
  - exact (fun x => x).
  - exact (fun x => x).
Defined.

(** ** HSN codes that are not strings *)

(** X21: an HSN code stored as a number (or as [true]) is truthy and cannot be
    iterated over: the line is never produced, and when the numeric
    fields are usable the exception is [TypeError]. *)
Theorem X21_numeric_hsn_raises (ty : invoice_type_t) (mode : tax_mode_t)
    (tot : Totals) (d : list (pystr * pyval)) (v : pyval) :
  lookup (ustr "hsn") d = Some v -> scalar v = true -> truthy v = true ->
  ~ returns (line ty mode tot (VDict d)) /\
  (forall B,
     field_ok d "qty" -> field_ok d "rate" -> field_ok d "tax_rate" ->
     totals_within B tot -> 0 <= B -> B + line_cap < 2 * 10 ^ 27 ->
     line ty mode tot (VDict d) = Raise TypeError).
Proof.
  intros Hl Hs Hv.
  assert (Eg : get (VDict d) "hsn" = Ok v)
    by (unfold get, get_default; rewrite Hl; reflexivity).
  assert (Ec : hsn_check ty (py_or v (VStr [])) = Raise TypeError).
  { unfold py_or. rewrite Hv. destruct v; try discriminate; reflexivity. }
  split.
  - intros [[b tot'] H]. apply line_inv in H.
    destruct H as [_ [_ [_ [_ [_ [_ [_ [[h [Eh Hh]] Hc]]]]]]]].
    rewrite Eg in Eh. injection Eh as <-. rewrite Hh, Ec in Hc.
    discriminate.
  - unfold line_cap. intros B Hq Hr Hp HW HB Hcap.
    destruct (get_dict d "description") as [de Ed].
    destruct (field_ok_plain d "qty" 1 Hq ltac:(right; reflexivity))
      as [q [Eq Pq]].
    destruct (field_ok_plain d "rate" 0 Hr ltac:(left; reflexivity))
      as [r [Er Pr]].
    destruct (field_ok_plain d "tax_rate" 0 Hp ltac:(left; reflexivity))
      as [p [Ep Pp]].
    destruct (line_amounts_plain q r p Pq Pr Pp)
      as [tv [xv [Ea [[Mtv Htv] [Mxv Hxv]]]]].
    destruct (line_split_returns mode tot xv B (conj Mxv Hxv) HW ltac:(lia))
      as [[[[c g] i] [[tc ts] ti]] Es].
    destruct HW as [[Mtt Htt] [[Mtx Htx] _]].
    destruct (add_money _ _ Mtt Mtv ltac:(lia)) as [tt [Ett _]].
    destruct (add_money _ _ Mtx Mxv ltac:(lia)) as [tx [Etx _]].
    unfold line. rewrite Ed, Eq, Er, Ep, Eg. cbn [bind].
    rewrite Ea. cbn [bind]. rewrite Es. cbn [bind].
    rewrite Ett, Etx. cbn [bind]. rewrite Ec. reflexivity.
Qed.

Lemma X21_numeric_hsn_raises_witness :
  line B2C INTER zero_totals
    (VDict [(ustr "qty", VInt 2); (ustr "rate", VInt 100);
            (ustr "hsn", VInt 8471)])
  = Raise TypeError.
Proof.
  apply (proj2 (X21_numeric_hsn_raises B2C INTER zero_totals
                  [(ustr "qty", VInt 2); (ustr "rate", VInt 100);
                   (ustr "hsn", VInt 8471)] (VInt 8471)
                  eq_refl eq_refl eq_refl) 0).
  - apply usable_int. reflexivity.
  - apply usable_int. reflexivity.
  - exact I.
  - exact totals_within_zero.
  - lia.
  - unfold line_cap. lia.
Defined.

(** ** NaN *)

Lemma quiet_not_signaling (d : Decimal) : quiet_nan d -> ~ signaling d.
Proof. destruct d as [| |? ? [|]]; cbn; tauto. Qed.

Lemma check_nans_quiet_l (a b : Decimal) :
  quiet_nan a -> ~ signaling b ->
  exists a', check_nans a b = Some (Ok a') /\ quiet_nan a'.
Proof.
  destruct a as [| |sa pa [|]]; cbn [quiet_nan]; try tauto. intros _ Hb.
  destruct b as [| |sb pb [|]]; cbn [signaling] in Hb; try tauto;
    cbn [check_nans fix_]; eexists; split; try reflexivity; exact I.
Qed.

Lemma check_nans_quiet_r (a b : Decimal) :
  ~ signaling a -> quiet_nan b ->
  exists b', check_nans a b = Some (Ok b') /\ quiet_nan b'.
Proof.
  destruct b as [| |sb pb [|]]; cbn [quiet_nan]; try tauto. intros Ha _.
  destruct a as [| |sa pa [|]]; cbn [signaling] in Ha; try tauto;
    cbn [check_nans fix_]; eexists; split; try reflexivity; exact I.
Qed.

Lemma mul_quiet_l (a b : Decimal) :
  quiet_nan a -> ~ signaling b -> exists d, mul a b = Ok d /\ quiet_nan d.
Proof.
  intros Ha Hb. destruct (check_nans_quiet_l a b Ha Hb) as [a' [E Q]].
  unfold mul. rewrite E. eauto.
Qed.

Lemma truediv_quiet_l (a b : Decimal) :
  quiet_nan a -> ~ signaling b -> exists d, truediv a b = Ok d /\ quiet_nan d.
Proof.
  intros Ha Hb. destruct (check_nans_quiet_l a b Ha Hb) as [a' [E Q]].
  unfold truediv. rewrite E. eauto.
Qed.

Lemma quantize_quiet (a : Decimal) (r : rounding) :
  quiet_nan a -> exists d, quantize a cent r = Ok d /\ quiet_nan d.
Proof.
  intros Ha.
  destruct (check_nans_quiet_l a cent Ha ltac:(exact (fun x => x)))
    as [a' [E Q]].
  unfold quantize. rewrite E. eauto.
Qed.

Lemma add_quiet_r (a b : Decimal) :
  ~ signaling a -> quiet_nan b -> exists d, add a b = Ok d /\ quiet_nan d.
Proof.
  intros Ha Hb. destruct (check_nans_quiet_r a b Ha Hb) as [b' [E Q]].
  unfold add. rewrite E. eauto.
Qed.

Lemma quiet_nan_is_nan (d : Decimal) : quiet_nan d -> is_nan d.
Proof. destruct d as [| |? ? [|]]; cbn; tauto. Qed.

(** X22: a quantity that reads as a quiet NaN does not make the view fail: the
    line is produced, its amounts are NaN, and so are the totals it was
    added to. *)
Theorem X22_nan_quantity_poisons_line (ty : invoice_type_t) (mode : tax_mode_t)
    (tot : Totals) (d : list (pystr * pyval)) (q r p : Decimal) :
  field (VDict d) "qty" 1 = Ok q -> field (VDict d) "rate" 0 = Ok r ->
  field (VDict d) "tax_rate" 0 = Ok p ->
  quiet_nan q -> ~ signaling r -> ~ signaling p -> hsn_ok d ->
  ~ signaling (total_taxable tot) -> ~ signaling (total_tax tot) ->
  ~ signaling (total_cgst tot) -> ~ signaling (total_sgst tot) ->
  ~ signaling (total_igst tot) ->
  exists b tot',
    line ty mode tot (VDict d) = Ok (b, tot') /\
    is_nan (taxable_value b) /\ is_nan (tax_value b) /\
    is_nan (total_taxable tot') /\ is_nan (total_tax tot') /\
    (mode = INTER -> is_nan (igst b) /\ is_nan (total_igst tot')) /\
    (mode = INTRA ->
     is_nan (cgst b) /\ is_nan (sgst b) /\
     is_nan (total_cgst tot') /\ is_nan (total_sgst tot')).
Proof.
  intros Eq Er Ep Hq Hr Hp Hh Tt Tx Tc Ts Ti.
  destruct (get_dict d "description") as [de Ed].
  destruct (hsn_check_ok ty d Hh) as [h [[w rec] [Eh Ew]]].
  destruct (mul_quiet_l q r Hq Hr) as [m [Em Qm]].
  destruct (quantize_quiet m ROUND_HALF_UP Qm) as [tv [Etv Qtv]].
  destruct (mul_quiet_l tv p Qtv Hp) as [m1 [Em1 Qm1]].
  destruct (truediv_quiet_l m1 hundred Qm1 ltac:(exact (fun x => x)))
    as [m2 [Em2 Qm2]].
  destruct (quantize_quiet m2 ROUND_HALF_UP Qm2) as [xv [Exv Qxv]].
  destruct (add_quiet_r _ tv Tt Qtv) as [tt [Ett Qtt]].
  destruct (add_quiet_r _ xv Tx Qxv) as [tx [Etx Qtx]].
  assert (Ea : line_amounts q r p = Ok (tv, xv)).
  { unfold line_amounts. rewrite Em. cbn [bind]. rewrite Etv. cbn [bind].
    rewrite Em1. cbn [bind]. rewrite Em2. cbn [bind]. rewrite Exv.
    reflexivity. }
  destruct mode.
  - destruct (truediv_quiet_l xv (Decimal_of_int 2) Qxv
                ltac:(exact (fun x => x))) as [hf [Ehf Qhf]].
    destruct (quantize_quiet hf ROUND_HALF_UP Qhf) as [c [Ec Qc]].
    destruct (add_quiet_r _ c Tc Qc) as [tc [Etc Qtc]].
    destruct (add_quiet_r _ c Ts Qc) as [ts [Ets Qts]].
    eexists. eexists. split.
    + unfold line. rewrite Ed, Eq, Er, Ep, Eh. cbn [bind].
      rewrite Ea. cbn [bind]. unfold line_split.
      rewrite Ehf. cbn [bind]. rewrite Ec. cbn [bind].
      rewrite Etc, Ets. cbn [bind]. rewrite Ett, Etx. cbn [bind].
      rewrite Ew. cbn [bind]. reflexivity.
    + cbn. repeat split; try (apply quiet_nan_is_nan; assumption);
        discriminate.
  - destruct (add_quiet_r _ xv Ti Qxv) as [ti [Eti Qti]].
    eexists. eexists. split.
    + unfold line. rewrite Ed, Eq, Er, Ep, Eh. cbn [bind].
      rewrite Ea. cbn [bind]. unfold line_split.
      rewrite Eti. cbn [bind]. rewrite Ett, Etx. cbn [bind].
      rewrite Ew. cbn [bind]. reflexivity.
    + cbn. repeat split; try (apply quiet_nan_is_nan; assumption);
        discriminate.
Qed.

Lemma X22_nan_quantity_poisons_line_witness :
  exists b tot',
    line B2C INTER zero_totals
      (VDict [(ustr "qty", VStr (ustr "nan")); (ustr "rate", VInt 100)])
    = Ok (b, tot') /\
    is_nan (taxable_value b) /\ is_nan (total_tax tot').
Proof.
  destruct (X22_nan_quantity_poisons_line B2C INTER zero_totals
              [(ustr "qty", VStr (ustr "nan")); (ustr "rate", VInt 100)]
              (NaN false 0 false) (Fin false 100 0) (Fin false 0 0))
    as [b [tot' [H [H1 [_ [_ [H2 _]]]]]]];
    try (vm_compute; reflexivity); try exact I; try exact (fun x => x).
  exists b, tot'. auto.
Defined.

(** ** Floats are read as they print *)

Lemma ascii_digit_plain (c : N) : ascii_digit c = true -> plain_char c = true.
Proof.
  intros H. apply ascii_digit_range in H.
  assert (T : forallb (fun n => plain_char (N.of_nat n)) (seq 48 10) = true)
    by (vm_compute; reflexivity).
  rewrite forallb_forall in T. specialize (T (N.to_nat c)).
  rewrite N2Nat.id in T. apply T, in_seq. lia.
Qed.

Lemma digits_plain (s : pystr) :
  forallb ascii_digit s = true -> forallb plain_char s = true.
Proof.
  rewrite !forallb_forall. intros H c Hc. apply ascii_digit_plain, H, Hc.
Qed.

Lemma dropwhile_id {A : Type} (p : A -> bool) (l : list A) :
  match l with [] => True | x :: _ => p x = false end -> dropwhile p l = l.
Proof. destruct l as [|x l]; [reflexivity|]. cbn. intros ->. reflexivity. Qed.

Lemma strip_plain (s : pystr) : forallb plain_char s = true -> strip s = s.
Proof.
  intros H.
  assert (P : forall c, In c s -> char_isspace c = false).
  { rewrite forallb_forall in H. intros c Hc. specialize (H c Hc).
    unfold plain_char in H. apply andb_true_iff in H. destruct H as [_ H].
    apply negb_true_iff in H. exact H. }
  unfold strip, lstrip, rstrip.
  rewrite (dropwhile_id char_isspace s).
  - rewrite dropwhile_id; [apply rev_involutive|].
    destruct (rev s) as [|x l] eqn:R; [exact I|].
    apply P, in_rev. rewrite R. left. reflexivity.
  - destruct s as [|x l]; [exact I|]. apply P. left. reflexivity.
Qed.

Lemma numeric_as_ascii_plain (s : pystr) :
  forallb plain_char s = true -> numeric_as_ascii s = Some s.
Proof.
  induction s as [|c s IH]; [reflexivity|].
  cbn [forallb numeric_as_ascii]. intros H. apply andb_true_iff in H.
  destruct H as [Hc Hs]. unfold plain_char in Hc.
  apply andb_true_iff in Hc. destruct Hc as [Hc _].
  apply andb_true_iff in Hc. destruct Hc as [Hc H95].
  apply negb_true_iff in H95. rewrite H95, Hc, (IH Hs). reflexivity.
Qed.

Lemma digits_value_fold (l m : list N) :
  digits_value (l ++ m)
  = fold_left (fun acc c => (acc * 10 + (c - 48))%N) m (digits_value l).
Proof. unfold digits_value. apply fold_left_app. Qed.

Lemma digits_value_zeros_head (k : nat) (l : list N) :
  digits_value (repeat 48%N k ++ l) = digits_value l.
Proof.
  induction k as [|k IH]; [reflexivity|].
  cbn [repeat app]. unfold digits_value in *. cbn [fold_left]. exact IH.
Qed.

Lemma digits_value_zeros_tail (k : nat) (l : list N) :
  digits_value (l ++ repeat 48%N k) = (digits_value l * 10 ^ N.of_nat k)%N.
Proof.
  induction k as [|k IH].
  - cbn [repeat]. rewrite app_nil_r. cbn. lia.
  - cbn [repeat]. rewrite repeat_cons, app_assoc, digits_value_app, IH.
    rewrite Nat2N.inj_succ, N.pow_succ_r'. lia.
Qed.

Lemma span_digits_app (a b : list N) :
  forallb ascii_digit a = true ->
  match b with [] => True | c :: _ => ascii_digit c = false end ->
  span_digits (a ++ b) = (a, b).
Proof.
  intros Ha Hb. induction a as [|x a IH].
  - destruct b as [|c b]; [reflexivity|]. cbn [app span_digits].
    rewrite Hb. reflexivity.
  - cbn [forallb] in Ha. apply andb_true_iff in Ha. destruct Ha as [Hx Ha].
    cbn [app span_digits]. rewrite Hx, (IH Ha). reflexivity.
Qed.

Lemma forallb_zeros (k : Z) : forallb ascii_digit (zeros k) = true.
Proof.
  unfold zeros. induction (Z.to_nat k) as [|n IH]; [reflexivity|].
  cbn [repeat forallb]. rewrite IH. reflexivity.
Qed.

Lemma forallb_firstn {A : Type} (p : A -> bool) (k : nat) (l : list A) :
  forallb p l = true -> forallb p (firstn k l) = true.
Proof.
  rewrite <- (firstn_skipn k l) at 1. rewrite forallb_app.
  intros H. apply andb_true_iff in H. tauto.
Qed.

Lemma forallb_skipn {A : Type} (p : A -> bool) (k : nat) (l : list A) :
  forallb p l = true -> forallb p (skipn k l) = true.
Proof.
  rewrite <- (firstn_skipn k l) at 1. rewrite forallb_app.
  intros H. apply andb_true_iff in H. tauto.
Qed.

(** The three shapes of a number that [repr] writes. *)
Lemma parse_number_dot (ip fp : list N) :
  forallb ascii_digit ip = true -> forallb ascii_digit fp = true ->
  ip <> [] ->
  parse_number (ip ++ 46%N :: fp)
  = Some (digits_value (ip ++ fp), - Z.of_nat (List.length fp)).
Proof.
  intros Hi Hf Hne. unfold parse_number.
  rewrite (span_digits_app ip (46%N :: fp) Hi eq_refl).
  rewrite (span_digits_all fp Hf).
  destruct ip as [|i ip]; [contradiction | reflexivity].
Qed.

Lemma parse_exponent_signed (neg : bool) (es : list N) :
  forallb ascii_digit es = true -> es <> [] ->
  parse_exponent ((if neg then 45%N else 43%N) :: es)
  = Some (if neg then - Z.of_N (digits_value es)
          else Z.of_N (digits_value es)).
Proof.
  intros He Hne. unfold parse_exponent.
  assert (E : split_sign ((if neg then 45%N else 43%N) :: es) = (neg, es))
    by (destruct neg; reflexivity).
  rewrite E, (span_digits_all es He).
  destruct es; [contradiction | reflexivity].
Qed.

Lemma parse_number_dot_exp (ip fp ex : list N) (e : Z) :
  forallb ascii_digit ip = true -> forallb ascii_digit fp = true ->
  ip <> [] -> parse_exponent ex = Some e ->
  parse_number (ip ++ 46%N :: fp ++ 101%N :: ex)
  = Some (digits_value (ip ++ fp), e - Z.of_nat (List.length fp)).
Proof.
  intros Hi Hf Hne He. unfold parse_number.
  rewrite (span_digits_app ip (46%N :: fp ++ 101%N :: ex) Hi eq_refl).
  rewrite (span_digits_app fp (101%N :: ex) Hf eq_refl).
  destruct ip as [|i ip]; [contradiction|].
  cbn [app]. change (lower 101 =? 101)%N with true. cbv iota.
  rewrite He. reflexivity.
Qed.

Lemma parse_number_exp (ip ex : list N) (e : Z) :
  forallb ascii_digit ip = true -> ip <> [] -> parse_exponent ex = Some e ->
  parse_number (ip ++ 101%N :: ex) = Some (digits_value ip, e).
Proof.
  intros Hi Hne He. unfold parse_number.
  rewrite (span_digits_app ip (101%N :: ex) Hi eq_refl).
  rewrite app_nil_r.
  destruct ip as [|i ip]; [contradiction|].
  change (lower 101 =? 101)%N with true. cbv iota.
  rewrite He. cbn [List.length Z.of_nat]. rewrite Z.sub_0_r. reflexivity.
Qed.

(** A string that starts with a digit is a number or nothing. *)
Lemma Decimal_of_ascii_number (sign : bool) (c : N) (rest : list N) :
  ascii_digit c = true ->
  Decimal_of_ascii (if sign then 45%N :: c :: rest else c :: rest)
  = match parse_number (c :: rest) with
    | Some (co, e) =>
        if fits_exactly co e then Ok (Fin sign co e)
        else Raise InvalidOperation
    | None => Raise InvalidOperation
    end.
Proof.
  intros Hc. apply ascii_digit_range in Hc.
  assert (Hsplit : split_sign (if sign then 45%N :: c :: rest else c :: rest)
                   = (sign, c :: rest)).
  { destruct sign; [reflexivity|]. unfold split_sign.
    destruct c as [|p]; [lia|].
    do 6 (destruct p as [p|p|]; try reflexivity; try lia). }
  unfold Decimal_of_ascii. rewrite Hsplit.
  assert (Hl : lower c = c).
  { unfold lower. destruct (N.leb_spec 65 c); [lia | reflexivity]. }
  cbn [map]. rewrite Hl.
  generalize (parse_number (c :: rest)). intros pn.
  destruct c as [|p]; [lia|].
  do 7 (destruct p as [p|p|]; try reflexivity; try lia).
Qed.

Lemma plain_char_minus : plain_char 45 = true.
Proof. vm_compute. reflexivity. Qed.

Lemma Decimal_of_string_number (neg : bool) (c : N) (rest : list N)
    (co : N) (e : Z) :
  forallb plain_char (c :: rest) = true -> ascii_digit c = true ->
  parse_number (c :: rest) = Some (co, e) -> fits_exactly co e = true ->
  Decimal_of_string (if neg then 45%N :: c :: rest else c :: rest)
  = Ok (Fin neg co e).
Proof.
  intros Hp Hc Hn Hf. unfold Decimal_of_string.
  pose proof (Decimal_of_ascii_number neg c rest Hc) as HD.
  rewrite Hn, Hf in HD.
  destruct neg.
  - assert (Hp' : forallb plain_char (45%N :: c :: rest) = true).
    { cbn [forallb] in *. rewrite plain_char_minus. exact Hp. }
    rewrite (strip_plain _ Hp'), (numeric_as_ascii_plain _ Hp'). exact HD.
  - rewrite (strip_plain _ Hp), (numeric_as_ascii_plain _ Hp). exact HD.
Qed.

Lemma fits_small (c : N) (e : Z) :
  (c < pow10 40)%N -> -1000 <= e <= 1000 -> fits_exactly c e = true.
Proof.
  intros Hc He. unfold fits_exactly, MAX_ETINY, MAX_EMAX, adjusted.
  pose proof (ndigits_le c 40 ltac:(lia) Hc) as Hn.
  apply andb_true_iff. split; [apply Z.leb_le; lia|].
  destruct (c =? 0)%N; apply Z.leb_le; lia.
Qed.

Lemma str_N_fuel_length (fuel : nat) :
  forall (n : N) (acc : pystr),
    (List.length (str_N_fuel fuel n acc) <= S fuel + List.length acc)%nat.
Proof.
  induction fuel as [|fuel IH]; intros n acc; cbn [str_N_fuel].
  - cbn [List.length]. lia.
  - destruct (n <? 10)%N; [cbn [List.length]; lia|].
    specialize (IH (n / 10)%N ((48 + n mod 10)%N :: acc)).
    cbn [List.length] in IH. lia.
Qed.

Lemma str_N_length (n : N) :
  (n < pow10 17)%N -> 1 <= Z.of_nat (List.length (str_N n)) <= 60.
Proof.
  intros Hn. destruct (str_N_spec n) as [_ [Hne _]].
  pose proof (str_N_fuel_length (N.to_nat (N.size n)) n []) as Hl.
  fold (str_N n) in Hl. cbn [List.length] in Hl.
  assert (Hs : (N.size n <= 58)%N).
  { destruct (N.le_gt_cases (N.size n) 58) as [H|H]; [exact H|].
    exfalso. pose proof (N.size_le n) as Hle.
    assert (H59 : (2 ^ 59 <= 2 ^ N.size n)%N)
      by (apply N.pow_le_mono_r; lia).
    assert (Hp : pow10 17 = 100000000000000000%N) by reflexivity.
    rewrite Hp in Hn.
    change (2 ^ 59)%N with 576460752303423488%N in H59.
    rewrite N.succ_double_spec in Hle. lia. }
  destruct (str_N n) as [|x l]; [contradiction|]. cbn [List.length] in *.
  lia.
Qed.

Lemma plain_char_dot : plain_char 46 = true.
Proof. vm_compute. reflexivity. Qed.

Lemma plain_char_e : plain_char 101 = true.
Proof. vm_compute. reflexivity. Qed.

Lemma plain_char_plus : plain_char 43 = true.
Proof. vm_compute. reflexivity. Qed.

Lemma plain_char_sign (b : bool) : plain_char (if b then 45 else 43) = true.
Proof. destruct b; vm_compute; reflexivity. Qed.

Lemma zeros_length (k : Z) : 0 <= k -> Z.of_nat (List.length (zeros k)) = k.
Proof. intros H. unfold zeros. rewrite repeat_length. lia. Qed.

Lemma pow10_N (k : nat) : (10 ^ N.of_nat k)%N = pow10 (Z.of_nat k).
Proof. unfold pow10. f_equal. lia. Qed.

(** The text of a float in scientific notation. *)
Lemma repr_scientific (neg : bool) (ds : list N) (e : Z) :
  forallb ascii_digit ds = true -> ds <> [] ->
  (digits_value ds < pow10 17)%N -> Z.of_nat (List.length ds) <= 60 ->
  -500 <= e <= 500 ->
  Decimal_of_string
    (if neg
     then 45%N :: (match ds with
                   | d :: ((_ :: _) as rest) => d :: 46%N :: rest
                   | _ => ds
                   end
                   ++ [101%N; if e <? 0 then 45%N else 43%N]
                   ++ (if Z.abs e <? 10
                       then 48%N :: str_N (Z.to_N (Z.abs e))
                       else str_N (Z.to_N (Z.abs e))))
     else (match ds with
           | d :: ((_ :: _) as rest) => d :: 46%N :: rest
           | _ => ds
           end
           ++ [101%N; if e <? 0 then 45%N else 43%N]
           ++ (if Z.abs e <? 10
               then 48%N :: str_N (Z.to_N (Z.abs e))
               else str_N (Z.to_N (Z.abs e)))))
  = Ok (Fin neg (digits_value ds) (e + 1 - Z.of_nat (List.length ds))).
Proof.
  intros Hd Hne Hv Hlen He.
  destruct (str_N_spec (Z.to_N (Z.abs e))) as [Hed [Hene Hev]].
  set (es := str_N (Z.to_N (Z.abs e))) in *.
  set (es' := if Z.abs e <? 10 then 48%N :: es else es).
  assert (Hes' : forallb ascii_digit es' = true /\ es' <> [] /\
                 digits_value es' = Z.to_N (Z.abs e)).
  { unfold es'. destruct (Z.abs e <? 10).
    - split; [cbn [forallb]; rewrite Hed; reflexivity|].
      split; [discriminate|].
      rewrite <- Hev. apply (digits_value_zeros_head 1 es).
    - auto. }
  destruct Hes' as [Hd' [Hne' Hv']].
  pose proof (parse_exponent_signed (e <? 0) es' Hd' Hne') as Hpe.
  rewrite Hv' in Hpe.
  assert (Hee : (if e <? 0 then - Z.of_N (Z.to_N (Z.abs e))
                 else Z.of_N (Z.to_N (Z.abs e))) = e).
  { rewrite Z2N.id by lia. destruct (Z.ltb_spec e 0); lia. }
  rewrite Hee in Hpe.
  pose proof (digits_plain _ Hd') as Pe.
  pose proof (digits_plain _ Hd) as Pd.
  assert (Hfit : forall x, -600 <= x <= 600 ->
                           fits_exactly (digits_value ds) x = true).
  { intros x Hx. apply fits_small; [|lia].
    assert (pow10 17 <= pow10 40)%N by (apply pow10_le; lia). lia. }
  destruct ds as [|d [|d2 rest]]; [contradiction| |].
  - change ([d] ++ [101%N; if e <? 0 then 45%N else 43%N] ++ es')
      with (d :: 101%N :: (if e <? 0 then 45%N else 43%N) :: es').
    cbn [forallb] in Hd, Pd. rewrite andb_true_r in Hd, Pd.
    cbn [List.length Z.of_nat Pos.of_succ_nat].
    replace (e + 1 - 1) with e by lia.
    apply Decimal_of_string_number.
    + cbn [forallb]. rewrite Pd, plain_char_e, plain_char_sign, Pe.
      reflexivity.
    + exact Hd.
    + apply (parse_number_exp [d]); [| discriminate | exact Hpe].
      cbn [forallb]. rewrite Hd. reflexivity.
    + apply Hfit. lia.
  - change ((d :: 46%N :: d2 :: rest)
            ++ [101%N; if e <? 0 then 45%N else 43%N] ++ es')
      with (d :: 46%N :: (d2 :: rest)
            ++ 101%N :: (if e <? 0 then 45%N else 43%N) :: es').
    assert (Hd1 : ascii_digit d = true /\
                  forallb ascii_digit (d2 :: rest) = true).
    { cbn [forallb] in Hd. apply andb_true_iff in Hd. exact Hd. }
    destruct Hd1 as [Hd1 Hd2]. pose proof (digits_plain _ Hd2) as Pd2.
    pose proof (ascii_digit_plain _ Hd1) as Pd1.
    apply Decimal_of_string_number.
    + cbn [forallb]. rewrite Pd1, plain_char_dot, forallb_app, Pd2.
      cbn [forallb]. rewrite plain_char_e, plain_char_sign, Pe. reflexivity.
    + exact Hd1.
    + change (d :: 46%N :: (d2 :: rest)
              ++ 101%N :: (if e <? 0 then 45%N else 43%N) :: es')
        with ([d] ++ 46%N :: (d2 :: rest)
              ++ 101%N :: (if e <? 0 then 45%N else 43%N) :: es').
      rewrite (parse_number_dot_exp [d] (d2 :: rest) _ e);
        [| cbn [forallb]; rewrite Hd1; reflexivity | exact Hd2
         | discriminate | exact Hpe].
      f_equal. f_equal. cbn [List.length]. lia.
    + apply Hfit. cbn [List.length] in *. lia.
Qed.

(** The text of a float below one, written with leading zeros. *)
Lemma repr_small (neg : bool) (ds : list N) (k : Z) :
  forallb ascii_digit ds = true -> ds <> [] ->
  (digits_value ds < pow10 17)%N -> Z.of_nat (List.length ds) <= 60 ->
  0 <= k <= 500 ->
  Decimal_of_string
    (if neg then 45%N :: ustr "0." ++ zeros k ++ ds
     else ustr "0." ++ zeros k ++ ds)
  = Ok (Fin neg (digits_value ds) (- k - Z.of_nat (List.length ds))).
Proof.
  intros Hd Hne Hv Hlen Hk.
  change (ustr "0." ++ zeros k ++ ds) with (48%N :: 46%N :: zeros k ++ ds).
  pose proof (digits_plain _ Hd) as Pd.
  pose proof (digits_plain _ (forallb_zeros k)) as Pz.
  assert (Hzd : forallb ascii_digit (zeros k ++ ds) = true)
    by (rewrite forallb_app, forallb_zeros, Hd; reflexivity).
  apply Decimal_of_string_number.
  - cbn [forallb]. rewrite forallb_app, Pz, Pd. reflexivity.
  - reflexivity.
  - change (48%N :: 46%N :: zeros k ++ ds)
      with ([48%N] ++ 46%N :: zeros k ++ ds).
    rewrite (parse_number_dot [48%N] (zeros k ++ ds));
      [| reflexivity | exact Hzd | discriminate].
    f_equal. f_equal.
    + change ([48%N] ++ zeros k ++ ds)
        with (repeat 48%N (S (Z.to_nat k)) ++ ds).
      apply digits_value_zeros_head.
    + rewrite length_app, Nat2Z.inj_add, zeros_length by lia. lia.
  - apply fits_small; [|lia].
    assert (pow10 17 <= pow10 40)%N by (apply pow10_le; lia). lia.
Qed.

(** The text of a float with digits on both sides of the point. *)
Lemma repr_split (neg : bool) (ds : list N) (k : nat) :
  forallb ascii_digit ds = true ->
  (digits_value ds < pow10 17)%N -> Z.of_nat (List.length ds) <= 60 ->
  (0 < k < List.length ds)%nat ->
  Decimal_of_string
    (if neg then 45%N :: firstn k ds ++ 46%N :: skipn k ds
     else firstn k ds ++ 46%N :: skipn k ds)
  = Ok (Fin neg (digits_value ds)
          (Z.of_nat k - Z.of_nat (List.length ds))).
Proof.
  intros Hd Hv Hlen Hk.
  destruct ds as [|d ds']; [cbn in Hk; lia|].
  destruct k as [|k']; [lia|].
  cbn [firstn skipn app].
  assert (Hd1 : ascii_digit d = true /\ forallb ascii_digit ds' = true)
    by (cbn [forallb] in Hd; apply andb_true_iff in Hd; exact Hd).
  destruct Hd1 as [Hd1 Hd2].
  pose proof (forallb_firstn _ k' _ Hd2) as Hf.
  pose proof (forallb_skipn _ k' _ Hd2) as Hs.
  apply Decimal_of_string_number.
  - cbn [forallb]. rewrite (ascii_digit_plain _ Hd1), forallb_app.
    rewrite (digits_plain _ Hf). cbn [forallb].
    rewrite plain_char_dot, (digits_plain _ Hs). reflexivity.
  - exact Hd1.
  - change (d :: firstn k' ds' ++ 46%N :: skipn k' ds')
      with ((d :: firstn k' ds') ++ 46%N :: skipn k' ds').
    rewrite (parse_number_dot (d :: firstn k' ds') (skipn k' ds'));
      [| cbn [forallb]; rewrite Hd1, Hf; reflexivity | exact Hs
       | discriminate].
    f_equal. f_equal.
    + cbn [app]. rewrite firstn_skipn. reflexivity.
    + rewrite length_skipn. cbn [List.length] in *. lia.
  - apply fits_small; [|cbn [List.length] in *; lia].
    assert (pow10 17 <= pow10 40)%N by (apply pow10_le; lia). lia.
Qed.

(** The text of a float that is a whole number, written with [.0]. *)
Lemma repr_whole (neg : bool) (ds : list N) (k : Z) :
  forallb ascii_digit ds = true -> ds <> [] ->
  (digits_value ds < pow10 17)%N -> 0 <= k <= 15 ->
  Decimal_of_string
    (if neg then 45%N :: ds ++ zeros k ++ ustr ".0"
     else ds ++ zeros k ++ ustr ".0")
  = Ok (Fin neg (digits_value ds * pow10 (k + 1)) (-1)).
Proof.
  intros Hd Hne Hv Hk.
  change (ustr ".0") with [46%N; 48%N].
  destruct ds as [|d ds']; [contradiction|].
  assert (Hd1 : ascii_digit d = true /\ forallb ascii_digit ds' = true)
    by (cbn [forallb] in Hd; apply andb_true_iff in Hd; exact Hd).
  destruct Hd1 as [Hd1 Hd2].
  pose proof (forallb_zeros k) as Hz.
  cbn [app].
  apply Decimal_of_string_number.
  - cbn [forallb]. rewrite (ascii_digit_plain _ Hd1), !forallb_app.
    rewrite (digits_plain _ Hd2), (digits_plain _ Hz). reflexivity.
  - exact Hd1.
  - replace (d :: ds' ++ zeros k ++ [46%N; 48%N])
      with (((d :: ds') ++ zeros k) ++ 46%N :: [48%N])
      by (rewrite <- app_assoc; reflexivity).
    rewrite (parse_number_dot ((d :: ds') ++ zeros k) [48%N]);
      [| rewrite forallb_app, Hd, Hz; reflexivity | reflexivity
       | discriminate].
    f_equal. f_equal.
    rewrite digits_value_app. unfold zeros.
    rewrite digits_value_zeros_tail, pow10_N, Z2Nat.id by lia.
    rewrite pow10_succ by lia. lia.
  - apply fits_small; [|lia].
    assert (H1 : (pow10 (k + 1) <= pow10 16)%N) by (apply pow10_le; lia).
    assert (H2 : (pow10 17 * pow10 16 = pow10 33)%N)
      by (rewrite <- pow10_add by lia; reflexivity).
    assert (H3 : (pow10 33 <= pow10 40)%N) by (apply pow10_le; lia).
    pose proof (pow10_pos (k + 1)).
    assert (H4 : (digits_value (d :: ds') * pow10 (k + 1)
                  <= digits_value (d :: ds') * pow10 16)%N)
      by (apply N.mul_le_mono_l; exact H1).
    assert (H5 : (digits_value (d :: ds') * pow10 16
                  < pow10 17 * pow10 16)%N)
      by (apply N.mul_lt_mono_pos_r; [apply pow10_pos | exact Hv]).
    lia.
Qed.

(** X23: [Decimal(str(x))] for a float [x] is the decimal that [repr] writes:
    the shortest digits that read back as [x], with the decimal point
    where [repr] puts it, never the binary expansion of [x]. *)
Theorem X23_float_field_exact (neg : bool) (digits : N) (decpt : Z) :
  (digits < pow10 17)%N -> -400 <= decpt <= 400 ->
  Decimal_of_value (VFloat (FFinite neg digits decpt))
  = Ok (float_decimal neg digits decpt) /\
  (value (float_decimal neg digits decpt)
   == value (Fin neg digits
               (decpt - Z.of_nat (List.length (str_N digits)))))%Q /\
  (forall d key default,
     lookup (ustr key) d = Some (VFloat (FFinite neg digits decpt)) ->
     digits <> 0%N ->
     field (VDict d) key default = Ok (float_decimal neg digits decpt)).
Proof.
  intros HD Hdec.
  destruct (str_N_spec digits) as [Hd [Hne Hv]].
  pose proof (str_N_length digits HD) as Hn.
  assert (Main : Decimal_of_value (VFloat (FFinite neg digits decpt))
                 = Ok (float_decimal neg digits decpt));
    [|split; [exact Main|]; split;
      [|intros d key default Hl Hnz;
        rewrite (field_truthy d key default _ Hl);
        [exact Main
        |cbn [truthy]; destruct (N.eqb_spec digits 0);
         [contradiction | reflexivity]]]].
  - cbn [Decimal_of_value]. unfold repr_float, float_decimal. cbv zeta.
    remember (str_N digits) as ds eqn:Eds. clear Eds.
    assert (HD' : (digits_value ds < pow10 17)%N) by (rewrite Hv; exact HD).
    destruct (Z.leb_spec decpt (-4)) as [C1|C1]; cbn [orb].
    + destruct (Z.leb_spec (Z.of_nat (List.length ds)) decpt); [lia|].
      cbn [andb].
      rewrite repr_scientific by (try assumption; lia).
      rewrite Hv. f_equal. f_equal. lia.
    + destruct (Z.ltb_spec 16 decpt) as [C2|C2].
      * destruct (Z.leb_spec decpt 16); [lia|]. rewrite andb_false_r.
        rewrite repr_scientific by (try assumption; lia).
        rewrite Hv. f_equal. f_equal. lia.
      * destruct (Z.leb_spec decpt 0) as [C3|C3].
        -- destruct (Z.leb_spec (Z.of_nat (List.length ds)) decpt); [lia|].
           cbn [andb].
           rewrite repr_small by (try assumption; lia).
           rewrite Hv. f_equal. f_equal. lia.
        -- destruct (Z.ltb_spec decpt (Z.of_nat (List.length ds)))
             as [C4|C4].
           ++ destruct (Z.leb_spec (Z.of_nat (List.length ds)) decpt);
                [lia|]. cbn [andb].
              rewrite repr_split by (try assumption; lia).
              rewrite Hv. f_equal. f_equal. lia.
           ++ destruct (Z.leb_spec (Z.of_nat (List.length ds)) decpt);
                [|lia].
              destruct (Z.leb_spec decpt 16); [|lia]. cbn [andb].
              rewrite repr_whole by (try assumption; lia).
              rewrite Hv. reflexivity.
  - unfold float_decimal. cbv zeta.
    destruct ((Z.of_nat (List.length (str_N digits)) <=? decpt)
              && (decpt <=? 16)) eqn:C; [|reflexivity].
    apply andb_true_iff in C. destruct C as [C1 C2].
    apply Z.leb_le in C1, C2.
    symmetry. apply value_shift; [lia | f_equal; f_equal; lia].
Qed.

Lemma X23_float_field_exact_witness :
  Decimal_of_value (VFloat (FFinite false 995 2)) = Ok (Fin false 995 (-1)).
Proof.
  refine (proj1 (X23_float_field_exact false 995 2 _ _)).
  - vm_compute. reflexivity.
  - lia.
Defined.

(** ** The exceptions that escape *)

Lemma bind_Raise {A B : Type} (m : result A) (k : A -> result B) (e : exn) :
  bind m k = Raise e -> m = Raise e \/ exists a, m = Ok a /\ k a = Raise e.
Proof.
  destruct m as [a|e']; cbn [bind]; [eauto|].
  intros H. injection H as <-. left. reflexivity.
Qed.

Lemma fix_raises (d : Decimal) (e : exn) : fix_ d = Raise e -> e = Overflow.
Proof.
  unfold fix_. destruct d as [s c x|s|s p g]; try discriminate. intros H.
  repeat match type of H with
         | (if ?b then _ else _) = _ => destruct b
         | (let (_, _) := ?p in _) = _ => destruct p
         end;
    try discriminate; injection H as <-; reflexivity.
Qed.

Lemma check_nans_raises (a b : Decimal) (e : exn) :
  check_nans a b = Some (Raise e) -> e = InvalidOperation.
Proof.
  destruct a as [| |sa pa [|]], b as [| |sb pb [|]]; cbn [check_nans fix_];
    intros H; try discriminate; injection H as <-; reflexivity.
Qed.

Ltac raise_cases H :=
  repeat match type of H with
         | (if ?b then _ else _) = _ => destruct b
         | (let (_, _) := ?p in _) = _ => destruct p
         end;
  try discriminate;
  first [ injection H as <-; left; reflexivity
        | right; eapply fix_raises; exact H ].

Lemma mul_raises (a b : Decimal) (e : exn) :
  mul a b = Raise e -> e = InvalidOperation \/ e = Overflow.
Proof.
  unfold mul. destruct (check_nans a b) as [r|] eqn:C.
  - intros ->. left. eapply check_nans_raises. exact C.
  - destruct a as [sa ca ea|sa|], b as [sb cb eb|sb|]; intros H;
      raise_cases H.
Qed.

Lemma add_raises (a b : Decimal) (e : exn) :
  add a b = Raise e -> e = InvalidOperation \/ e = Overflow.
Proof.
  unfold add. destruct (check_nans a b) as [r|] eqn:C.
  - intros ->. left. eapply check_nans_raises. exact C.
  - destruct a as [sa ca ea|sa|], b as [sb cb eb|sb|]; intros H;
      raise_cases H.
Qed.

Lemma quantize_raises (a b : Decimal) (r : rounding) (e : exn) :
  quantize a b r = Raise e -> e = InvalidOperation \/ e = Overflow.
Proof.
  unfold quantize. destruct (check_nans a b) as [res|] eqn:C.
  - intros ->. left. eapply check_nans_raises. exact C.
  - destruct a as [sa ca ea|sa|], b as [sb cb eb|sb|]; intros H;
      raise_cases H.
Qed.

(** Dividing by a number that is not zero never raises
    [DivisionByZero]. *)
Lemma truediv_raises (a : Decimal) (s : bool) (c : N) (x : Z) (e : exn) :
  c <> 0%N -> truediv a (Fin s c x) = Raise e ->
  e = InvalidOperation \/ e = Overflow.
Proof.
  intros Hc. unfold truediv.
  destruct (check_nans a (Fin s c x)) as [r|] eqn:C.
  - intros ->. left. eapply check_nans_raises. exact C.
  - destruct a as [sa ca ea|sa|]; intros H.
    + destruct (N.eqb_spec c 0); [contradiction|]. raise_cases H.
    + discriminate.
    + raise_cases H.
Qed.

Lemma line_amounts_raises (q r p : Decimal) (e : exn) :
  line_amounts q r p = Raise e -> e = InvalidOperation \/ e = Overflow.
Proof.
  unfold line_amounts. intros H.
  apply bind_Raise in H. destruct H as [H|[m [_ H]]];
    [eapply mul_raises; exact H|].
  apply bind_Raise in H. destruct H as [H|[tv [_ H]]];
    [eapply quantize_raises; exact H|].
  apply bind_Raise in H. destruct H as [H|[m1 [_ H]]];
    [eapply mul_raises; exact H|].
  apply bind_Raise in H. destruct H as [H|[m2 [_ H]]];
    [eapply (truediv_raises m1 false 100 0); [discriminate | exact H]|].
  apply bind_Raise in H. destruct H as [H|[xv [_ H]]];
    [eapply quantize_raises; exact H | discriminate].
Qed.

Lemma line_split_raises (mode : tax_mode_t) (tot : Totals) (xv : Decimal)
    (e : exn) :
  line_split mode tot xv = Raise e -> e = InvalidOperation \/ e = Overflow.
Proof.
  unfold line_split. destruct mode; intros H.
  - apply bind_Raise in H. destruct H as [H|[h1 [_ H]]];
      [eapply (truediv_raises xv false 2 0); [discriminate | exact H]|].
    apply bind_Raise in H. destruct H as [H|[c [_ H]]];
      [eapply quantize_raises; exact H|].
    apply bind_Raise in H. destruct H as [H|[h2 [_ H]]];
      [eapply (truediv_raises xv false 2 0); [discriminate | exact H]|].
    apply bind_Raise in H. destruct H as [H|[g [_ H]]];
      [eapply quantize_raises; exact H|].
    apply bind_Raise in H. destruct H as [H|[tc [_ H]]];
      [eapply add_raises; exact H|].
    apply bind_Raise in H. destruct H as [H|[ts [_ H]]];
      [eapply add_raises; exact H | discriminate].
  - apply bind_Raise in H. destruct H as [H|[ti [_ H]]];
      [eapply add_raises; exact H | discriminate].
Qed.

Lemma get_raises (v : pyval) (k : string) (dflt : pyval) (e : exn) :
  get_default v k dflt = Raise e -> e = AttributeError.
Proof.
  destruct v; cbn [get_default]; try (intros H; injection H as <-;
    reflexivity).
  destruct (lookup (ustr k) d); discriminate.
Qed.

Lemma field_raises (it : pyval) (k : string) (dflt : Z) (e : exn) :
  field it k dflt = Raise e -> e = AttributeError \/ e = InvalidOperation.
Proof.
  unfold field, get. intros H. apply bind_Raise in H.
  destruct H as [H|[v [_ H]]].
  - left. eapply get_raises. exact H.
  - right. eapply Decimal_of_value_raises. exact H.
Qed.

Lemma hsn_digits_len_raises (chs : list pyval) (e : exn) :
  hsn_digits_len chs = Raise e -> e = AttributeError.
Proof.
  induction chs as [|ch chs IH]; cbn [hsn_digits_len]; [discriminate|].
  intros H. apply bind_Raise in H. destruct H as [H|[b [_ H]]].
  - destruct ch; cbn [isdigit_method] in H; try discriminate;
      injection H as <-; reflexivity.
  - apply bind_Raise in H. destruct H as [H|[n [_ H]]];
      [exact (IH H) | discriminate].
Qed.

Lemma hsn_check_raises (ty : invoice_type_t) (h : pyval) (e : exn) :
  hsn_check ty h = Raise e -> e = TypeError \/ e = AttributeError.
Proof.
  unfold hsn_check. intros H. apply bind_Raise in H.
  destruct H as [H|[chs [_ H]]].
  - left. destruct h; cbn [iterate] in H; try discriminate;
      injection H as <-; reflexivity.
  - right. apply bind_Raise in H. destruct H as [H|[n [_ H]]];
      [eapply hsn_digits_len_raises; exact H | discriminate].
Qed.

Lemma line_raises (ty : invoice_type_t) (mode : tax_mode_t) (tot : Totals)
    (it : pyval) (e : exn) :
  line ty mode tot it = Raise e -> escapes e.
Proof.
  unfold line, escapes, get. intros H.
  apply bind_Raise in H. destruct H as [H|[d [_ H]]];
    [left; eapply get_raises; exact H|].
  apply bind_Raise in H. destruct H as [H|[q [_ H]]];
    [destruct (field_raises _ _ _ _ H); auto|].
  apply bind_Raise in H. destruct H as [H|[r [_ H]]];
    [destruct (field_raises _ _ _ _ H); auto|].
  apply bind_Raise in H. destruct H as [H|[p [_ H]]];
    [destruct (field_raises _ _ _ _ H); auto|].
  apply bind_Raise in H. destruct H as [H|[h [_ H]]];
    [left; eapply get_raises; exact H|].
  apply bind_Raise in H. destruct H as [H|[[tv xv] [_ H]]];
    [destruct (line_amounts_raises _ _ _ _ H); auto|].
  apply bind_Raise in H. destruct H as [H|[[[[c g] i] [[tc ts] ti]] [_ H]]];
    [destruct (line_split_raises _ _ _ _ H); auto|].
  apply bind_Raise in H. destruct H as [H|[tt [_ H]]];
    [destruct (add_raises _ _ _ H); auto|].
  apply bind_Raise in H. destruct H as [H|[tx [_ H]]];
    [destruct (add_raises _ _ _ H); auto|].
  apply bind_Raise in H. destruct H as [H|[[w rec] [_ H]]];
    [destruct (hsn_check_raises _ _ _ H); auto | discriminate].
Qed.

Lemma lines_raises (its : list pyval) :
  forall (ty : invoice_type_t) (mode : tax_mode_t) (tot : Totals) (e : exn),
    lines ty mode tot its = Raise e -> escapes e.
Proof.
  induction its as [|it its IH]; intros ty mode tot e; cbn [lines];
    [discriminate|].
  intros H. apply bind_Raise in H. destruct H as [H|[[b tot1] [_ H]]];
    [eapply line_raises; exact H|].
  apply bind_Raise in H. destruct H as [H|[[bs tot2] [_ H]]];
    [eapply IH; exact H | discriminate].
Qed.

Lemma invoice_viewer_raises (st : Stored) (e : exn) :
  invoice_viewer st = Raise e -> escapes e.
Proof.
  unfold invoice_viewer. intros H.
  apply bind_Raise in H. destruct H as [H|[buyer [_ H]]].
  - left. unfold buyer_gst_of in H.
    destruct (invoice_customer st) as [[[|c g]|]|]; try discriminate;
      (apply bind_Raise in H; destruct H as [H|[v [_ H]]];
       [eapply get_raises; exact H
       |destruct v; cbn [strip_method] in H; try discriminate;
        injection H as <-; reflexivity]).
  - apply bind_Raise in H. destruct H as [H|[items [_ H]]].
    + left. unfold extract_items, get in H.
      apply bind_Raise in H. destruct H as [H|[a [_ H]]];
        [eapply get_raises; exact H|].
      destruct (truthy a); [discriminate|].
      apply bind_Raise in H. destruct H as [H|[b [_ H]]];
        [eapply get_raises; exact H | discriminate].
    + apply bind_Raise in H. destruct H as [H|[its [_ H]]].
      * right. left. destruct items; cbn [iterate] in H; try discriminate;
          injection H as <-; reflexivity.
      * apply bind_Raise in H. destruct H as [H|[[bd tot] [_ H]]];
          [eapply lines_raises; exact H|].
        apply bind_Raise in H. destruct H as [H|[s [_ H]]];
          [destruct (add_raises _ _ _ H); unfold escapes; auto|].
        apply bind_Raise in H. destruct H as [H|[gt [_ H]]];
          [destruct (quantize_raises _ _ _ _ H); unfold escapes; auto
          |discriminate].
Qed.

(** X24: the exceptions that can get out of the view are [AttributeError],
    [TypeError], [InvalidOperation] and [Overflow], each of them on some
    stored invoice; [DivisionByZero] never does, the divisors being 100
    and 2. *)
Theorem X24_exceptions_that_escape (e : exn) :
  ((exists st, invoice_viewer st = Raise e) <-> escapes e) /\
  (forall st, invoice_viewer st <> Raise DivisionByZero).
Proof.
  split; [split|].
  - intros [st H]. eapply invoice_viewer_raises. exact H.
  - intros [-> | [-> | [-> | ->]]].
    + exists {| business_gst := None; invoice_customer := None;
                invoice_json := Some (VList []) |}. reflexivity.
    + exists {| business_gst := None; invoice_customer := None;
                invoice_json := Some (VDict [(ustr "items", VInt 5)]) |}.
      reflexivity.
    + exists stored_decimal_comma. vm_compute. reflexivity.
    + exists stored_overflow. vm_compute. reflexivity.
  - intros st H. apply invoice_viewer_raises in H.
    destruct H as [H | [H | [H | H]]]; discriminate.
Qed.

(** ** The default invoice number *)

Lemma fold_max_spec (l : list Z) :
  forall a : Z,
    a <= fold_left Z.max l a /\
    (forall n, In n l -> n <= fold_left Z.max l a) /\
    In (fold_left Z.max l a) (a :: l).
Proof.
  induction l as [|x l IH]; intros a; cbn [fold_left].
  - split; [lia|]. split; [intros n []|]. left. reflexivity.
  - destruct (IH (Z.max a x)) as [H1 [H2 H3]].
    split; [lia|]. split.
    + intros n [->|Hn]; [lia | apply H2; exact Hn].
    + destruct H3 as [H3|H3]; [|right; right; exact H3].
      rewrite <- H3. destruct (Z.max_spec a x) as [[_ ->]|[_ ->]];
        [right; left; reflexivity | left; reflexivity].
Qed.

(** X25: the number proposed for a new invoice is larger than every number the
    user's invoices carry, hence not in use: it is 1 for a user without
    invoices and the largest number plus one otherwise. *)
Theorem X25_default_invoice_number_is_fresh (numbers : list Z) :
  (forall n, In n numbers ->
             n < default_invoice_number (invoice_number_max numbers)) /\
  (numbers = [] ->
   default_invoice_number (invoice_number_max numbers) = 1) /\
  (numbers <> [] ->
   In (default_invoice_number (invoice_number_max numbers) - 1) numbers).
Proof.
  destruct numbers as [|a l]; cbn [invoice_number_max default_invoice_number].
  - split; [intros n []|]. split; [reflexivity | congruence].
  - destruct (fold_max_spec l a) as [H1 [H2 H3]].
    assert (E : (if fold_left Z.max l a =? 0 then 1
                 else fold_left Z.max l a + 1) = fold_left Z.max l a + 1)
      by (destruct (Z.eqb_spec (fold_left Z.max l a) 0) as [->|]; reflexivity).
    rewrite E. split; [|split].
    + intros n [<-|Hn]; [lia | specialize (H2 n Hn); lia].
    + discriminate.
    + intros _. replace (fold_left Z.max l a + 1 - 1)
        with (fold_left Z.max l a) by lia. exact H3.
Qed.
